(** * acd_cli: the metadata cache sync engine and the FUSE layer

    A shallow embedding of [cache/sync.py] and [acdcli/acd_fuse.py]:
    the sync engine as a state-and-exception monad over the ORM session,
    the read and write proxies as functions on their Python objects, and the
    FUSE dispatcher over abstract collaborators (node cache, API client);
    of [acd_cli.py], the actions that drive the sync engine. *)

From stdpp Require Import gmap strings list pretty.
From Stdlib Require Import ZArith Lia Ascii Sorted.

Local Open Scope string_scope.
Local Open Scope Z_scope.
Local Open Scope list_scope.

(** * cache/sync.py *)
Module Sync.

(** ** Remote records and cached rows *)

(** [contentProperties] of a file dictionary. *)
Record ContentProperties := mkProps { md5 : string; size : Z }.

(** A node dictionary as returned by the API.  The root folder has no
    [name] key, folders have no [contentProperties]. *)
Record Node := mkNode {
  id : string;
  name : option string;
  createdDate : string;
  modifiedDate : string;
  status : string;
  parents : list string;
  kind : string;
  contentProperties : option ContentProperties
}.

(** Parsed timestamps, as produced by [iso_date.parse]. *)
Definition datetime := Z.

(** [db.Folder(id, name, created, modified, status)] *)
Record Folder := mkFolder {
  fo_id : string;
  fo_name : option string;
  fo_created : datetime;
  fo_modified : datetime;
  fo_status : string
}.

(** [db.File(id, name, created, modified, md5, size, status)] *)
Record File := mkFile {
  fi_id : string;
  fi_name : string;
  fi_created : datetime;
  fi_modified : datetime;
  fi_md5 : string;
  fi_size : Z;
  fi_status : string
}.

#[global] Instance Folder_eq_dec : EqDecision Folder.
Proof. solve_decision. Defined.

#[global] Instance File_eq_dec : EqDecision File.
Proof. solve_decision. Defined.

(** Modelled from the spec: [db.Folder.__eq__] and [db.File.__eq__] live in
    [cache/db.py], which is not among the sources.  Two records are
    identical when all tracked fields are equal. *)
Definition Folder_eq (f ef : Folder) : bool := bool_decide (f = ef).
Definition File_eq (f ef : File) : bool := bool_decide (f = ef).

(** ** The ORM session *)

(** The three tables of the cache: folders, files and the parentage edge
    set [(parent, child)]. *)
Record Tables := mkTables {
  t_folders : list Folder;
  t_files : list File;
  t_parentage : list (string * string)
}.

(** Modelled from the spec: [db.session] and [db.engine] live in
    [cache/db.py], which is not among the sources.  The spec keeps "two
    record tables (files, folders) keyed by opaque id, one edge table",
    has node ids "globally unique across files and folders", and has a
    batch commit or roll back as one transaction.  The session is the unit
    of work over these tables: [durable] is the committed state, [view]
    the state inside the open transaction, the next four fields are the
    pending additions and deletions, written to [view] by a flush.  A
    pending file carries the ids appended to its [parents] relationship.
    [autoflush] is the switch that [no_autoflush] turns off; [inactive]
    is set by a failed flush and cleared by a rollback. *)
Record Session := mkSession {
  durable : Tables;
  view : Tables;
  new_folders : list Folder;
  new_files : list (File * list string);
  deleted_folders : list string;
  deleted_files : list string;
  autoflush : bool;
  inactive : bool
}.

Inductive exn :=
| IntegrityError | InvalidRequestError | ValueError | KeyError.

#[global] Instance exn_eq_dec : EqDecision exn.
Proof. solve_decision. Defined.

(** Outcome of a computation: the final session and the lines printed. *)
Inductive Result (A : Type) :=
| Ok (a : A) (s : Session) (out : list string)
| Raise (e : exn) (s : Session) (out : list string).
Arguments Ok {A} a s out.
Arguments Raise {A} e s out.

Definition M (A : Type) := Session -> Result A.

Definition ret {A} (a : A) : M A := fun s => Ok a s [].

Definition bind {A B} (m : M A) (k : A -> M B) : M B := fun s =>
  match m s with
  | Ok a s1 out1 =>
      match k a s1 with
      | Ok b s2 out2 => Ok b s2 (out1 ++ out2)
      | Raise e s2 out2 => Raise e s2 (out1 ++ out2)
      end
  | Raise e s1 out1 => Raise e s1 out1
  end.

#[global] Instance M_ret : MRet M := @ret.
#[global] Instance M_bind : MBind M := fun A B k m => bind m k.

Definition raise {A} (e : exn) : M A := fun s => Raise e s [].
Definition print (line : string) : M unit := fun s => Ok tt s [line].
Definition get : M Session := fun s => Ok s s [].
Definition put (s : Session) : M unit := fun _ => Ok tt s [].

(** [try: body except e: handler] *)
Definition try_except (body : M unit) (e : exn) (handler : M unit) : M unit :=
  fun s =>
    match body s with
    | Ok a s1 out1 => Ok a s1 out1
    | Raise e' s1 out1 =>
        if bool_decide (e' = e) then
          match handler s1 with
          | Ok a s2 out2 => Ok a s2 (out1 ++ out2)
          | Raise e2 s2 out2 => Raise e2 s2 (out1 ++ out2)
          end
        else Raise e' s1 out1
    end.

(** A [for] loop threading the local variables [acc] through its body. *)
Fixpoint for_each {A B} (l : list A) (body : B -> A -> M B) (acc : B) : M B :=
  match l with
  | [] => ret acc
  | x :: l' => acc' ← body acc x; for_each l' body acc'
  end.

Definition ids_folders (l : list Folder) : list string := fo_id <$> l.
Definition ids_files (l : list File) : list string := fi_id <$> l.

(** Primary-key check of a flush: every new id must be unused, also by the
    rows inserted before it.  Node ids are unique across files and
    folders. *)
Fixpoint ids_free (used new : list string) : bool :=
  match new with
  | [] => true
  | i :: new' => bool_decide (i ∉ used) && ids_free (i :: used) new'
  end.

(** [INSERT OR IGNORE INTO parentage VALUES (p, c)] *)
Definition insert_or_ignore (e : string * string)
    (edges : list (string * string)) : list (string * string) :=
  if bool_decide (e ∈ edges) then edges else edges ++ [e].

Definition edges_of (nf : File * list string) : list (string * string) :=
  (fun p => (p, fi_id nf.1)) <$> nf.2.

(** The tables a flush writes: pending deletions first, then the pending
    additions, files with their parent edges. *)
Definition flushed (s : Session) : Tables :=
  let v := view s in
  {| t_folders :=
       filter (fun r => fo_id r ∉ deleted_folders s) (t_folders v)
       ++ new_folders s;
     t_files :=
       filter (fun r => fi_id r ∉ deleted_files s) (t_files v)
       ++ (fst <$> new_files s);
     t_parentage :=
       foldl (fun es e => insert_or_ignore e es) (t_parentage v)
             (mbind edges_of (new_files s)) |}.

Definition flush_ok (s : Session) : bool :=
  let v := view s in
  ids_free
    (ids_folders (filter (fun r => fo_id r ∉ deleted_folders s) (t_folders v))
     ++ ids_files (filter (fun r => fi_id r ∉ deleted_files s) (t_files v)))
    (ids_folders (new_folders s) ++ ids_files (fst <$> new_files s)).

(** [session.flush()].  A violated primary key raises [IntegrityError]:
    the transaction is undone, the pending work is dropped, and the session
    stays inactive until [session.rollback()]; on an inactive session
    every statement raises [InvalidRequestError]. *)
Definition session_flush : M unit := fun s =>
  if inactive s then Raise InvalidRequestError s []
  else if flush_ok s then
    Ok tt {| durable := durable s; view := flushed s;
             new_folders := []; new_files := [];
             deleted_folders := []; deleted_files := [];
             autoflush := autoflush s; inactive := false |} []
  else
    Raise IntegrityError
      {| durable := durable s; view := durable s;
         new_folders := []; new_files := [];
         deleted_folders := []; deleted_files := [];
         autoflush := autoflush s; inactive := true |} [].

(** [session.commit()] *)
Definition session_commit : M unit :=
  session_flush ;;
  s ← get;
  put {| durable := view s; view := view s;
         new_folders := new_folders s; new_files := new_files s;
         deleted_folders := deleted_folders s;
         deleted_files := deleted_files s;
         autoflush := autoflush s; inactive := inactive s |}.

(** [session.rollback()] *)
Definition session_rollback : M unit := fun s =>
  Ok tt {| durable := durable s; view := durable s;
           new_folders := []; new_files := [];
           deleted_folders := []; deleted_files := [];
           autoflush := autoflush s; inactive := false |} [].

(** Queries need an active session and flush first unless autoflush is
    switched off. *)
Definition before_query : M unit :=
  s ← get;
  if inactive s then raise InvalidRequestError
  else if autoflush s then session_flush else ret tt.

(** [session.query(db.Folder).filter_by(id=i).first()] *)
Definition query_folder_first (i : string) : M (option Folder) :=
  before_query ;;
  s ← get;
  ret (head (filter (fun r => fo_id r = i) (t_folders (view s)))).

(** [session.query(db.File).filter_by(id=i).first()] *)
Definition query_file_first (i : string) : M (option File) :=
  before_query ;;
  s ← get;
  ret (head (filter (fun r => fi_id r = i) (t_files (view s)))).

(** [session.query(db.Folder)] and [session.query(db.File)] *)
Definition query_folders : M (list Folder) :=
  before_query ;; s ← get; ret (t_folders (view s)).
Definition query_files : M (list File) :=
  before_query ;; s ← get; ret (t_files (view s)).

Definition session_add_folder (f : Folder) : M unit := fun s =>
  Ok tt {| durable := durable s; view := view s;
           new_folders := new_folders s ++ [f]; new_files := new_files s;
           deleted_folders := deleted_folders s;
           deleted_files := deleted_files s;
           autoflush := autoflush s; inactive := inactive s |} [].

Definition session_add_file (f : File) : M unit := fun s =>
  Ok tt {| durable := durable s; view := view s;
           new_folders := new_folders s;
           new_files := new_files s ++ [(f, [])];
           deleted_folders := deleted_folders s;
           deleted_files := deleted_files s;
           autoflush := autoflush s; inactive := inactive s |} [].

Definition session_delete_folder (ef : Folder) : M unit := fun s =>
  Ok tt {| durable := durable s; view := view s;
           new_folders := new_folders s; new_files := new_files s;
           deleted_folders := deleted_folders s ++ [fo_id ef];
           deleted_files := deleted_files s;
           autoflush := autoflush s; inactive := inactive s |} [].

Definition session_delete_file (ef : File) : M unit := fun s =>
  Ok tt {| durable := durable s; view := view s;
           new_folders := new_folders s; new_files := new_files s;
           deleted_folders := deleted_folders s;
           deleted_files := deleted_files s ++ [fi_id ef];
           autoflush := autoflush s; inactive := inactive s |} [].

Definition set_autoflush (b : bool) (s : Session) : Session :=
  {| durable := durable s; view := view s;
     new_folders := new_folders s; new_files := new_files s;
     deleted_folders := deleted_folders s;
     deleted_files := deleted_files s;
     autoflush := b; inactive := inactive s |}.

(** [with db.session.no_autoflush: body]; the flag is restored on exit,
    also when the body raises. *)
Definition no_autoflush {A} (body : M A) : M A := fun s =>
  match body (set_autoflush false s) with
  | Ok a s1 out => Ok a (set_autoflush (autoflush s) s1) out
  | Raise e s1 out => Raise e (set_autoflush (autoflush s) s1) out
  end.

(** [f in p_folder.children]: the relationship is loaded by a query for
    the files linked to folder [p] in the edge table, which are compared
    with [==]. *)
Definition in_children (f : File) (p : string) : M bool :=
  before_query ;;
  s ← get;
  ret (existsb
         (fun c => bool_decide ((p, fi_id c) ∈ t_parentage (view s))
                   && File_eq f c)
         (t_files (view s))).

(** [f.parents.append(folder)] for the file added last. *)
Definition append_parent (p : string) : M unit := fun s =>
  let nf :=
    match reverse (new_files s) with
    | [] => []
    | (f, ps) :: rest => reverse rest ++ [(f, ps ++ [p])]
    end in
  Ok tt {| durable := durable s; view := view s;
           new_folders := new_folders s; new_files := nf;
           deleted_folders := deleted_folders s;
           deleted_files := deleted_files s;
           autoflush := autoflush s; inactive := inactive s |} [].

(** [conn.execute('INSERT OR IGNORE INTO parentage VALUES (?, ?)', p, c)]
    on a connection of its own, outside the session's transaction. *)
Definition conn_execute_insert_parentage (p c : string) : M unit := fun s =>
  let ins t := {| t_folders := t_folders t; t_files := t_files t;
                  t_parentage := insert_or_ignore (p, c) (t_parentage t) |} in
  Ok tt {| durable := ins (durable s); view := ins (view s);
           new_folders := new_folders s; new_files := new_files s;
           deleted_folders := deleted_folders s;
           deleted_files := deleted_files s;
           autoflush := autoflush s; inactive := inactive s |} [].

(** ** The sync functions *)

(** The four local counters of [insert_folders] and [insert_files].  The
    Python functions return [None]; the embedding returns the counters so
    that statements can mention them. *)
Record Counters := mkCounters { ins : nat; dup : nat; upd : nat; dtd : nat }.

Definition zero : Counters := mkCounters 0 0 0 0.
Definition inc_ins (c : Counters) : Counters :=
  mkCounters (S (ins c)) (dup c) (upd c) (dtd c).
Definition inc_dup (c : Counters) : Counters :=
  mkCounters (ins c) (S (dup c)) (upd c) (dtd c).
Definition inc_upd (c : Counters) : Counters :=
  mkCounters (ins c) (dup c) (S (upd c)) (dtd c).
Definition inc_dtd (c : Counters) : Counters :=
  mkCounters (ins c) (dup c) (upd c) (S (dtd c)).

Definition when (b : bool) (m : M unit) : M unit := if b then m else ret tt.

(** ** Vocabulary of the statements *)

Definition upsert_folder (f : Folder) (rows : list Folder) : list Folder :=
  filter (fun r => fo_id r ≠ fo_id f) rows ++ [f].

Definition at_rest (s : Session) : Prop :=
  view s = durable s /\ new_folders s = [] /\ new_files s = [] /\
  deleted_folders s = [] /\ deleted_files s = [] /\
  autoflush s = true /\ inactive s = false.

(** The session after a successful flush. *)
Definition flushed_session (s : Session) : Session :=
  {| durable := durable s; view := flushed s;
     new_folders := []; new_files := [];
     deleted_folders := []; deleted_files := [];
     autoflush := autoflush s; inactive := false |}.

(** The session after a flush that violated a primary key. *)
Definition failed_session (s : Session) : Session :=
  {| durable := durable s; view := durable s;
     new_folders := []; new_files := [];
     deleted_folders := []; deleted_files := [];
     autoflush := autoflush s; inactive := true |}.

(** The session after a successful commit. *)
Definition committed_session (s : Session) : Session :=
  {| durable := flushed s; view := flushed s;
     new_folders := []; new_files := [];
     deleted_folders := []; deleted_files := [];
     autoflush := autoflush s; inactive := false |}.

Definition push_deleted_folders (ids : list string) (s : Session) : Session :=
  {| durable := durable s; view := view s;
     new_folders := new_folders s; new_files := new_files s;
     deleted_folders := deleted_folders s ++ ids;
     deleted_files := deleted_files s;
     autoflush := autoflush s; inactive := inactive s |}.

Definition push_deleted_files (ids : list string) (s : Session) : Session :=
  {| durable := durable s; view := view s;
     new_folders := new_folders s; new_files := new_files s;
     deleted_folders := deleted_folders s;
     deleted_files := deleted_files s ++ ids;
     autoflush := autoflush s; inactive := inactive s |}.

Definition map_parentage (g : list (string * string) -> list (string * string))
    (s : Session) : Session :=
  let on t := {| t_folders := t_folders t; t_files := t_files t;
                 t_parentage := g (t_parentage t) |} in
  {| durable := on (durable s); view := on (view s);
     new_folders := new_folders s; new_files := new_files s;
     deleted_folders := deleted_folders s;
     deleted_files := deleted_files s;
     autoflush := autoflush s; inactive := inactive s |}.

Definition add_dtd (n : nat) (c : Counters) : Counters :=
  mkCounters (ins c) (dup c) (upd c) (n + dtd c).

Definition add_dup (n : nat) (c : Counters) : Counters :=
  mkCounters (ins c) (n + dup c) (upd c) (dtd c).

Definition set_new_files (nf : list (File * list string)) (s : Session)
    : Session :=
  {| durable := durable s; view := view s;
     new_folders := new_folders s; new_files := nf;
     deleted_folders := deleted_folders s;
     deleted_files := deleted_files s;
     autoflush := autoflush s; inactive := inactive s |}.

Definition found_file (V : list File) (r : Node) : option File :=
  head (filter (fun x => fi_id x = id r) V).

Definition found_ids (V : list File) (l : list Node) : list string :=
  r ← l; match found_file V r with Some ef => [fi_id ef] | None => [] end.

(** The primary-key check of the flush that follows the file loop. *)
Definition files_fit (T : Tables) (l : list Node) : bool :=
  ids_free
    (ids_folders (t_folders T)
     ++ ids_files (filter (fun r => fi_id r ∉ found_ids (t_files T) l)
                     (t_files T)))
    (id <$> l).

Definition files_after (T : Tables) (l : list Node) (fs : list File)
    : list File :=
  filter (fun r => fi_id r ∉ found_ids (t_files T) l) (t_files T) ++ fs.

(** The number of listed records a call has classified. *)
Definition classified (c : Counters) : nat := (ins c + dup c + upd c)%nat.

(** The lines the file loop prints. *)
Definition parent_line (line : string) : Prop :=
  exists file_name,
    line = "Parent folder of [" +:+ file_name +:+ "] not found.".

Section WithParser.

(** [dateutil.parser.parse] *)
Variable iso_date_parse : string -> datetime.

Definition folder_of (folder : Node) : Folder :=
  mkFolder (id folder) (name folder)
           (iso_date_parse (createdDate folder))
           (iso_date_parse (modifiedDate folder))
           (status folder).

Definition insert_folders_body
    (acc : Counters * list (string * list string)) (folder : Node)
    : M (Counters * list (string * list string)) :=
  let '(c, parents_) := acc in
  let f := folder_of folder in
  ef ← query_folder_first (id folder);
  c' ← match ef with
        | None => session_add_folder f ;; ret (inc_ins c)
        | Some ef =>
            let c' := if Folder_eq f ef then inc_dup c else inc_upd c in
            session_delete_folder ef ;;
            session_add_folder f ;;
            ret c'
        end;
  ret (c', parents_ ++ [(fo_id f, parents folder)]).

Definition prune_folders_body (folders : list Node)
    (c : Counters) (db_folder : Folder) : M Counters :=
  if existsb (fun folder => bool_decide (fo_id db_folder = id folder)) folders
  then ret c
  else session_delete_folder db_folder ;; ret (inc_dtd c).

(** Lines 51-58: without [partial], every stored folder whose id is not in
    the listing is deleted. *)
Definition prune_folders (folders : list Node) (c : Counters) : M Counters :=
  rows ← query_folders;
  for_each rows (prune_folders_body folders) c.

(** Lines 60-64 *)
Definition commit_folders : M unit :=
  try_except session_commit IntegrityError
    (print "Error inserting folders." ;; session_rollback).

(** Lines 66-73 *)
Definition report_folders (c : Counters) : M unit :=
  when (bool_decide (0 < ins c)%nat)
    (print (pretty (ins c) +:+ " folder(s) inserted.")) ;;
  when (bool_decide (0 < upd c)%nat)
    (print (pretty (upd c) +:+ " folder(s) updated.")) ;;
  when (bool_decide (0 < dtd c)%nat)
    (print (pretty (dtd c) +:+ " folder(s) deleted.")).

(** Lines 75-78 *)
Definition link_folders (parents_ : list (string * list string)) : M unit :=
  for_each parents_
    (fun _ rel =>
       for_each rel.2 (fun _ p => conn_execute_insert_parentage p rel.1) tt)
    tt.

Definition insert_folders (folders : list Node) (partial : bool) : M Counters :=
  '(c, parents_) ← for_each folders insert_folders_body (zero, []);
  c ← (if negb partial then prune_folders folders c else ret c);
  commit_folders ;;
  report_folders c ;;
  link_folders parents_ ;;
  ret c.

Definition link_parent_body (f : File) (_ : unit) (p : string) : M unit :=
  p_folder ← query_folder_first p;
  match p_folder with
  | None => print ("Parent folder of [" +:+ fi_name f +:+ "] not found.")
  | Some _ =>
      known ← in_children f p;
      if negb known then
        _ ← query_folder_first p; append_parent p
      else ret tt
  end.

(** Lines 90-95: the row built from a file dictionary; a dictionary
    without [contentProperties] or [name] raises [KeyError]. *)
Definition file_of (file : Node) : option File :=
  match contentProperties file, name file with
  | Some props, Some file_name =>
      Some (mkFile (id file) file_name
                   (iso_date_parse (createdDate file))
                   (iso_date_parse (modifiedDate file))
                   (md5 props) (size props) (status file))
  | _, _ => None
  end.

Definition insert_files_body (c : Counters) (file : Node) : M Counters :=
  match file_of file with
  | None => raise KeyError
  | Some f =>
      ef ← query_file_first (id file);
      c' ← match ef with
            | None => session_add_file f ;; ret (inc_ins c)
            | Some ef =>
                let c' := if File_eq f ef then inc_dup c else inc_upd c in
                session_delete_file ef ;;
                session_add_file f ;;
                ret c'
            end;
      for_each (parents file) (link_parent_body f) tt ;;
      ret c'
  end.

Definition prune_files_body (files : list Node)
    (c : Counters) (db_file : File) : M Counters :=
  let found :=
    foldl (fun found file =>
             if bool_decide (fi_id db_file = id file) then true else found)
          false files in
  if negb found then session_delete_file db_file ;; ret (inc_dtd c)
  else ret c.

(** Lines 116-124 *)
Definition prune_files (files : list Node) (c : Counters) : M Counters :=
  rows ← query_files;
  for_each rows (prune_files_body files) c.

(** Lines 126-130: the handler is for [ValueError]. *)
Definition commit_files : M unit :=
  try_except session_commit ValueError
    (print "Error inserting files." ;; session_rollback).

(** Lines 132-139 *)
Definition report_files (c : Counters) : M unit :=
  when (bool_decide (0 < ins c)%nat)
    (print (pretty (ins c) +:+ " file(s) inserted.")) ;;
  when (bool_decide (0 < upd c)%nat)
    (print (pretty (upd c) +:+ " file(s) updated.")) ;;
  when (bool_decide (0 < dtd c)%nat)
    (print (pretty (dtd c) +:+ " file(s) deleted.")).

Definition insert_files (files : list Node) (partial : bool) : M Counters :=
  c ← no_autoflush (for_each files insert_files_body zero);
  c ← (if negb partial then prune_files files c else ret c);
  commit_files ;;
  report_files c ;;
  ret c.

Definition insert_node (node : Node) : M unit :=
  if bool_decide (kind node = "FILE") then
    insert_files [node] true ;; ret tt
  else if bool_decide (kind node = "FOLDER") then
    insert_folders [node] true ;; ret tt
  else print "Cannot insert unknown node type.".

(** [sync_node_list] of the command line, after the listings are fetched:
    a full reconciliation of folders, then of files. *)
Definition reconcile (folders files : list Node) : M (Counters * Counters) :=
  cf ← insert_folders folders false;
  ci ← insert_files files false;
  ret (cf, ci).

Definition after_folder (r : Node) (s : Session) : Session :=
  let v := flushed s in
  {| durable := durable s; view := v;
     new_folders := [folder_of r]; new_files := [];
     deleted_folders :=
       match head (filter (fun x => fo_id x = id r) (t_folders v)) with
       | Some ef => [fo_id ef]
       | None => []
       end;
     deleted_files := []; autoflush := true; inactive := false |}.

Definition count_folder (r : Node) (s : Session) (c : Counters) : Counters :=
  match head (filter (fun x => fo_id x = id r) (t_folders (flushed s))) with
  | None => inc_ins c
  | Some ef => if Folder_eq (folder_of r) ef then inc_dup c else inc_upd c
  end.

Definition upsert_all (rows : list Folder) (l : list Node) : list Folder :=
  foldl (fun rows r => upsert_folder (folder_of r) rows) rows l.

Definition count_file (V : list File) (c : Counters) (r : Node) : Counters :=
  match file_of r, found_file V r with
  | Some f, Some ef => if File_eq f ef then inc_dup c else inc_upd c
  | _, _ => inc_ins c
  end.

Definition rows_of (l : list Node) (fs : list File) : Prop :=
  Forall2 (fun r f => file_of r = Some f) l fs.

End WithParser.

(** ** Sample data *)

(** A stand-in for the date parser: the decimal digits of the date, read as
    one number. *)
Fixpoint digits (date : string) (acc : Z) : Z :=
  match date with
  | EmptyString => acc
  | String c rest =>
      let d := Z.of_nat (Ascii.nat_of_ascii c) - 48 in
      if (0 <=? d) && (d <=? 9) then digits rest (10 * acc + d)
      else digits rest acc
  end.

Definition sample_parse (date : string) : datetime := digits date 0.

Definition empty_tables : Tables := mkTables [] [] [].

(** The session of a freshly initialised cache. *)
Definition fresh_session : Session :=
  mkSession empty_tables empty_tables [] [] [] [] true false.

Definition docs : Node :=
  mkNode "F1" (Some "docs") "2015-01-01" "2015-01-02" "AVAILABLE" []
         "FOLDER" None.

(** The same folder as listed among the trashed folders. *)
Definition docs_trashed : Node :=
  mkNode "F1" (Some "docs") "2015-01-01" "2015-01-02" "TRASH" []
         "FOLDER" None.

Definition old_folder : Node :=
  mkNode "F0" (Some "old") "2014-01-01" "2014-01-02" "AVAILABLE" []
         "FOLDER" None.

Definition a_txt : Node :=
  mkNode "X1" (Some "a.txt") "2015-01-03" "2015-01-04" "AVAILABLE" ["F1"]
         "FILE" (Some (mkProps "abc" 10)).

Definition b_txt_trashed : Node :=
  mkNode "X2" (Some "b.txt") "2015-01-03" "2015-01-04" "TRASH" ["F1"]
         "FILE" (Some (mkProps "def" 20)).

(** A folder dictionary carrying the id of the file [a_txt]. *)
Definition clash : Node :=
  mkNode "X1" (Some "clash") "2015-01-05" "2015-01-05" "AVAILABLE" ["F0"]
         "FOLDER" None.

(** A cache holding the folders [old_folder] and [docs] and the file
    [a_txt]. *)
Definition stocked_tables : Tables :=
  mkTables [folder_of sample_parse old_folder; folder_of sample_parse docs]
           [mkFile "X1" "a.txt" 20150103 20150104 "abc" 10 "AVAILABLE"]
           [("F1", "X1")].

Definition stocked_session : Session :=
  mkSession stocked_tables stocked_tables [] [] [] [] true false.

(** The same cache before [a_txt] was uploaded. *)
Definition stocked_session_no_file : Session :=
  let t := mkTables (t_folders stocked_tables) [] [] in
  mkSession t t [] [] [] [] true false.

(** The session a computation ends in. *)
Definition session_of {A} (r : Result A) : Session :=
  match r with Ok _ s _ | Raise _ s _ => s end.

End Sync.

(** * acdcli/acd_fuse.py *)
Module Fuse.

(** Byte strings. *)
Definition bytes := list Byte.byte.

(** [len(b)] *)
Definition len (b : bytes) : Z := Z.of_nat (length b).

(** The [errno] codes the module raises. *)
Inductive errno :=
| ENOENT | EFAULT | EEXIST | ENOTDIR | ESPIPE | ENOSYS | ENODATA
| ECOMM | ETIMEDOUT | EREMOTEIO.

#[global] Instance errno_eq_dec : EqDecision errno.
Proof. solve_decision. Defined.

(** Exceptions: [FuseOSError(errno)], and the Python exceptions that the
    module lets escape ([Exception] of a chunk that ended early,
    [StopIteration] of an exhausted response, [AttributeError] of an
    attribute read on [None] or on the wrong kind of node). *)
Inductive exn :=
| FuseOSError (e : errno)
| Exception
| StopIteration
| AttributeError
| IOError.

#[global] Instance exn_eq_dec : EqDecision exn.
Proof. solve_decision. Defined.

(** [acdcli.api.common.RequestError] *)
Record RequestError := mkRequestError { status_code : Z; message : string }.

Definition MAX_CHUNKS_PER_FILE : nat := 15.
Definition WRITE_BUFFER_SZ : nat := 2 ^ 5.

(** Constants imported from modules that are not among the sources. *)
Class Constants := {
  (** [acdcli.api.content.CHUNK_SIZE] *)
  CHUNK_SZ : Z;
  (** [RequestError.CODE.CONN_EXCEPTION] *)
  CONN_EXCEPTION : Z;
  (** [os.O_APPEND] *)
  O_APPEND : Z
}.

(** [requests.codes] *)
Definition CONFLICT : Z := 409.
Definition REQUESTED_RANGE_NOT_SATISFIABLE : Z := 416.

(** [FuseOSError.convert]; it always raises *)
Definition convert `{Constants} (e : RequestError) : exn :=
  if bool_decide (status_code e = CONN_EXCEPTION) then FuseOSError ECOMM
  else if bool_decide (status_code e = CONFLICT) then FuseOSError EEXIST
  else if bool_decide (status_code e = REQUESTED_RANGE_NOT_SATISFIABLE)
       then FuseOSError EFAULT
  else FuseOSError EREMOTEIO.

(** ** Collaborators *)

(** A node of the cache, as [cache.resolve] returns it. *)
Inductive kind := FileKind | FolderKind.

#[global] Instance kind_eq_dec : EqDecision kind.
Proof. solve_decision. Defined.

(** [size] and [md5] are attributes of file nodes; reading an attribute a
    node does not have raises [AttributeError]. *)
Record CNode := mkCNode {
  n_id : string;
  n_kind : kind;
  n_size : option Z;
  n_md5 : option string;
  n_description : option string
}.

Definition is_file (n : CNode) : bool := bool_decide (n_kind n = FileKind).
Definition is_folder (n : CNode) : bool := bool_decide (n_kind n = FolderKind).

(** The metadata requests of the API client. *)
Inductive remote_op :=
| create_folder (name parent : string)
| create_file (name parent : string)
| move_to_trash (id : string)
| rename_node (id name : string)
| move_node (id new_folder : string)
| clear_file (id : string).

(** The body of a ranged download and its [content-length] header. *)
Record Reply := mkReply { content_length : Z; content : bytes }.

(** The API client: every request answers with node metadata or raises
    [RequestError], and may change the client. *)
Class ACDClient (Client : Type) := {
  request : remote_op -> Client -> (RequestError + Sync.Node) * Client;
  response_chunk :
    string -> Z -> Z -> Client -> (RequestError + Reply) * Client
}.

(** The node cache.  [resolve] takes the optional [trash] argument. *)
Class NodeCache (Cache : Type) := {
  resolve : string -> option bool -> Cache -> option CNode;
  insert_node : Sync.Node -> Cache -> Cache
}.

(** ** [os.path] *)

Definition slash : Ascii.ascii := "/"%char.

(** [(p[:i], p[i:])] for [i = p.rfind('/') + 1] *)
Fixpoint split_path (p : string) : string * string :=
  match p with
  | EmptyString => (EmptyString, EmptyString)
  | String c rest =>
      let '(head, tail) := split_path rest in
      match head with
      | EmptyString =>
          if bool_decide (c = slash) then (String c EmptyString, tail)
          else (EmptyString, String c tail)
      | _ => (String c head, tail)
      end
  end.

(** [s.rstrip('/')] *)
Fixpoint rstrip_slash (s : string) : string :=
  match s with
  | EmptyString => EmptyString
  | String c rest =>
      match rstrip_slash rest with
      | EmptyString =>
          if bool_decide (c = slash) then EmptyString
          else String c EmptyString
      | rest' => String c rest'
      end
  end.

(** [os.path.basename] *)
Definition basename (p : string) : string := (split_path p).2.

(** [os.path.dirname]: a head made of slashes only is kept as it is. *)
Definition dirname (p : string) : string :=
  let head := (split_path p).1 in
  match rstrip_slash head with
  | EmptyString => head
  | stripped => stripped
  end.

(** ** ReadProxy *)

(** [StreamChunk]: [c_sid] numbers the response among the streams opened
    by the proxy. *)
Record StreamChunk := mkChunk {
  c_offset : Z;
  c_body : bytes;
  c_sid : nat;
  c_end : Z
}.

Definition has_byte_range (c : StreamChunk) (offset length : Z) : bool :=
  bool_decide (offset = c_offset c)
  && bool_decide (offset + length - 1 <= c_end c).

(** [StreamChunk.get]: [next(self.r.iter_content(length))] hands out the
    next [length] bytes of the body, fewer at its end, and raises
    [StopIteration] when nothing is left. *)
Definition StreamChunk_get (length : Z) (c : StreamChunk)
    : (exn + bytes) * StreamChunk :=
  match take (Z.to_nat length) (c_body c) with
  | [] => (inl StopIteration, c)
  | b =>
      let c' := {| c_offset := c_offset c + len b;
                   c_body := drop (Z.to_nat length) (c_body c);
                   c_sid := c_sid c;
                   c_end := c_end c |} in
      if bool_decide (len b < length) && bool_decide (c_offset c' <= c_end c')
      then (inl Exception, c')
      else (inr b, c')
  end.

(** [ReadFile]: the deque of chunks, oldest first. *)
Record ReadFile := mkReadFile { chunks : list StreamChunk }.

(** [deque.append] with [maxlen=MAX_CHUNKS_PER_FILE] *)
Definition deque_append (c : StreamChunk) (q : list StreamChunk)
    : list StreamChunk :=
  if bool_decide (length q < MAX_CHUNKS_PER_FILE)%nat then q ++ [c]
  else drop 1 q ++ [c].

(** Lines 126-136: the loop over [i = len - 1 .. 0]; [n] is [i + 1]. *)
Fixpoint search_chunks (n : nat) (offset length : Z)
    (q : list StreamChunk) : option bytes * list StreamChunk :=
  match n with
  | O => (None, q)
  | S i =>
      match q !! i with
      | None => (None, q)
      | Some c =>
          if has_byte_range c offset length then
            match StreamChunk_get length c with
            | (inr bytes_, c') => (Some bytes_, <[i:=c']> q)
            | (inl _, _) => search_chunks i offset length (delete i q)
            end
          else search_chunks i offset length q
      end
  end.

(** What [ReadFile.get] needs besides the file: the client, the number of
    streams opened so far, and the streams closed so far. *)
Record Net (Client : Type) := mkNet {
  client : Client;
  opened : nat;
  closed_streams : list nat
}.
Arguments mkNet {Client}.
Arguments client {Client}.
Arguments opened {Client}.
Arguments closed_streams {Client}.

(** ** WriteProxy *)

(** [WriteStream]: the queue of written blocks, oldest first. *)
Record WriteStream := mkWriteStream {
  q : list bytes;
  offset : Z;
  error : bool;
  closed : bool;
  done : bool
}.

(** [WriteStream.__init__] *)
Definition WriteStream_init : WriteStream :=
  mkWriteStream [] 0 false false false.

(** [WriteStream.write].  Calls are taken one at a time: a [put] on a full
    queue finds no uploader freeing a slot and times out; an uploader that
    frees one in time is a [uploader_read] step before the write. *)
Definition WriteStream_write (data : bytes) (f : WriteStream)
    : (exn + unit) * WriteStream :=
  if error f then (inl (FuseOSError EREMOTEIO), f)
  else if bool_decide (length (q f) < WRITE_BUFFER_SZ)%nat then
    (inr tt, {| q := q f ++ [data]; offset := offset f + len data;
                error := error f; closed := closed f; done := done f |})
  else (inl (FuseOSError ETIMEDOUT), f).

(** [WriteStream.read], called by the uploader; [None] when it blocks on
    the empty queue. *)
Definition WriteStream_read (f : WriteStream)
    : option (exn + bytes) * WriteStream :=
  if error f then (Some (inl IOError), f)
  else if closed f && bool_decide (q f = []) then (Some (inr []), f)
  else match q f with
       | [] => (None, f)
       | b => (Some (inr (concat b)),
               {| q := []; offset := offset f; error := error f;
                  closed := closed f; done := done f |})
       end.

(** [WriteStream.flush]; [None] while it has to wait. *)
Definition WriteStream_flush (f : WriteStream) : option (exn + unit) :=
  if error f then Some (inl (FuseOSError EREMOTEIO))
  else if bool_decide (q f = []) then Some (inr tt)
  else None.

(** [WriteStream.close]; [None] while it has to wait for the queue or for
    the uploader. *)
Definition WriteStream_close (f : WriteStream)
    : option (exn + unit) * WriteStream :=
  let f1 := {| q := q f; offset := offset f; error := error f;
               closed := true; done := done f |} in
  if bool_decide (length (q f) < WRITE_BUFFER_SZ)%nat then
    let f2 := {| q := q f ++ [[]]; offset := offset f; error := error f;
                 closed := true; done := done f |} in
    if error f then (Some (inl (FuseOSError EREMOTEIO)), f2)
    else if done f then (Some (inr tt), f2)
    else (None, f2)
  else (None, f1).

(** [WriteProxy]: [files] is a [defaultdict(WriteStream)] keyed by file
    handle; [threads] lists the uploader threads started, with their
    handle and node id. *)
Record WriteProxy := mkWriteProxy {
  files : gmap Z WriteStream;
  threads : list (Z * string)
}.

Definition set_error (f : WriteStream) : WriteStream :=
  {| q := q f; offset := offset f; error := true;
     closed := closed f; done := done f |}.

(** [WriteProxy.write] *)
Definition WriteProxy_write (node_id : string) (fh offset_ : Z)
    (bytes_ : bytes) (wp : WriteProxy) : (exn + unit) * WriteProxy :=
  let f := default WriteStream_init (files wp !! fh) in
  if bool_decide (offset f = offset_) then
    match WriteStream_write bytes_ f with
    | (inl e, f') =>
        (inl e, mkWriteProxy (<[fh := f']> (files wp)) (threads wp))
    | (inr _, f') =>
        (inr tt,
         mkWriteProxy (<[fh := f']> (files wp))
           (if bool_decide (offset_ = 0) then threads wp ++ [(fh, node_id)]
            else threads wp))
    end
  else
    (inl (FuseOSError ESPIPE),
     mkWriteProxy (<[fh := set_error f]> (files wp)) (threads wp)).

(** [WriteProxy.flush] *)
Definition WriteProxy_flush (fh : Z) (wp : WriteProxy) : option (exn + unit) :=
  match files wp !! fh with
  | Some f => WriteStream_flush f
  | None => Some (inr tt)
  end.

(** [WriteProxy.release]: the stream is deleted when [close] returns or
    raises. *)
Definition WriteProxy_release (fh : Z) (wp : WriteProxy)
    : option (exn + unit) * WriteProxy :=
  match files wp !! fh with
  | Some f =>
      match WriteStream_close f with
      | (Some res, _) =>
          (Some res, mkWriteProxy (delete fh (files wp)) (threads wp))
      | (None, f') =>
          (None, mkWriteProxy (<[fh := f']> (files wp)) (threads wp))
      end
  | None => (Some (inr tt), wp)
  end.

(** What the uploader thread of [write_n_sync] does to the stream of a
    handle: it reads the queue, fails, or finishes. *)
Inductive uploader_step := uploader_read | uploader_failed | uploader_done.

Definition uploader_on (step : uploader_step) (f : WriteStream)
    : WriteStream :=
  match step with
  | uploader_read => (WriteStream_read f).2
  | uploader_failed => set_error f
  | uploader_done =>
      {| q := q f; offset := offset f; error := error f;
         closed := closed f; done := true |}
  end.

Definition uploader (step : uploader_step) (fh : Z) (wp : WriteProxy)
    : WriteProxy :=
  match files wp !! fh with
  | None => wp
  | Some f =>
      mkWriteProxy (<[fh := uploader_on step f]> (files wp)) (threads wp)
  end.

(** Calls on one stream, in the order they take effect, and the stream
    after a sequence of them with what each call returned. *)
Inductive stream_event :=
| st_write (data : bytes)
| st_uploader (step : uploader_step).

Definition stream_step (ev : stream_event) (f : WriteStream)
    : option (exn + unit) * WriteStream :=
  match ev with
  | st_write data =>
      let '(res, f') := WriteStream_write data f in (Some res, f')
  | st_uploader step => (None, uploader_on step f)
  end.

Fixpoint stream_run (evs : list stream_event) (f : WriteStream)
    : list (stream_event * option (exn + unit)) * WriteStream :=
  match evs with
  | [] => ([], f)
  | ev :: evs' =>
      let '(res, f1) := stream_step ev f in
      let '(ress, f2) := stream_run evs' f1 in
      ((ev, res) :: ress, f2)
  end.

(** The number of bytes of the writes that returned. *)
Fixpoint buffered (rs : list (stream_event * option (exn + unit))) : Z :=
  match rs with
  | [] => 0
  | (st_write data, Some (inr _)) :: rs' => len data + buffered rs'
  | _ :: rs' => buffered rs'
  end.

(** Calls on the write proxy, in the order they take effect. *)
Inductive wp_event :=
| wp_write (node_id : string) (fh offset_ : Z) (bytes_ : bytes)
| wp_release (fh : Z)
| wp_uploader (step : uploader_step) (fh : Z).

Definition wp_step (ev : wp_event) (wp : WriteProxy)
    : option (exn + unit) * WriteProxy :=
  match ev with
  | wp_write node_id fh offset_ bytes_ =>
      let '(res, wp') := WriteProxy_write node_id fh offset_ bytes_ wp in
      (Some res, wp')
  | wp_release fh => WriteProxy_release fh wp
  | wp_uploader step fh => (None, uploader step fh wp)
  end.

(** The proxy after a sequence of calls, and what each call returned. *)
Fixpoint wp_run (evs : list wp_event) (wp : WriteProxy)
    : list (wp_event * option (exn + unit)) * WriteProxy :=
  match evs with
  | [] => ([], wp)
  | ev :: evs' =>
      let '(res, wp1) := wp_step ev wp in
      let '(ress, wp2) := wp_run evs' wp1 in
      ((ev, res) :: ress, wp2)
  end.

(** [WriteProxy.__init__] *)
Definition WriteProxy_init : WriteProxy := mkWriteProxy ∅ [].

(** The offset the stream of a handle expects next; a handle without a
    stream gets a fresh one. *)
Definition expected_offset (wp : WriteProxy) (fh : Z) : Z :=
  offset (default WriteStream_init (files wp !! fh)).

(** The stream of the handle carries the error flag. *)
Definition errored (wp : WriteProxy) (fh : Z) : Prop :=
  error <$> files wp !! fh = Some true.

(** A write that raised [FuseOSError]. *)
Definition failed (res : option (exn + unit)) : Prop :=
  exists e, res = Some (inl (FuseOSError e)).

(** Uploader steps other than a failure. *)
Definition benign (ev : wp_event) : Prop :=
  match ev with
  | wp_uploader uploader_read _ | wp_uploader uploader_done _ => True
  | _ => False
  end.

(** The bytes the uploader has been handed by [WriteStream.read] over a
    sequence of calls on a stream. *)
Fixpoint uploaded (evs : list stream_event) (f : WriteStream) : bytes :=
  match evs with
  | [] => []
  | ev :: evs' =>
      match ev, (WriteStream_read f).1 with
      | st_uploader uploader_read, Some (inr b) => b
      | _, _ => []
      end ++ uploaded evs' (stream_step ev f).2
  end.

(** The data of the writes that returned, in order. *)
Fixpoint written (rs : list (stream_event * option (exn + unit))) : bytes :=
  match rs with
  | [] => []
  | (st_write data, Some (inr _)) :: rs' => data ++ written rs'
  | _ :: rs' => written rs'
  end.

(** The uploader threads a sequence of calls on the proxy starts: one for
    every write at offset 0 that returned. *)
Fixpoint started (rs : list (wp_event * option (exn + unit)))
    : list (Z * string) :=
  match rs with
  | [] => []
  | (wp_write node_id fh offset_ _, Some (inr _)) :: rs' =>
      (if bool_decide (offset_ = 0) then [(fh, node_id)] else [])
      ++ started rs'
  | _ :: rs' => started rs'
  end.

(** The streams of the chunks a file holds. *)
Definition held (f : ReadFile) : list nat := c_sid <$> chunks f.

(** Bookkeeping of the streams of a read proxy: no stream has been closed
    twice, every stream was opened by the proxy, a stream held by a file
    has not been closed, and no stream is held twice. *)
Definition streams_consistent {Client : Type}
    (st : gmap string ReadFile * Net Client) : Prop :=
  NoDup (closed_streams st.2) /\
  (forall x, x ∈ closed_streams st.2 -> (x < opened st.2)%nat) /\
  (forall id_ f, st.1 !! id_ = Some f ->
     NoDup (held f) /\
     forall x, x ∈ held f ->
               (x < opened st.2)%nat /\ x ∉ closed_streams st.2) /\
  (forall id1 id2 f1 f2 x,
     st.1 !! id1 = Some f1 -> st.1 !! id2 = Some f2 ->
     x ∈ held f1 -> x ∈ held f2 -> id1 = id2).

Section WithCollaborators.

Context `{Constants} {Client Cache : Type}
        `{!ACDClient Client} `{!NodeCache Cache}.

(** [ReadFile.get] *)
Definition ReadFile_get (id_ : string) (offset length total : Z)
    (f : ReadFile) (net : Net Client) : (exn + bytes) * ReadFile * Net Client :=
  match search_chunks (List.length (chunks f)) offset length (chunks f) with
  | (Some bytes_, q) => (inr bytes_, mkReadFile q, net)
  | (None, q) =>
      match response_chunk id_ offset CHUNK_SZ (client net) with
      | (inl e, cl) =>
          (inl (convert e), mkReadFile q,
           mkNet cl (opened net) (closed_streams net))
      | (inr r, cl) =>
          let chunk := {| c_offset := offset;
                          c_body := content r;
                          c_sid := opened net;
                          c_end := offset + content_length r - 1 |} in
          let '(res, chunk') := StreamChunk_get length chunk in
          let q' := deque_append chunk' q in
          (res, mkReadFile q',
           mkNet cl (S (opened net)) (closed_streams net))
      end
  end.

(** [ReadFile.clear] *)
Definition ReadFile_clear (f : ReadFile) (net : Net Client)
    : ReadFile * Net Client :=
  (mkReadFile [],
   mkNet (client net) (opened net)
         (closed_streams net ++ (c_sid <$> chunks f))).

(** [ReadProxy.get]; [files] is a [defaultdict(ReadFile)] *)
Definition ReadProxy_get (id_ : string) (offset length total : Z)
    (rp : gmap string ReadFile) (net : Net Client)
    : (exn + bytes) * gmap string ReadFile * Net Client :=
  let f := default (mkReadFile []) (rp !! id_) in
  let '(res, f', net') := ReadFile_get id_ offset length total f net in
  (res, <[id_ := f']> rp, net').

(** [ReadProxy.release] *)
Definition ReadProxy_release (id_ : string)
    (rp : gmap string ReadFile) (net : Net Client)
    : gmap string ReadFile * Net Client :=
  match rp !! id_ with
  | Some f => let '(f', net') := ReadFile_clear f net in
              (<[id_ := f']> rp, net')
  | None => (rp, net)
  end.

(** ** ACDFuse *)

(** Calls on the collaborators, in the order they are made. *)
Inductive event :=
| EvResolve (path : string) (trash : option bool)
| EvRequest (op : remote_op) (res : RequestError + Sync.Node)
| EvInsertNode (r : Sync.Node).

(** The state of the mounted filesystem: the collaborators, the two
    proxies and the next free file handle. *)
Record FS := mkFS {
  cache : Cache;
  net : Net Client;
  rp : gmap string ReadFile;
  wp : WriteProxy;
  fh : Z
}.

(** [ACDFuse.__init__] *)
Definition FS_init (cache_ : Cache) (client_ : Client) : FS :=
  {| cache := cache_; net := mkNet client_ 0 []; rp := ∅;
     wp := mkWriteProxy ∅ []; fh := 1 |}.

(** An operation returns or raises, changes the filesystem state, and
    leaves the trace of its calls on the cache and on the client. *)
Definition F (A : Type) := FS -> (exn + A) * FS * list event.

Definition ret {A} (a : A) : F A := fun st => (inr a, st, []).

Definition bind {A B} (m : F A) (k : A -> F B) : F B := fun st =>
  match m st with
  | (inr a, st1, tr1) =>
      let '(r, st2, tr2) := k a st1 in (r, st2, tr1 ++ tr2)
  | (inl e, st1, tr1) => (inl e, st1, tr1)
  end.

#[global] Instance F_ret : MRet F := @ret.
#[global] Instance F_bind : MBind F := fun A B k m => bind m k.

Definition raise {A} (e : exn) : F A := fun st => (inl e, st, []).

(** [self.cache.resolve(path, trash)] *)
Definition cache_resolve (path : string) (trash : option bool)
    : F (option CNode) := fun st =>
  (inr (resolve path trash (cache st)), st, [EvResolve path trash]).

(** [self.cache.insert_node(r)] *)
Definition cache_insert_node (r : Sync.Node) : F unit := fun st =>
  (inr tt,
   {| cache := insert_node r (cache st); net := net st; rp := rp st;
      wp := wp st; fh := fh st |},
   [EvInsertNode r]).

(** A metadata request on [self.acd_client]. *)
Definition client_request (op : remote_op) : F (RequestError + Sync.Node) :=
  fun st =>
    let '(res, cl) := request op (client (net st)) in
    (inr res,
     {| cache := cache st;
        net := mkNet cl (opened (net st)) (closed_streams (net st));
        rp := rp st; wp := wp st; fh := fh st |},
     [EvRequest op res]).

(** [try: r = request except RequestError as e: FuseOSError.convert(e)
    else: self.cache.insert_node(r)] *)
Definition request_and_insert (op : remote_op) : F unit :=
  res ← client_request op;
  match res with
  | inl e => raise (convert e)
  | inr r => cache_insert_node r
  end.

(** [XATTRS.vars()] and [FXATTRS.vars()], in no particular order *)
Definition XATTRS_ID : string := "acd.id".
Definition XATTRS_DESCR : string := "acd.description".
Definition FXATTRS_MD5 : string := "acd.md5".
Definition XATTRS_vars : list string := [XATTRS_ID; XATTRS_DESCR].
Definition FXATTRS_vars : list string := [XATTRS_ID; XATTRS_DESCR; FXATTRS_MD5].

(** [bytes(s, encoding='utf-8')] *)
Definition utf8 (s : string) : bytes := String.list_byte_of_string s.

(** [getattr] of an attribute of a possibly missing node *)
Definition attribute {A} (node : option CNode) (field : CNode -> option A)
    : F A :=
  match node with
  | None => raise AttributeError
  | Some n =>
      match field n with
      | None => raise AttributeError
      | Some a => ret a
      end
  end.

(** [ACDFuse.getxattr] *)
Definition getxattr (path name : string) (position : Z) : F bytes :=
  if bool_decide (name ∉ XATTRS_vars) && bool_decide (name ∉ FXATTRS_vars)
  then raise (FuseOSError ENODATA)
  else
    node ← cache_resolve path None;
    if bool_decide (name = XATTRS_ID) then
      i ← attribute node (fun n => Some (n_id n)); ret (utf8 i)
    else if bool_decide (name = XATTRS_DESCR) then
      d ← attribute node (fun n => Some (n_description n));
      ret (utf8 (match d with
                 | Some (String c rest) => String c rest
                 | _ => EmptyString
                 end))
    else if bool_decide (name = FXATTRS_MD5) then
      m ← attribute node n_md5; ret (utf8 m)
    else raise (FuseOSError ENODATA).

(** [self.rp.get(...)] *)
Definition rp_get (id_ : string) (offset_ length total : Z) : F bytes :=
  fun st =>
    let '(res, rp', net') :=
      ReadProxy_get id_ offset_ length total (rp st) (net st) in
    (res, {| cache := cache st; net := net'; rp := rp'; wp := wp st;
             fh := fh st |}, []).

(** [ACDFuse.read] *)
Definition read (path : string) (length offset_ fh_ : Z) : F bytes :=
  node ← cache_resolve path (Some false);
  match node with
  | None => raise (FuseOSError ENOENT)
  | Some n =>
      size ← attribute node n_size;
      if bool_decide (size = 0) || bool_decide (size = offset_) then ret []
      else rp_get (n_id n) offset_ length size
  end.

(** [ACDFuse._trash] *)
Definition _trash (path : string) : F unit :=
  node ← cache_resolve path (Some false);
  match node with
  | None => raise (FuseOSError ENOENT)
  | Some n => request_and_insert (move_to_trash (n_id n))
  end.

Definition rmdir (path : string) : F unit := _trash path.
Definition unlink (path : string) : F unit := _trash path.

(** [self.fh += 1; return self.fh] *)
Definition next_handle : F Z := fun st =>
  (inr (fh st + 1),
   {| cache := cache st; net := net st; rp := rp st; wp := wp st;
      fh := fh st + 1 |}, []).

(** [ACDFuse.create] *)
Definition create (path : string) (mode : Z) : F Z :=
  let name := basename path in
  let ppath := dirname path in
  p ← cache_resolve ppath (Some false);
  match p with
  | None => raise (FuseOSError ENOTDIR)
  | Some p =>
      request_and_insert (create_file name (n_id p)) ;;
      next_handle
  end.

(** [ACDFuse._rename] and [ACDFuse._move] *)
Definition _rename (id_ name : string) : F unit :=
  request_and_insert (rename_node id_ name).
Definition _move (id_ new_folder : string) : F unit :=
  request_and_insert (move_node id_ new_folder).

(** [ACDFuse.rename] *)
Definition rename (old new : string) : F unit :=
  if bool_decide (old = new) then ret tt
  else
    node ← cache_resolve old (Some false);
    match node with
    | None => raise (FuseOSError ENOENT)
    | Some node =>
        let new_bn := basename new in
        let new_dn := dirname new in
        let old_bn := basename old in
        let old_dn := dirname old in
        existing ← cache_resolve new (Some false);
        match existing with
        | Some existing =>
            if is_file existing then _trash new
            else raise (FuseOSError EEXIST)
        | None => ret tt
        end ;;
        (if bool_decide (new_bn ≠ old_bn) then _rename (n_id node) new_bn
         else ret tt) ;;
        (if bool_decide (new_dn ≠ old_dn) then
           ndir ← cache_resolve new_dn (Some false);
           match ndir with
           | None => raise (FuseOSError ENOTDIR)
           | Some ndir => _move (n_id node) (n_id ndir)
           end
         else ret tt)
    end.

(** [ACDFuse.open] *)
Definition open (path : string) (flags : Z) : F Z :=
  if bool_decide (Z.land flags O_APPEND = O_APPEND)
  then raise (FuseOSError EFAULT)
  else next_handle.

(** [self.wp.write(...)] *)
Definition wp_write_ (node_id : string) (fh_ offset_ : Z) (data : bytes)
    : F unit := fun st =>
  let '(res, wp') := WriteProxy_write node_id fh_ offset_ data (wp st) in
  (res, {| cache := cache st; net := net st; rp := rp st; wp := wp';
           fh := fh st |}, []).

(** [ACDFuse.write] *)
Definition write (path : string) (data : bytes) (offset_ fh_ : Z) : F Z :=
  node_id ← (if bool_decide (offset_ = 0) then
               n ← cache_resolve path (Some false);
               attribute n (fun n => Some (n_id n))
             else ret EmptyString);
  wp_write_ node_id fh_ offset_ data ;;
  ret (len data).

(** The calls of the filesystem layer on the operations above, and the
    filesystem after a sequence of them. *)
Inductive call :=
| call_getxattr (path name : string) (position : Z)
| call_read (path : string) (length offset_ fh_ : Z)
| call_rmdir (path : string)
| call_unlink (path : string)
| call_create (path : string) (mode : Z)
| call_rename (old new : string)
| call_open (path : string) (flags : Z)
| call_write (path : string) (data : bytes) (offset_ fh_ : Z).

Inductive value := VNone | VInt (n : Z) | VBytes (b : bytes).

Definition perform (c : call) : F value :=
  match c with
  | call_getxattr path name position =>
      b ← getxattr path name position; ret (VBytes b)
  | call_read path length offset_ fh_ =>
      b ← read path length offset_ fh_; ret (VBytes b)
  | call_rmdir path => rmdir path ;; ret VNone
  | call_unlink path => unlink path ;; ret VNone
  | call_create path mode => h ← create path mode; ret (VInt h)
  | call_rename old new => rename old new ;; ret VNone
  | call_open path flags => h ← open path flags; ret (VInt h)
  | call_write path data offset_ fh_ =>
      n ← write path data offset_ fh_; ret (VInt n)
  end.

Fixpoint perform_all (cs : list call) (st : FS)
    : list (call * (exn + value)) * FS :=
  match cs with
  | [] => ([], st)
  | c :: cs' =>
      let '(res, st1, _) := perform c st in
      let '(ress, st2) := perform_all cs' st1 in
      ((c, res) :: ress, st2)
  end.

(** The file handles handed out by [open] and [create], in order. *)
Fixpoint handles (rs : list (call * (exn + value))) : list Z :=
  match rs with
  | [] => []
  | (call_open _ _, inr (VInt h)) :: rs'
  | (call_create _ _, inr (VInt h)) :: rs' => h :: handles rs'
  | _ :: rs' => handles rs'
  end.

(** Calls on the read proxy, and the proxy after a sequence of them. *)
Inductive rp_event :=
| ev_get (id_ : string) (offset_ length total : Z)
| ev_release (id_ : string).

Definition rp_step (ev : rp_event)
    (st : gmap string ReadFile * Net Client)
    : gmap string ReadFile * Net Client :=
  match ev with
  | ev_get id_ offset_ length total =>
      let '(_, rp', net') :=
        ReadProxy_get id_ offset_ length total st.1 st.2 in (rp', net')
  | ev_release id_ => ReadProxy_release id_ st.1 st.2
  end.

Definition rp_run (evs : list rp_event)
    (st : gmap string ReadFile * Net Client)
    : gmap string ReadFile * Net Client :=
  foldl (fun st ev => rp_step ev st) st evs.

(** [ReadProxy.__init__] *)
Definition ReadProxy_init (client_ : Client)
    : gmap string ReadFile * Net Client :=
  (∅, mkNet client_ 0 []).

(** The metadata requests of a trace, in order. *)
Fixpoint requests (tr : list event) : list remote_op :=
  match tr with
  | [] => []
  | EvRequest op _ :: tr' => op :: requests tr'
  | _ :: tr' => requests tr'
  end.

(** Every request that returned metadata is followed at once by the
    insertion of that metadata into the cache. *)
Fixpoint upserts_follow (tr : list event) : Prop :=
  match tr with
  | [] => True
  | EvRequest _ (inr r) :: tr' =>
      match tr' with
      | EvInsertNode r' :: _ => r' = r /\ upserts_follow tr'
      | _ => False
      end
  | _ :: tr' => upserts_follow tr'
  end.

(** Every node of the proxy holds at most [MAX_CHUNKS_PER_FILE] chunks. *)
Definition bounded (rp : gmap string ReadFile) : Prop :=
  forall id_ f, rp !! id_ = Some f ->
                (length (chunks f) <= MAX_CHUNKS_PER_FILE)%nat.

(** An operation that leaves the handle counter alone. *)
Definition steady {A} (m : F A) : Prop :=
  forall st, fh (m st).1.2 = fh st.

(** An operation that, when it returns, returns the incremented counter,
    and leaves the counter alone when it raises. *)
Definition handing (m : F Z) : Prop :=
  forall st,
    match (m st).1.1 with
    | inr h => h = fh st + 1 /\ fh (m st).1.2 = h
    | inl _ => fh (m st).1.2 = fh st
    end.

(** The requests [rename old new] makes when nothing fails: the file at
    [new] is trashed, the node is renamed when the basenames differ, and
    moved into [target] when the directory names differ. *)
Definition rename_plan (existing : option CNode) (node : CNode)
    (old new target : string) : list remote_op :=
  match existing with
  | Some e => if is_file e then [move_to_trash (n_id e)] else []
  | None => []
  end
  ++ (if bool_decide (basename new ≠ basename old)
      then [rename_node (n_id node) (basename new)] else [])
  ++ (if bool_decide (dirname new ≠ dirname old)
      then [move_node (n_id node) target] else []).

End WithCollaborators.

(** ** The other operations of ACDFuse *)

(** The listing query of the node cache. *)
Class NodeListing (Cache : Type) := {
  childrens_names : string -> Cache -> list string
}.

(** Traces in which the cache is written only by inserting the metadata a
    request has just returned. *)
Inductive paired : list event -> Prop :=
| paired_nil : paired []
| paired_resolve path trash tr :
    paired tr -> paired (EvResolve path trash :: tr)
| paired_failed op e tr :
    paired tr -> paired (EvRequest op (inl e) :: tr)
| paired_inserted op r tr :
    paired tr -> paired (EvRequest op (inr r) :: EvInsertNode r :: tr).

(** The metadata inserted into the cache by a trace, in order. *)
Fixpoint inserted (tr : list event) : list Sync.Node :=
  match tr with
  | [] => []
  | EvInsertNode r :: tr' => r :: inserted tr'
  | _ :: tr' => inserted tr'
  end.

(** Traces that only look paths up. *)
Definition lookups_only (tr : list event) : Prop :=
  Forall (fun ev => match ev with EvResolve _ _ => True | _ => False end) tr.

Section Operations.

Context `{Constants} {Client Cache : Type}
        `{!ACDClient Client} `{!NodeCache Cache} `{!NodeListing Cache}.

#[local] Abbreviation FS := (FS (Client := Client) (Cache := Cache)).
#[local] Abbreviation F := (F (Client := Client) (Cache := Cache)).

(** [ACDFuse.readdir]; [node.type == 'folder'] tests the kind of the
    node. *)
Definition readdir (path : string) (fh_ : Z) : F (list string) :=
  node ← cache_resolve path None;
  match node with
  | None => raise (FuseOSError ENOENT)
  | Some node =>
      if negb (bool_decide (n_kind node = FolderKind))
      then raise (FuseOSError ENOTDIR)
      else fun st =>
             (inr (["."; ".."] ++ childrens_names (n_id node) (cache st)),
              st, [])
  end.

(** [ACDFuse.listxattr]; it returns [None] for a node that is neither a
    file nor a folder. *)
Definition listxattr (path : string) : F (option (list string)) :=
  node ← cache_resolve path None;
  match node with
  | None => raise AttributeError
  | Some node =>
      if is_file node then ret (Some FXATTRS_vars)
      else if is_folder node then ret (Some XATTRS_vars)
      else ret None
  end.

(** [ACDFuse.mkdir] *)
Definition mkdir (path : string) (mode : Z) : F unit :=
  let name := basename path in
  let ppath := dirname path in
  p ← cache_resolve ppath None;
  match p with
  | None => raise (FuseOSError ENOTDIR)
  | Some p => request_and_insert (create_folder name (n_id p))
  end.

(** [ACDFuse.truncate] *)
Definition truncate (path : string) (length : Z) (fh_ : option Z) : F unit :=
  n ← cache_resolve path None;
  if bool_decide (length = 0) then
    i ← attribute n (fun n => Some (n_id n));
    request_and_insert (clear_file i)
  else if bool_decide (0 < length) then
    size ← attribute n n_size;
    if bool_decide (size ≠ length) then raise (FuseOSError ENOSYS)
    else ret tt
  else ret tt.

(** An operation that may have to wait: [None] while it waits. *)
Definition W (A : Type) := FS -> option (exn + A) * FS * list event.

(** [ACDFuse.flush] *)
Definition flush (path : string) (fh_ : Z) : W unit := fun st =>
  (WriteProxy_flush fh_ (wp st), st, []).

(** [ACDFuse.release] *)
Definition release (path : string) (fh_ : Z) : W unit := fun st =>
  match resolve path (Some false) (cache st) with
  | Some node =>
      let '(rp', net') := ReadProxy_release (n_id node) (rp st) (net st) in
      let '(res, wp') := WriteProxy_release fh_ (wp st) in
      (res,
       {| cache := cache st; net := net'; rp := rp'; wp := wp';
          fh := fh st |},
       [EvResolve path (Some false)])
  | None => (Some (inr tt), st, [EvResolve path (Some false)])
  end.

(** [ACDFuse.utimens], [ACDFuse.chmod] and [ACDFuse.chown] *)
Definition utimens (path : string) (times : option (Z * Z)) : F unit := ret tt.
Definition chmod (path : string) (mode : Z) : F unit := ret tt.
Definition chown (path : string) (uid gid : Z) : F unit := ret tt.

(** An operation whose trace is [paired], and which leaves in the cache
    what the insertions of its trace put there. *)
Definition coherent {A} (m : F A) : Prop :=
  forall st,
    paired (m st).2 /\
    cache (m st).1.2
    = foldl (fun c r => insert_node r c) (cache st) (inserted (m st).2).

End Operations.

(** ** Sample collaborators *)

#[local] Instance sample_constants : Constants :=
  {| CHUNK_SZ := 8192; CONN_EXCEPTION := 1000; O_APPEND := 1024 |}.

(** A client without state: every metadata request returns a node
    dictionary, every download a chunk of zero bytes of the length asked
    for. *)
Definition sample_node (id_ name_ : string) : Sync.Node :=
  Sync.mkNode id_ (Some name_) "2015-01-01" "2015-01-01" "AVAILABLE" []
              "FILE" (Some (Sync.mkProps "" 0)).

#[local] Instance sample_client : ACDClient unit :=
  {| request op cl :=
       (inr (match op with
             | create_folder name_ _ | create_file name_ _ =>
                 sample_node name_ name_
             | move_to_trash id_ | clear_file id_ => sample_node id_ id_
             | rename_node id_ name_ => sample_node id_ name_
             | move_node id_ _ => sample_node id_ id_
             end), cl);
     response_chunk id_ offset_ length cl :=
       (inr (mkReply length (replicate (Z.to_nat length) Byte.x00)), cl) |}.

(** A cache that is a list of paths with their nodes. *)
#[local] Instance sample_cache : NodeCache (list (string * CNode)) :=
  {| resolve path trash c :=
       (fun e => e.2.2) <$> list_find (fun e => e.1 = path) c;
     insert_node r c := c |}.

Definition sample_file : CNode :=
  mkCNode "X1" FileKind (Some 10) (Some "abc") None.
Definition sample_folder : CNode :=
  mkCNode "F1" FolderKind None None None.
Definition sample_root : CNode :=
  mkCNode "R" FolderKind None None None.

Definition sample_tree : list (string * CNode) :=
  [("/", sample_root); ("/docs", sample_folder); ("/docs/a.txt", sample_file)].

(** The filesystem mounted on the sample tree. *)
Definition sample_fs : FS (Client := unit) (Cache := list (string * CNode)) :=
  FS_init sample_tree tt.

(** Sixteen reads of one node at offsets that do not follow one another. *)
Definition scattered_reads : list rp_event :=
  (fun i => ev_get "X1" (Z.of_nat i * 10000) 4096 1000000) <$> seq 0 16.

(** The children of a node of the sample tree: the entries whose parent
    path resolves to the node. *)
#[local] Instance sample_listing : NodeListing (list (string * CNode)) :=
  {| childrens_names id_ c :=
       (fun e : string * CNode => basename e.1)
       <$> filter (fun e : string * CNode =>
                     e.1 ≠ "/" /\
                     n_id <$> resolve (dirname e.1) None c = Some id_)
                  c |}.

(** A client that answers its first request and fails every later one;
    its state counts the requests. *)
#[local] Instance flaky_client : ACDClient nat :=
  {| request op n :=
       (match n with
        | O => inr (sample_node "X2" "b.txt")
        | S _ => inl (mkRequestError 500 "Internal Server Error")
        end, S n);
     response_chunk id_ offset_ length n :=
       (inl (mkRequestError 500 "Internal Server Error"), S n) |}.

(** The sample tree with a second file in the folder. *)
Definition crowded_tree : list (string * CNode) :=
  sample_tree
  ++ [("/docs/b.txt", mkCNode "X2" FileKind (Some 20) (Some "def") None)].

End Fuse.

(** * acd_cli.py: callers of the sync engine *)
Module Cli.
Import Sync.

Definition INVALID_ARG_RETVAL : Z := 2.

(** What the four listing requests of [acd.metadata] answer: a list of
    node dictionaries, or [None] for a raised [RequestError]. *)
Record Listings := mkListings {
  get_folder_list : option (list Node);
  get_trashed_folders : option (list Node);
  get_file_list : option (list Node);
  get_trashed_files : option (list Node)
}.

(** [os.path.split] *)
Definition os_path_split (p : string) : string * string :=
  (Fuse.dirname p, Fuse.basename p).

(** The double quote of the messages. *)
Definition quote : string := String "034"%char EmptyString.

Section WithCollaborators.

(** [dateutil.parser.parse] *)
Variable iso_date_parse : string -> datetime.

(** [query.resolve_path]: the id of the node at a path, if any *)
Variable resolve_path : string -> option string.

(** [content.create_folder]: the new node, or a raised [RequestError] *)
Variable create_folder : string -> string -> Fuse.RequestError + Node.

(** [sync_node_list] *)
Definition sync_node_list (metadata : Listings) : M unit :=
  match get_folder_list metadata, get_trashed_folders metadata,
        get_file_list metadata, get_trashed_files metadata with
  | Some folders, Some trashed_folders, Some files, Some trashed_files =>
      insert_folders iso_date_parse (folders ++ trashed_folders) false ;;
      insert_files iso_date_parse (files ++ trashed_files) false ;;
      ret tt
  | _, _, _, _ => print "Sync failed."
  end.

(** [create_action]; the result is the code of [sys.exit], if it is
    called. *)
Definition create_action (new_folder : string) : M (option Z) :=
  let '(parent, folder) := os_path_split new_folder in
  let '(parent, folder) :=
    match folder with
    | EmptyString => os_path_split parent
    | _ => (parent, folder)
    end in
  match resolve_path parent with
  | None | Some EmptyString =>
      print "Invalid parent path." ;; ret (Some INVALID_ARG_RETVAL)
  | Some p_path =>
      match create_folder folder p_path with
      | inr r => insert_folders iso_date_parse [r] true ;; ret None
      | inl e =>
          (if bool_decide (Fuse.status_code e = 409)
           then print ("Folder " +:+ quote +:+ folder +:+ quote
                       +:+ " already exists.")
           else print ("Error creating folder " +:+ quote +:+ folder
                       +:+ quote +:+ ".")) ;;
          ret None
      end
  end.

End WithCollaborators.

End Cli.

(** * Facts about the sync engine *)
Module SyncFacts.
Import Sync.

Lemma bind_run {A B} (m : M A) (k : A -> M B) s :
  (m ≫= k) s =
  match m s with
  | Ok a s1 out1 =>
      match k a s1 with
      | Ok b s2 out2 => Ok b s2 (out1 ++ out2)
      | Raise e s2 out2 => Raise e s2 (out1 ++ out2)
      end
  | Raise e s1 out1 => Raise e s1 out1
  end.
Proof. reflexivity. Qed.

Lemma bind_Ok_inv {A B} (m : M A) (k : A -> M B) s b s2 out :
  (m ≫= k) s = Ok b s2 out ->
  exists a s1 o1 o2, m s = Ok a s1 o1 /\ k a s1 = Ok b s2 o2 /\ out = o1 ++ o2.
Proof.
  rewrite bind_run. destruct (m s) as [a s1 o1|]; [|discriminate].
  destruct (k a s1) as [b' s2' o2|] eqn:Hk; [|discriminate].
  intros [= -> -> <-]. eauto 10.
Qed.

Lemma filter_not_in_nil {A} (g : A -> string) (l : list A) :
  filter (fun r => g r ∉ @nil string) l = l.
Proof.
  induction l as [|x l IH]; [done|].
  rewrite filter_cons_True; [by rewrite IH|]. apply not_elem_of_nil.
Qed.

Lemma filter_all {A} (P : A -> Prop) `{!forall x, Decision (P x)} (l : list A) :
  (forall x, x ∈ l -> P x) -> filter P l = l.
Proof.
  induction l as [|x l IH]; intros Hall; [done|].
  rewrite filter_cons_True by (apply Hall; left).
  f_equal. apply IH. intros y Hy. apply Hall. by right.
Qed.

Lemma filter_none {A} (P : A -> Prop) `{!forall x, Decision (P x)}
    (l : list A) :
  (forall x, x ∈ l -> ~ P x) -> filter P l = [].
Proof.
  induction l as [|x l IH]; intros Hall; [done|].
  rewrite filter_cons_False by (apply Hall; left).
  apply IH. intros y Hy. apply Hall. by right.
Qed.

Lemma flushed_rest s :
  new_folders s = [] -> new_files s = [] ->
  deleted_folders s = [] -> deleted_files s = [] ->
  flushed s = view s.
Proof.
  intros H1 H2 H3 H4. unfold flushed. rewrite H1, H2, H3, H4. cbn.
  rewrite !filter_not_in_nil, !app_nil_r. by destruct (view s).
Qed.

Lemma flush_ok_no_new s :
  new_folders s = [] -> new_files s = [] -> flush_ok s = true.
Proof. intros H1 H2. unfold flush_ok. by rewrite H1, H2. Qed.

Lemma filter_ext_in {A} (P Q : A -> Prop) `{!forall x, Decision (P x)}
    `{!forall x, Decision (Q x)} (l : list A) :
  (forall x, x ∈ l -> P x <-> Q x) -> filter P l = filter Q l.
Proof.
  induction l as [|x l IH]; intros Hall; [done|].
  rewrite !filter_cons.
  assert (P x <-> Q x) as Hx by (apply Hall; left).
  rewrite IH by (intros y Hy; apply Hall; by right).
  destruct (decide (P x)), (decide (Q x)); tauto.
Qed.

Lemma query_folders_run s :
  autoflush s = true -> inactive s = false ->
  query_folders s =
  if flush_ok s then Ok (t_folders (flushed s)) (flushed_session s) []
  else Raise IntegrityError (failed_session s) [].
Proof.
  intros Ha Hi.
  cbv [query_folders before_query session_flush mbind M_bind bind get ret].
  rewrite Hi, Ha. cbv beta iota. rewrite Hi. by destruct (flush_ok s).
Qed.

Lemma query_files_run s :
  autoflush s = true -> inactive s = false ->
  query_files s =
  if flush_ok s then Ok (t_files (flushed s)) (flushed_session s) []
  else Raise IntegrityError (failed_session s) [].
Proof.
  intros Ha Hi.
  cbv [query_files before_query session_flush mbind M_bind bind get ret].
  rewrite Hi, Ha. cbv beta iota. rewrite Hi. by destruct (flush_ok s).
Qed.

Lemma session_commit_run s :
  inactive s = false ->
  session_commit s =
  if flush_ok s then Ok tt (committed_session s) []
  else Raise IntegrityError (failed_session s) [].
Proof.
  intros Hi.
  cbv [session_commit session_flush mbind M_bind bind get put].
  rewrite Hi. by destruct (flush_ok s).
Qed.

Lemma commit_folders_run s :
  inactive s = false ->
  commit_folders s =
  if flush_ok s then Ok tt (committed_session s) []
  else Ok tt {| durable := durable s; view := durable s;
                new_folders := []; new_files := [];
                deleted_folders := []; deleted_files := [];
                autoflush := autoflush s; inactive := false |}
          ["Error inserting folders."].
Proof.
  intros Hi. unfold commit_folders, try_except.
  rewrite session_commit_run by done. by destruct (flush_ok s).
Qed.

Lemma commit_files_run s :
  inactive s = false ->
  commit_files s =
  if flush_ok s then Ok tt (committed_session s) []
  else Raise IntegrityError (failed_session s) [].
Proof.
  intros Hi. unfold commit_files, try_except.
  rewrite session_commit_run by done. by destruct (flush_ok s).
Qed.

Lemma report_folders_run c s : exists out, report_folders c s = Ok tt s out.
Proof.
  unfold report_folders, when.
  cbv [mbind M_bind bind print ret].
  repeat case_bool_decide; eauto.
Qed.

Lemma report_files_run c s : exists out, report_files c s = Ok tt s out.
Proof.
  unfold report_files, when.
  cbv [mbind M_bind bind print ret].
  repeat case_bool_decide; eauto.
Qed.

Lemma report_folders_quiet c s :
  ins c = 0%nat -> upd c = 0%nat -> dtd c = 0%nat ->
  report_folders c s = Ok tt s [].
Proof. intros H1 H2 H3. unfold report_folders. by rewrite H1, H2, H3. Qed.

Lemma report_files_quiet c s :
  ins c = 0%nat -> upd c = 0%nat -> dtd c = 0%nat ->
  report_files c s = Ok tt s [].
Proof. intros H1 H2 H3. unfold report_files. by rewrite H1, H2, H3. Qed.

Lemma map_parentage_id s : map_parentage (fun es => es) s = s.
Proof. by destruct s as [[] [] ? ? ? ? ?]. Qed.

Lemma link_one_run c : forall ps s,
  exists g, for_each ps (fun _ p => conn_execute_insert_parentage p c) tt s
            = Ok tt (map_parentage g s) [].
Proof.
  induction ps as [|p ps IH]; intros s.
  - exists (fun es => es). by rewrite map_parentage_id.
  - cbn [for_each]. rewrite bind_run.
    change (conn_execute_insert_parentage p c s)
      with (Ok tt (map_parentage (insert_or_ignore (p, c)) s) []).
    destruct (IH (map_parentage (insert_or_ignore (p, c)) s)) as [g ->].
    by exists (fun es => g (insert_or_ignore (p, c) es)).
Qed.

Lemma link_folders_run : forall rels s,
  exists g, link_folders rels s = Ok tt (map_parentage g s) [].
Proof.
  unfold link_folders.
  induction rels as [|rel rels IH]; intros s.
  - exists (fun es => es). by rewrite map_parentage_id.
  - cbn [for_each]. rewrite bind_run.
    destruct (link_one_run rel.1 rel.2 s) as [g1 ->].
    destruct (IH (map_parentage g1 s)) as [g ->].
    by exists (fun es => g (g1 es)).
Qed.

Lemma listed_folder (folders : list Node) (r : Folder) :
  existsb (fun folder => bool_decide (fo_id r = id folder)) folders = true
  <-> fo_id r ∈ id <$> folders.
Proof.
  rewrite existsb_exists, list_elem_of_fmap.
  split.
  - intros (x & Hx & Hd). apply bool_decide_eq_true in Hd.
    exists x. split; [done|]. by apply list_elem_of_In.
  - intros (x & Hd & Hx). exists x.
    split; [by apply list_elem_of_In|]. by apply bool_decide_eq_true.
Qed.

Lemma prune_folders_loop (folders : list Node) (rows : list Folder) :
  forall c s,
  for_each rows (prune_folders_body folders) c s
  = Ok (add_dtd (length (filter (fun r => fo_id r ∉ id <$> folders) rows)) c)
       (push_deleted_folders
          (fo_id <$> filter (fun r => fo_id r ∉ id <$> folders) rows) s) [].
Proof.
  induction rows as [|r rows IH]; intros c s.
  - destruct c, s. cbn. unfold push_deleted_folders. cbn.
    by rewrite app_nil_r.
  - cbn [for_each]. rewrite bind_run. unfold prune_folders_body at 1.
    rewrite filter_cons.
    destruct (existsb _ folders) eqn:He.
    + apply listed_folder in He.
      destruct (decide (fo_id r ∉ id <$> folders)); [done|].
      cbn. by rewrite IH.
    + destruct (decide (fo_id r ∉ id <$> folders)) as [Hn|Hn].
      2:{ apply dec_stable, listed_folder in Hn. congruence. }
      cbv [mbind M_bind bind session_delete_folder ret]. rewrite IH.
      cbn. f_equal.
      * unfold add_dtd, inc_dtd. cbn. f_equal. lia.
      * unfold push_deleted_folders. cbn. by rewrite <- app_assoc.
Qed.

Lemma ids_free_spec new : forall used,
  ids_free used new = true <-> NoDup new /\ forall i, i ∈ new -> i ∉ used.
Proof.
  induction new as [|i new IH]; intros used; cbn [ids_free].
  - split; [intros _|done]. split; [constructor|]. intros i Hi.
    by apply elem_of_nil in Hi.
  - rewrite andb_true_iff, bool_decide_eq_true, IH, NoDup_cons. split.
    + intros (Hi & Hnd & Hall). split; [split; [|done]|].
      * intros Hin. apply (Hall i Hin). left.
      * intros j Hj. apply elem_of_cons in Hj as [->|Hj]; [done|].
        intros Hu. apply (Hall j Hj). by right.
    + intros ((Hi & Hnd) & Hall). split; [apply Hall; left|].
      split; [done|]. intros j Hj Hu.
      apply elem_of_cons in Hu as [->|Hu]; [done|].
      apply (Hall j); [by right|done].
Qed.

Lemma query_folder_first_quiet p s :
  autoflush s = false -> inactive s = false ->
  query_folder_first p s
  = Ok (head (filter (fun r => fo_id r = p) (t_folders (view s)))) s [].
Proof.
  intros Ha Hi.
  cbv [query_folder_first before_query mbind M_bind bind get ret raise].
  by rewrite Hi, Ha.
Qed.

Lemma link_parents_run f f0 init : forall ps s ps0,
  autoflush s = false -> inactive s = false ->
  new_files s = init ++ [(f0, ps0)] ->
  exists ps' out,
    for_each ps (link_parent_body f) tt s
    = Ok tt (set_new_files (init ++ [(f0, ps')]) s) out.
Proof.
  induction ps as [|p ps IH]; intros s ps0 Ha Hi Hnew.
  - exists ps0, []. rewrite <- Hnew. by destruct s.
  - cbn [for_each]. rewrite bind_run. unfold link_parent_body at 1.
    rewrite bind_run, query_folder_first_quiet by done.
    destruct (head _) as [pf|].
    + cbv beta iota. rewrite bind_run.
      assert (in_children f p s
              = Ok (existsb
                      (fun c => bool_decide ((p, fi_id c) ∈ t_parentage (view s))
                                && File_eq f c) (t_files (view s))) s []) as ->.
      { cbv [in_children before_query mbind M_bind bind get ret raise].
        by rewrite Hi, Ha. }
      cbv beta iota. destruct (existsb _ _).
      * cbn [negb]. change (ret tt s) with (Ok tt s (@nil string)).
        cbv beta iota. destruct (IH s ps0 Ha Hi Hnew) as (ps' & out & ->).
        by exists ps', out.
      * cbn [negb]. rewrite bind_run, query_folder_first_quiet by done.
        cbv beta iota. unfold append_parent. rewrite Hnew, reverse_snoc.
        rewrite reverse_involutive.
        match goal with |- context [for_each ps _ tt ?st] =>
          destruct (IH st (ps0 ++ [p])) as (ps' & out & ->);
            [done|done|done|] end.
        exists ps', out. done.
    + change (print ("Parent folder of [" +:+ fi_name f +:+ "] not found.") s)
        with (Ok tt s ["Parent folder of [" +:+ fi_name f +:+ "] not found."]).
      cbv beta iota. destruct (IH s ps0 Ha Hi Hnew) as (ps' & out & ->).
      by eexists ps', _.
Qed.

Section WithParser.

Variable parse : string -> datetime.

Lemma insert_folders_body_run c ps r s :
  autoflush s = true -> inactive s = false ->
  insert_folders_body parse (c, ps) r s =
  if flush_ok s
  then Ok (count_folder parse r s c, ps ++ [(id r, parents r)])
          (after_folder parse r s) []
  else Raise IntegrityError (failed_session s) [].
Proof.
  intros Ha Hi. unfold count_folder, after_folder, failed_session.
  cbv [insert_folders_body query_folder_first before_query session_flush
       mbind M_bind bind get ret mret M_ret session_add_folder
       session_delete_folder raise].
  rewrite Hi, Ha. cbv beta iota. rewrite Hi, ?Ha.
  destruct (flush_ok s) eqn:Hok; [|reflexivity].
  cbn [view inactive autoflush].
  destruct (head _) as [ef|]; cbn; rewrite ?Ha; reflexivity.
Qed.

Lemma after_folder_folders r s :
  t_folders (flushed (after_folder parse r s))
  = upsert_folder (folder_of parse r) (t_folders (flushed s)).
Proof.
  unfold after_folder, upsert_folder. cbn. f_equal.
  destruct (head _) as [ef|] eqn:Hh.
  - apply head_Some_elem_of, list_elem_of_filter in Hh as [Hid _].
    apply list_filter_iff. intros x. rewrite Hid.
    split; [intros H1 H2; apply H1; rewrite H2; left
           | intros H1 H2; by apply list_elem_of_singleton in H2].
  - apply head_None in Hh. rewrite filter_not_in_nil.
    symmetry. apply filter_all. intros x Hx Hid.
    exact (filter_nil_not_elem_of _ _ x Hh Hid Hx).
Qed.

Lemma after_folder_files r s :
  t_files (flushed (after_folder parse r s)) = t_files (flushed s).
Proof. cbn. by rewrite filter_not_in_nil, app_nil_r. Qed.

Lemma folders_loop l : forall acc s acc' s' out,
  autoflush s = true -> inactive s = false ->
  for_each l (insert_folders_body parse) acc s = Ok acc' s' out ->
  autoflush s' = true /\ inactive s' = false /\ durable s' = durable s /\
  t_folders (flushed s')
  = foldl (fun rows r => upsert_folder (folder_of parse r) rows)
          (t_folders (flushed s)) l /\
  t_files (flushed s') = t_files (flushed s) /\
  out = [].
Proof.
  induction l as [|r l IH]; intros [c ps] s acc' s' out Ha Hi H.
  - cbv in H. injection H as <- <- <-. done.
  - cbn [for_each] in H.
    apply bind_Ok_inv in H as (a & s1 & o1 & o2 & Hb & Hl & ->).
    rewrite insert_folders_body_run in Hb by done.
    destruct (flush_ok s); [|discriminate]. injection Hb as <- <- <-.
    apply IH in Hl as (? & ? & ? & Hf & Hfi & ->); [|done..].
    rewrite Hf, Hfi, after_folder_folders, after_folder_files. done.
Qed.

Lemma kept_rows (L : list string) (rows : list Folder) :
  filter (fun r => fo_id r ∉
            fo_id <$> filter (fun r => fo_id r ∉ L) rows) rows
  = filter (fun r => fo_id r ∈ L) rows.
Proof.
  apply filter_ext_in. intros x Hx. split.
  - intros Hn. destruct (decide (fo_id x ∈ L)) as [|Hni]; [done|].
    exfalso. apply Hn. apply list_elem_of_fmap_2.
    by apply list_elem_of_filter.
  - intros Hi Hg. apply list_elem_of_fmap in Hg as (y & Hy & Hin).
    apply list_elem_of_filter in Hin as [Hny _]. rewrite Hy in Hi. done.
Qed.

Lemma at_rest_map_parentage g s : at_rest s -> at_rest (map_parentage g s).
Proof.
  intros (Hv & ? & ? & ? & ? & ? & ?). unfold at_rest. cbn. by rewrite Hv.
Qed.

Lemma insert_folders_full l s c s' out :
  autoflush s = true -> inactive s = false ->
  insert_folders parse l false s = Ok c s' out ->
  t_folders (durable s')
  = filter (fun r => fo_id r ∈ id <$> l)
           (upsert_all parse (t_folders (flushed s)) l)
  /\ t_files (durable s') = t_files (flushed s) /\ at_rest s'.
Proof.
  intros Ha Hi H. unfold insert_folders in H.
  apply bind_Ok_inv in H as ([c1 ps] & s1 & o1 & o2 & Hloop & H & ->).
  apply folders_loop in Hloop as (Ha1 & Hi1 & Hd1 & Hf1 & Hfi1 & ->);
    [|done..].
  apply bind_Ok_inv in H as (c2 & s2 & o2' & o3 & Hprune & H & ->).
  cbn [negb] in Hprune. unfold prune_folders in Hprune.
  apply bind_Ok_inv in Hprune as (rows & sq & oq & op & Hq & Hp & ->).
  rewrite query_folders_run in Hq by done.
  destruct (flush_ok s1); [|discriminate]. injection Hq as <- <- <-.
  rewrite prune_folders_loop in Hp. injection Hp as <- <- <-.
  apply bind_Ok_inv in H as ([] & s3 & o3' & o4 & Hc & H & ->).
  rewrite commit_folders_run in Hc by done.
  rewrite flush_ok_no_new in Hc by done. injection Hc as <- <-.
  apply bind_Ok_inv in H as ([] & s4 & o4' & o5 & Hr & H & ->).
  match type of Hr with report_folders ?c ?st = _ =>
    destruct (report_folders_run c st) as [orep Hrep] end.
  rewrite Hrep in Hr. injection Hr as <- <-.
  apply bind_Ok_inv in H as ([] & s5 & o5' & o6 & Hl & H & ->).
  match type of Hl with link_folders ?ps ?st = _ =>
    destruct (link_folders_run ps st) as [g Hg] end.
  rewrite Hg in Hl. injection Hl as <- <-.
  cbv [ret] in H. injection H as <- <- <-.
  split; [|split].
  - unfold upsert_all. rewrite <- Hf1. cbn.
    by rewrite app_nil_r, kept_rows.
  - rewrite <- Hfi1. cbn. by rewrite app_nil_r, filter_not_in_nil.
  - apply at_rest_map_parentage. unfold at_rest. cbn. done.
Qed.

Lemma upsert_folder_ids f rows i :
  i ∈ fo_id <$> upsert_folder f rows <-> i ∈ fo_id <$> rows \/ i = fo_id f.
Proof.
  unfold upsert_folder. rewrite fmap_app, elem_of_app, !list_elem_of_fmap.
  split.
  - intros [(x & -> & Hx)|(x & -> & Hx)].
    + apply list_elem_of_filter in Hx as [_ Hx]. left. eauto.
    + apply list_elem_of_singleton in Hx as ->. by right.
  - intros [(x & -> & Hx)| ->].
    + destruct (decide (fo_id x = fo_id f)) as [He|Hne].
      * right. exists f. split; [done|]. by apply list_elem_of_singleton.
      * left. exists x. split; [done|]. by apply list_elem_of_filter.
    + right. exists f. split; [done|]. by apply list_elem_of_singleton.
Qed.

Lemma upsert_all_ids l : forall rows i,
  i ∈ fo_id <$> upsert_all parse rows l
  <-> i ∈ fo_id <$> rows \/ i ∈ id <$> l.
Proof.
  unfold upsert_all.
  induction l as [|r l IH]; intros rows i; cbn [foldl].
  - rewrite fmap_nil, elem_of_nil. tauto.
  - rewrite IH, upsert_folder_ids, fmap_cons, elem_of_cons. cbn. tauto.
Qed.

Lemma upsert_all_NoDup l : forall rows,
  NoDup (id <$> l) ->
  upsert_all parse rows l
  = filter (fun r => fo_id r ∉ id <$> l) rows ++ (folder_of parse <$> l).
Proof.
  unfold upsert_all.
  induction l as [|r l IH]; intros rows Hnd; cbn [foldl].
  - rewrite fmap_nil, app_nil_r. symmetry. apply filter_all.
    intros x _. apply not_elem_of_nil.
  - rewrite fmap_cons in Hnd. apply NoDup_cons in Hnd as [Hr Hnd].
    rewrite IH by done. unfold upsert_folder.
    rewrite filter_app, list_filter_filter.
    rewrite (filter_all _ [folder_of parse r]).
    2:{ intros x Hx. apply list_elem_of_singleton in Hx as ->. done. }
    rewrite !fmap_cons, <- app_assoc. cbn [app]. f_equal.
    apply list_filter_iff. intros x. cbn. rewrite not_elem_of_cons. tauto.
Qed.

Lemma listed_rows_NoDup l rows :
  NoDup (id <$> l) ->
  filter (fun r => fo_id r ∈ id <$> l) (upsert_all parse rows l)
  = folder_of parse <$> l.
Proof.
  intros Hnd. rewrite upsert_all_NoDup by done.
  rewrite filter_app, list_filter_filter.
  rewrite filter_none by (intros x _ [? ?]; done).
  cbn [app]. apply filter_all. intros x Hx.
  apply list_elem_of_fmap in Hx as (r & -> & Hr).
  cbn. by apply list_elem_of_fmap_2.
Qed.

Lemma folders_loop_again l : forall pre c ps s,
  autoflush s = true -> inactive s = false -> flush_ok s = true ->
  t_folders (flushed s) = folder_of parse <$> (l ++ pre) ->
  NoDup (id <$> (l ++ pre)) ->
  (forall i, i ∈ id <$> (l ++ pre) -> i ∉ fi_id <$> t_files (flushed s)) ->
  exists s' ps',
    for_each l (insert_folders_body parse) (c, ps) s
    = Ok (add_dup (length l) c, ps') s' [] /\
    autoflush s' = true /\ inactive s' = false /\ flush_ok s' = true /\
    durable s' = durable s /\
    t_folders (flushed s') = folder_of parse <$> (pre ++ l) /\
    t_files (flushed s') = t_files (flushed s).
Proof.
  induction l as [|r l IH]; intros pre c ps s Ha Hina Hok Hrows Hnd Hdisj.
  - exists s, ps. rewrite app_nil_r. cbn in Hrows. destruct c. done.
  - cbn [for_each]. rewrite bind_run, insert_folders_body_run, Hok by done.
    assert (head (filter (fun x => fo_id x = id r) (t_folders (flushed s)))
            = Some (folder_of parse r)) as Hhead.
    { rewrite Hrows. cbn [app fmap list_fmap]. by rewrite filter_cons_True. }
    assert (filter (fun x => fo_id x ≠ id r) (folder_of parse <$> (l ++ pre))
            = folder_of parse <$> (l ++ pre)) as Hrest.
    { apply filter_all. intros x Hx Hid.
      apply list_elem_of_fmap in Hx as (y & -> & Hy). cbn in Hid.
      cbn [app] in Hnd. rewrite fmap_cons in Hnd.
      apply NoDup_cons in Hnd as [Hn _]. apply Hn. rewrite <- Hid.
      by apply list_elem_of_fmap_2. }
    assert (t_folders (flushed (after_folder parse r s))
            = folder_of parse <$> (l ++ (pre ++ [r]))) as Hrows'.
    { rewrite after_folder_folders. unfold upsert_folder. rewrite Hrows.
      cbn [app fmap list_fmap]. rewrite filter_cons_False by (cbn; tauto).
      cbn [fo_id folder_of]. rewrite Hrest.
      by rewrite !fmap_app, <- app_assoc. }
    destruct (IH (pre ++ [r]) (count_folder parse r s c)
                (ps ++ [(id r, parents r)]) (after_folder parse r s))
      as (s' & ps' & Hrun & Ha' & Hina' & Hok' & Hd' & Hf' & Hfi'); try done.
    + unfold flush_ok, after_folder. cbn [view new_folders new_files
        deleted_folders deleted_files]. rewrite Hhead. cbn [fo_id folder_of].
      apply ids_free_spec. split.
      * cbn. apply NoDup_singleton.
      * intros i Hi. cbn in Hi. apply list_elem_of_singleton in Hi as ->.
        rewrite not_elem_of_app. split.
        -- unfold ids_folders. rewrite list_elem_of_fmap.
           intros (x & Hx & Hin). apply list_elem_of_filter in Hin as [Hn _].
           apply Hn. rewrite <- Hx. by apply list_elem_of_singleton.
        -- rewrite filter_not_in_nil. apply Hdisj. cbn [app]. rewrite fmap_cons.
           left.
    + eapply NoDup_Permutation_proper; [|exact Hnd].
      rewrite !fmap_app, fmap_cons. cbn.
      rewrite app_assoc. symmetry. apply Permutation_cons_append.
    + rewrite after_folder_files. intros i Hi. apply Hdisj.
      rewrite !fmap_app, !elem_of_app in Hi. cbn [app].
      rewrite fmap_cons, fmap_app.
      rewrite elem_of_cons, elem_of_app. cbn in Hi.
      rewrite list_elem_of_singleton in Hi. tauto.
    + exists s', ps'. rewrite Hrun, Ha', Hina', Hok', Hd', Hf', Hfi'.
      rewrite after_folder_files. repeat split; try done.
      * f_equal. f_equal. unfold count_folder. rewrite Hhead.
        unfold Folder_eq. rewrite bool_decide_eq_true_2 by done.
        unfold add_dup, inc_dup. cbn. f_equal. lia.
      * by rewrite <- app_assoc.
Qed.

Lemma at_rest_flushed s : at_rest s -> flushed s = durable s.
Proof.
  intros (Hv & ? & ? & ? & ? & ? & ?). rewrite flushed_rest by done. done.
Qed.

Lemma at_rest_flush_ok s : at_rest s -> flush_ok s = true.
Proof. intros (Hv & ? & ? & ? & ? & ? & ?). by apply flush_ok_no_new. Qed.

Lemma insert_folders_again l s :
  at_rest s ->
  t_folders (durable s) = folder_of parse <$> l ->
  NoDup (id <$> l) ->
  (forall i, i ∈ id <$> l -> i ∉ fi_id <$> t_files (durable s)) ->
  exists s',
    insert_folders parse l false s = Ok (mkCounters 0 (length l) 0 0) s' [] /\
    t_folders (durable s') = folder_of parse <$> l /\
    t_files (durable s') = t_files (durable s) /\ at_rest s'.
Proof.
  intros Hrest Hrows Hnd Hdisj.
  pose proof (at_rest_flushed s Hrest) as Hfl.
  pose proof (at_rest_flush_ok s Hrest) as Hok.
  destruct (folders_loop_again l [] zero [] s)
    as (s1 & ps & Hrun & Ha1 & Hi1 & Hok1 & Hd1 & Hf1 & Hfi1).
  { apply Hrest. } { apply Hrest. } { done. }
  { by rewrite Hfl, app_nil_r. } { by rewrite app_nil_r. }
  { rewrite Hfl, app_nil_r. done. }
  cbn [app] in Hf1.
  unfold insert_folders. rewrite bind_run, Hrun. cbv beta iota. cbn [negb].
  unfold prune_folders. rewrite !bind_run, query_folders_run, Hok1 by done.
  cbv beta iota. rewrite prune_folders_loop. cbv beta iota.
  assert (filter (fun r => fo_id r ∉ id <$> l) (t_folders (flushed s1)) = [])
    as Hgone.
  { apply filter_none. intros x Hx Hn. apply Hn. rewrite Hf1 in Hx.
    apply list_elem_of_fmap in Hx as (r & -> & Hr). cbn.
    by apply list_elem_of_fmap_2. }
  rewrite Hgone. cbn [fmap list_fmap length].
  rewrite bind_run, commit_folders_run, flush_ok_no_new by done.
  cbv beta iota.
  rewrite bind_run, report_folders_quiet by done. cbv beta iota.
  rewrite bind_run.
  match goal with |- context [link_folders ?ps ?st] =>
    destruct (link_folders_run ps st) as [g ->] end.
  eexists. split; [|split; [|split]].
  - cbn. unfold add_dtd, add_dup. cbn. by rewrite Nat.add_0_r.
  - cbn. rewrite app_nil_r, filter_not_in_nil. exact Hf1.
  - cbn. rewrite app_nil_r, filter_not_in_nil.
    change (t_files (flushed s1) = t_files (durable s)).
    by rewrite Hfi1, Hfl.
  - apply at_rest_map_parentage. unfold at_rest. cbn. done.
Qed.

Lemma file_of_id r f : file_of parse r = Some f -> fi_id f = id r.
Proof.
  unfold file_of. destruct (contentProperties r), (name r); [|done..].
  by intros [= <-].
Qed.

Lemma found_file_id V r ef :
  found_file V r = Some ef -> fi_id ef = id r /\ ef ∈ V.
Proof.
  intros H. by apply head_Some_elem_of, list_elem_of_filter in H.
Qed.

Lemma found_file_None V r : found_file V r = None -> id r ∉ fi_id <$> V.
Proof.
  intros H Hin. apply head_None in H.
  apply list_elem_of_fmap in Hin as (x & Hx & Hin).
  by apply (filter_nil_not_elem_of _ _ x H).
Qed.

Lemma found_ids_spec V l i :
  i ∈ found_ids V l <-> i ∈ id <$> l /\ i ∈ fi_id <$> V.
Proof.
  unfold found_ids. rewrite list_elem_of_bind. split.
  - intros (r & Hi & Hr). destruct (found_file V r) as [ef|] eqn:Hf.
    + apply list_elem_of_singleton in Hi as ->.
      apply found_file_id in Hf as [Hid Hin]. split.
      * rewrite Hid. by apply list_elem_of_fmap_2.
      * by apply list_elem_of_fmap_2.
    + by apply elem_of_nil in Hi.
  - intros [Hl HV]. apply list_elem_of_fmap in Hl as (r & -> & Hr).
    exists r. split; [|done].
    destruct (found_file V r) as [ef|] eqn:Hf.
    + apply found_file_id in Hf as [-> _]. by apply list_elem_of_singleton.
    + by apply found_file_None in Hf.
Qed.

Lemma insert_files_body_run c r s f :
  autoflush s = false -> inactive s = false ->
  file_of parse r = Some f ->
  exists ps out,
    insert_files_body parse c r s
    = Ok (count_file parse (t_files (view s)) c r)
         (push_deleted_files
            (match found_file (t_files (view s)) r with
             | Some ef => [fi_id ef] | None => [] end)
            (set_new_files (new_files s ++ [(f, ps)]) s)) out.
Proof.
  intros Ha Hi Hf. unfold insert_files_body, count_file. rewrite Hf.
  rewrite bind_run.
  assert (query_file_first (id r) s
          = Ok (found_file (t_files (view s)) r) s []) as ->.
  { cbv [query_file_first before_query mbind M_bind bind get ret raise].
    by rewrite Hi, Ha. }
  cbv beta iota. rewrite bind_run.
  destruct (found_file _ r) as [ef|].
  - cbv [session_delete_file session_add_file mbind M_bind bind ret].
    match goal with |- context [for_each (parents r) _ tt ?st] =>
      destruct (link_parents_run f f (new_files s) (parents r) st [])
        as (ps & out & ->); [done|done|done|] end.
    exists ps, out. cbn. by rewrite app_nil_r.
  - cbv [session_add_file mbind M_bind bind ret].
    match goal with |- context [for_each (parents r) _ tt ?st] =>
      destruct (link_parents_run f f (new_files s) (parents r) st [])
        as (ps & out & ->); [done|done|done|] end.
    exists ps, out. cbn. unfold push_deleted_files. cbn.
    by rewrite !app_nil_r.
Qed.

Lemma rows_of_ids l fs : rows_of parse l fs -> fi_id <$> fs = id <$> l.
Proof.
  induction 1 as [|r f l fs Hf _ IH]; [done|].
  rewrite !fmap_cons, IH. f_equal. by apply file_of_id.
Qed.

Lemma files_loop_run l fs : rows_of parse l fs -> forall c s,
  autoflush s = false -> inactive s = false ->
  exists nf out,
    for_each l (insert_files_body parse) c s
    = Ok (foldl (count_file parse (t_files (view s))) c l)
         (push_deleted_files (found_ids (t_files (view s)) l)
            (set_new_files (new_files s ++ nf) s)) out /\
    fst <$> nf = fs.
Proof.
  induction 1 as [|r f l fs Hf _ IH]; intros c s Ha Hi.
  - exists [], []. split; [|done]. cbn. unfold push_deleted_files. cbn.
    rewrite !app_nil_r. by destruct s.
  - cbn [for_each]. rewrite bind_run.
    destruct (insert_files_body_run c r s f Ha Hi Hf) as (ps & o1 & ->).
    match goal with |- context [for_each l _ ?c1 ?st] =>
      destruct (IH c1 st) as (nf & o2 & -> & Hnf); [done|done|] end.
    exists ((f, ps) :: nf), (o1 ++ o2). split; [|by rewrite fmap_cons, Hnf].
    f_equal. unfold push_deleted_files, set_new_files, found_ids. cbn.
    by rewrite <- !app_assoc.
Qed.

Lemma files_loop_rows l : forall c s c' s' out,
  autoflush s = false -> inactive s = false ->
  for_each l (insert_files_body parse) c s = Ok c' s' out ->
  exists fs, rows_of parse l fs.
Proof.
  induction l as [|r l IH]; intros c s c' s' out Ha Hi H.
  - exists []. constructor.
  - cbn [for_each] in H.
    apply bind_Ok_inv in H as (c1 & s1 & o1 & o2 & Hb & Hl & ->).
    destruct (file_of parse r) as [f|] eqn:Hf.
    + destruct (insert_files_body_run c r s f Ha Hi Hf) as (ps & o & Hrun).
      rewrite Hrun in Hb. injection Hb as <- <- <-.
      apply IH in Hl as [fs Hfs]; [|done..].
      exists (f :: fs). by constructor.
    + unfold insert_files_body in Hb. by rewrite Hf in Hb.
Qed.

Lemma listed_file (files : list Node) (r : File) : forall b,
  foldl (fun found file =>
           if bool_decide (fi_id r = id file) then true else found) b files
  = true <-> b = true \/ fi_id r ∈ id <$> files.
Proof.
  induction files as [|x files IH]; intros b; cbn [foldl].
  - rewrite fmap_nil, elem_of_nil. tauto.
  - rewrite IH, fmap_cons, elem_of_cons. case_bool_decide; [tauto|].
    split; [tauto|]. intros [?|[?|?]]; tauto.
Qed.

Lemma prune_files_loop (files : list Node) (rows : list File) : forall c s,
  for_each rows (prune_files_body files) c s
  = Ok (add_dtd (length (filter (fun r => fi_id r ∉ id <$> files) rows)) c)
       (push_deleted_files
          (fi_id <$> filter (fun r => fi_id r ∉ id <$> files) rows) s) [].
Proof.
  induction rows as [|r rows IH]; intros c s.
  - destruct c, s. cbn. unfold push_deleted_files. cbn.
    by rewrite app_nil_r.
  - cbn [for_each]. rewrite bind_run. unfold prune_files_body at 1.
    rewrite filter_cons.
    destruct (foldl _ false files) eqn:He.
    + apply listed_file in He as [?|He]; [done|].
      destruct (decide (fi_id r ∉ id <$> files)); [done|].
      cbn. by rewrite IH.
    + destruct (decide (fi_id r ∉ id <$> files)) as [Hn|Hn].
      2:{ apply dec_stable in Hn.
          assert (foldl (fun found file =>
                    if bool_decide (fi_id r = id file) then true else found)
                    false files = true) by (apply listed_file; by right).
          congruence. }
      cbv [negb mbind M_bind bind session_delete_file ret]. rewrite IH.
      cbn. f_equal.
      * unfold add_dtd, inc_dtd. cbn. f_equal. lia.
      * unfold push_deleted_files. cbn. by rewrite <- app_assoc.
Qed.

Lemma kept_files (L : list string) (rows : list File) :
  filter (fun r => fi_id r ∉
            fi_id <$> filter (fun r => fi_id r ∉ L) rows) rows
  = filter (fun r => fi_id r ∈ L) rows.
Proof.
  apply filter_ext_in. intros x Hx. split.
  - intros Hn. destruct (decide (fi_id x ∈ L)) as [|Hni]; [done|].
    exfalso. apply Hn. apply list_elem_of_fmap_2.
    by apply list_elem_of_filter.
  - intros Hi Hg. apply list_elem_of_fmap in Hg as (y & Hy & Hin).
    apply list_elem_of_filter in Hin as [Hny _]. rewrite Hy in Hi. done.
Qed.

Lemma insert_files_run l fs s :
  at_rest s -> rows_of parse l fs ->
  exists s' out,
    insert_files parse l false s =
    (if files_fit (durable s) l
     then Ok (add_dtd (length (filter (fun r => fi_id r ∉ id <$> l)
                                 (files_after (durable s) l fs)))
                (foldl (count_file parse (t_files (durable s))) zero l)) s' out
     else Raise IntegrityError s' out) /\
    (files_fit (durable s) l = true ->
     t_files (durable s')
     = filter (fun r => fi_id r ∈ id <$> l) (files_after (durable s) l fs) /\
     t_folders (durable s') = t_folders (durable s) /\ at_rest s').
Proof.
  intros (Hv & Hnf & Hni & Hdf & Hdi & Ha & Hi) Hfs.
  destruct s as [D V nf nfi df dfi af ina].
  cbn in Hv, Hnf, Hni, Hdf, Hdi, Ha, Hi.
  subst. cbn [durable].
  unfold insert_files. rewrite bind_run. unfold no_autoflush.
  destruct (files_loop_run l fs Hfs zero
              (set_autoflush false (mkSession D D [] [] [] [] true false)))
    as (nf & o1 & -> & Hnf); [done|done|].
  cbv beta iota. cbn [negb]. unfold prune_files.
  rewrite !bind_run, query_files_run by done.
  match goal with |- context [flush_ok ?st] =>
    assert (flush_ok st = files_fit D l) as -> end.
  { unfold flush_ok, files_fit. cbn. rewrite filter_not_in_nil.
    unfold ids_files at 2. rewrite Hnf. by rewrite (rows_of_ids l fs). }
  destruct (files_fit D l); [|eexists _, _; split; [reflexivity|done]].
  cbv beta iota. rewrite prune_files_loop. cbv beta iota.
  rewrite bind_run, commit_files_run, flush_ok_no_new by done.
  cbv beta iota. rewrite bind_run.
  match goal with |- context [report_files ?c ?st] =>
    destruct (report_files_run c st) as [orep ->] end.
  cbv beta iota. cbv [ret].
  eexists _, _. split.
  - f_equal. f_equal. f_equal. unfold files_after. cbn. by rewrite Hnf.
  - intros _. cbn. rewrite !app_nil_r, !filter_not_in_nil, Hnf.
    split; [|done]. unfold files_after. cbn. apply kept_files.
Qed.

Lemma files_fit_spec T l :
  files_fit T l = true ->
  NoDup (id <$> l) /\ forall i, i ∈ id <$> l -> i ∉ fo_id <$> t_folders T.
Proof.
  unfold files_fit. rewrite ids_free_spec. intros [Hnd Hall].
  split; [done|]. intros i Hi Hin. apply (Hall i Hi).
  apply elem_of_app. by left.
Qed.

Lemma listed_files_after T l fs :
  rows_of parse l fs ->
  filter (fun r => fi_id r ∈ id <$> l) (files_after T l fs) = fs.
Proof.
  intros Hfs. unfold files_after. rewrite filter_app, list_filter_filter.
  rewrite filter_none.
  - cbn [app]. apply filter_all. intros x Hx.
    rewrite <- (rows_of_ids l fs Hfs). by apply list_elem_of_fmap_2.
  - intros x Hx [Hl Hn]. apply Hn. apply found_ids_spec.
    split; [done|]. by apply list_elem_of_fmap_2.
Qed.

Lemma insert_files_full l s c s' out :
  at_rest s ->
  insert_files parse l false s = Ok c s' out ->
  exists fs,
    rows_of parse l fs /\ t_files (durable s') = fs /\
    t_folders (durable s') = t_folders (durable s) /\ at_rest s' /\
    NoDup (id <$> l) /\
    (forall i, i ∈ id <$> l -> i ∉ fo_id <$> t_folders (durable s)).
Proof.
  intros Hrest H.
  assert (exists fs, rows_of parse l fs) as [fs Hfs].
  { unfold insert_files in H.
    apply bind_Ok_inv in H as (c1 & s1 & o1 & o2 & Hloop & _).
    unfold no_autoflush in Hloop.
    destruct (for_each l _ zero _) as [c0 s0 o0|] eqn:Hl; [|done].
    apply files_loop_rows in Hl; [done|done|apply Hrest]. }
  exists fs.
  destruct (insert_files_run l fs s Hrest Hfs) as (s2 & o2 & Hrun & Hfacts).
  rewrite H in Hrun.
  destruct (files_fit (durable s) l) eqn:Hfit; [|done].
  injection Hrun as -> -> ->.
  destruct Hfacts as (Hfi & Hfo & Hr); [done|].
  apply files_fit_spec in Hfit as [Hnd Hdisj].
  rewrite Hfi, listed_files_after by done. done.
Qed.

Lemma filter_key_NoDup {A} (g : A -> string) (l : list A) (x : A) :
  NoDup (g <$> l) -> x ∈ l -> filter (fun y => g y = g x) l = [x].
Proof.
  induction l as [|y l IH]; intros Hnd Hx; [by apply elem_of_nil in Hx|].
  rewrite fmap_cons in Hnd. apply NoDup_cons in Hnd as [Hy Hnd].
  apply elem_of_cons in Hx as [->|Hx].
  - rewrite filter_cons_True by done. f_equal.
    apply filter_none. intros z Hz Hg. apply Hy. rewrite <- Hg.
    by apply list_elem_of_fmap_2.
  - rewrite filter_cons_False; [by apply IH|].
    intros Hg. apply Hy. rewrite Hg. by apply list_elem_of_fmap_2.
Qed.

Lemma rows_of_elem l fs r :
  rows_of parse l fs -> r ∈ l ->
  exists f, file_of parse r = Some f /\ f ∈ fs.
Proof.
  induction 1 as [|r0 f0 l fs Hf _ IH]; intros Hr.
  - by apply elem_of_nil in Hr.
  - apply elem_of_cons in Hr as [->|Hr].
    + exists f0. split; [done|left].
    + destruct (IH Hr) as (f & ? & ?). exists f. split; [done|by right].
Qed.

Lemma found_file_listed l fs r :
  rows_of parse l fs -> NoDup (id <$> l) -> r ∈ l ->
  exists f, file_of parse r = Some f /\ found_file fs r = Some f.
Proof.
  intros Hfs Hnd Hr.
  destruct (rows_of_elem l fs r Hfs Hr) as (f & Hf & Hin).
  exists f. split; [done|]. unfold found_file.
  rewrite <- (file_of_id r f Hf).
  rewrite (filter_key_NoDup fi_id fs f); [done| |done].
  by rewrite (rows_of_ids l fs).
Qed.

Lemma count_file_listed l fs : rows_of parse l fs -> NoDup (id <$> l) ->
  forall l' c, l' ⊆ l ->
  foldl (count_file parse fs) c l' = add_dup (length l') c.
Proof.
  intros Hfs Hnd. induction l' as [|r l' IH]; intros c Hsub; cbn [foldl].
  - by destruct c.
  - rewrite IH by (intros x Hx; apply Hsub; by right).
    destruct (found_file_listed l fs r Hfs Hnd) as (f & Hf & Hfound).
    { apply Hsub. left. }
    unfold count_file. rewrite Hf, Hfound. unfold File_eq.
    rewrite bool_decide_eq_true_2 by done.
    unfold add_dup, inc_dup. cbn. f_equal. lia.
Qed.

Lemma insert_files_again l fs s :
  at_rest s -> rows_of parse l fs ->
  t_files (durable s) = fs ->
  NoDup (id <$> l) ->
  (forall i, i ∈ id <$> l -> i ∉ fo_id <$> t_folders (durable s)) ->
  exists s' out,
    insert_files parse l false s
    = Ok (mkCounters 0 (length l) 0 0) s' out /\
    t_files (durable s') = fs /\
    t_folders (durable s') = t_folders (durable s) /\ at_rest s'.
Proof.
  intros Hrest Hfs HV Hnd Hdisj.
  destruct (insert_files_run l fs s Hrest Hfs) as (s' & out & Hrun & Hfacts).
  assert (forall x, x ∈ fs -> fi_id x ∈ found_ids fs l) as Hall.
  { intros x Hx. apply found_ids_spec.
    rewrite <- (rows_of_ids l fs Hfs).
    split; by apply list_elem_of_fmap_2. }
  assert (files_fit (durable s) l = true) as Hfit.
  { unfold files_fit. apply ids_free_spec. split; [done|].
    intros i Hi. rewrite not_elem_of_app. split; [by apply Hdisj|].
    rewrite HV, filter_none; [apply not_elem_of_nil|].
    intros x Hx Hn. by apply Hn, Hall. }
  rewrite Hfit in Hrun. destruct (Hfacts Hfit) as (Hfi & Hfo & Hr).
  exists s', out. rewrite Hrun, Hfi, listed_files_after by done.
  split; [|done]. f_equal.
  rewrite HV, (count_file_listed l fs) by done.
  rewrite filter_none.
  - unfold add_dtd, add_dup. cbn. f_equal. lia.
  - intros x Hx Hn. apply Hn. unfold files_after in Hx.
    rewrite <- (rows_of_ids l fs Hfs). apply list_elem_of_fmap_2.
    apply elem_of_app in Hx as [Hx|Hx]; [|done].
    apply list_elem_of_filter in Hx as [_ Hx]. by rewrite HV in Hx.
Qed.

(** ** Delta correctness *)

(** C2: after a full reconciliation that returns, a stored node whose id is
    missing from the listing is gone from the store, every listed node is
    in the store whatever its status (so a node listed with status TRASH
    stays), and hence a stored node disappears only when its id is absent
    from the listing. *)
Theorem reconcile_delta folders files s r s' out :
  at_rest s ->
  reconcile parse folders files s = Ok r s' out ->
  (forall X, X ∈ fo_id <$> t_folders (durable s) -> X ∉ id <$> folders ->
             X ∉ fo_id <$> t_folders (durable s')) /\
  (forall X, X ∈ fi_id <$> t_files (durable s) -> X ∉ id <$> files ->
             X ∉ fi_id <$> t_files (durable s')) /\
  (forall n, n ∈ folders -> id n ∈ fo_id <$> t_folders (durable s')) /\
  (forall n, n ∈ files -> id n ∈ fi_id <$> t_files (durable s')) /\
  (forall X, X ∈ fo_id <$> t_folders (durable s) ->
             X ∉ fo_id <$> t_folders (durable s') -> X ∉ id <$> folders) /\
  (forall X, X ∈ fi_id <$> t_files (durable s) ->
             X ∉ fi_id <$> t_files (durable s') -> X ∉ id <$> files).
Proof.
  intros Hrest H. unfold reconcile in H.
  apply bind_Ok_inv in H as (cf & s1 & o1 & o2 & Hfo & H & ->).
  apply bind_Ok_inv in H as (ci & s2 & o2' & o3 & Hfi & H & ->).
  cbv [ret] in H. injection H as <- <- <-.
  apply insert_folders_full in Hfo as (Hfo & _ & Hrest1); [|apply Hrest..].
  apply insert_files_full in Hfi
    as (fs & Hfs & Hfi & Hfo2 & _ & _ & _); [|done].
  rewrite Hfo2, Hfo, Hfi, (rows_of_ids files fs Hfs).
  assert (forall n, n ∈ folders ->
            id n ∈ fo_id <$> filter (fun r => fo_id r ∈ id <$> folders)
                   (upsert_all parse (t_folders (flushed s)) folders))
    as Hkeep.
  { intros n Hn.
    assert (id n ∈ id <$> folders) as Hid by by apply list_elem_of_fmap_2.
    assert (id n ∈ fo_id <$> upsert_all parse (t_folders (flushed s)) folders)
      as Hin by (apply upsert_all_ids; by right).
    apply list_elem_of_fmap in Hin as (x & Hx & Hin).
    apply list_elem_of_fmap. exists x. split; [done|].
    apply list_elem_of_filter. by rewrite <- Hx. }
  assert (forall X, X ∉ id <$> folders ->
            X ∉ fo_id <$> filter (fun r => fo_id r ∈ id <$> folders)
                  (upsert_all parse (t_folders (flushed s)) folders))
    as Hgone.
  { intros X HX Hin. apply list_elem_of_fmap in Hin as (x & -> & Hin).
    by apply list_elem_of_filter in Hin as [? _]. }
  repeat split.
  - intros X _. apply Hgone.
  - intros X _ HX. done.
  - apply Hkeep.
  - intros n Hn. by apply list_elem_of_fmap_2.
  - intros X _ HX Hin. apply HX.
    apply list_elem_of_fmap in Hin as (n & -> & Hn). by apply Hkeep.
  - intros X _ HX. done.
Qed.

(** ** Idempotent reconciliation *)


End WithParser.



Lemma reconcile_delta_witness :
  at_rest stocked_session /\
  ("F0" ∉ fo_id <$> t_folders (durable (session_of
            (reconcile sample_parse [docs_trashed] [b_txt_trashed]
               stocked_session)))) /\
  ("F1" ∈ fo_id <$> t_folders (durable (session_of
            (reconcile sample_parse [docs_trashed] [b_txt_trashed]
               stocked_session)))).
Proof.
  assert (at_rest stocked_session) as Hrest by (by repeat split).
  split; [exact Hrest|].
  edestruct (reconcile_delta sample_parse [docs_trashed] [b_txt_trashed]
               stocked_session)
    as (Hgone & _ & Hkept & _); [exact Hrest| |].
  - vm_compute. reflexivity.
  - split.
    + apply Hgone.
      * apply (bool_decide_unpack _). vm_compute. exact I.
      * apply (bool_decide_unpack _). vm_compute. exact I.
    + apply (Hkept docs_trashed). left.
Defined.

(** ** Constraint violations at commit *)

(** C3 fails in [insert_files]: its handler is for [ValueError], so the
    [IntegrityError] of the commit escapes.  For a batch naming one new
    file twice the call raises, "Error inserting files." is not printed
    and [session.rollback()] is not called: the committed tables are as
    before, but the session is left inactive and the next batch, a valid
    one, raises as well. *)
Lemma insert_files_violation_escapes :
  exists s' out,
    insert_files sample_parse [a_txt; a_txt] true stocked_session_no_file
    = Raise IntegrityError s' out /\
    ("Error inserting files." ∉ out) /\
    durable s' = durable stocked_session_no_file /\
    inactive s' = true /\
    exists s'' out',
      insert_files sample_parse [b_txt_trashed] true s'
      = Raise InvalidRequestError s'' out'.
Proof.
  eexists _, _. split; [vm_compute; reflexivity|].
  split; [|split; [done|split; [done|]]].
  - apply (bool_decide_unpack _). vm_compute. exact I.
  - eexists _, _. vm_compute. reflexivity.
Qed.

(** The sibling [insert_folders] catches the [IntegrityError] of its
    commit, reports it and rolls the record tables back; the parent edge of
    the rejected folder is written all the same. *)
Lemma insert_folders_violation_caught :
  exists s',
    insert_folders sample_parse [clash] true stocked_session
    = Ok (mkCounters 1 0 0 0) s'
         ["Error inserting folders."; "1 folder(s) inserted."] /\
    t_folders (durable s') = t_folders (durable stocked_session) /\
    t_files (durable s') = t_files (durable stocked_session) /\
    at_rest s' /\
    t_parentage (durable s') = [("F1", "X1"); ("F0", "X1")].
Proof.
  eexists. split; [vm_compute; reflexivity|]. by repeat split.
Qed.

(** ** Partial runs, counters and escaping errors *)

Lemma for_each_app {A B} (body : B -> A -> M B) l1 : forall l2 acc s,
  for_each (l1 ++ l2) body acc s
  = (acc' ← for_each l1 body acc; for_each l2 body acc') s.
Proof.
  induction l1 as [|x l1 IH]; intros l2 acc s.
  - cbn [app for_each]. rewrite bind_run.
    change (ret acc s) with (Ok acc s (@nil string)). cbv beta iota.
    by destruct (for_each l2 body acc s).
  - cbn [app for_each]. rewrite !bind_run.
    destruct (body acc x s) as [a s1 o1|e s1 o1]; [|done].
    rewrite IH, bind_run.
    destruct (for_each l1 body a s1) as [a2 s2 o2|e s2 o2]; [|done].
    destruct (for_each l2 body a2 s2) as [a3 s3 o3|e s3 o3];
      by rewrite app_assoc.
Qed.

Section PartialSync.

Variable parse : string -> datetime.

Lemma insert_folders_body_counts c ps r s c' ps' s' out :
  insert_folders_body parse (c, ps) r s = Ok (c', ps') s' out ->
  classified c' = S (classified c) /\ dtd c' = dtd c.
Proof.
  unfold insert_folders_body. intros H.
  apply bind_Ok_inv in H as (ef & s1 & o1 & o2 & _ & H & _).
  apply bind_Ok_inv in H as (c1 & s2 & o2' & o3 & Hc & H & _).
  cbv [ret] in H. injection H as <- _ _ _.
  destruct ef as [ef|].
  - apply bind_Ok_inv in Hc as ([] & s3 & ? & ? & _ & Hc & _).
    apply bind_Ok_inv in Hc as ([] & s4 & ? & ? & _ & Hc & _).
    cbv [ret] in Hc. injection Hc as <- _ _.
    destruct (Folder_eq _ _); unfold classified; cbn; lia.
  - apply bind_Ok_inv in Hc as ([] & s3 & ? & ? & _ & Hc & _).
    cbv [ret] in Hc. injection Hc as <- _ _. unfold classified; cbn; lia.
Qed.

Lemma folders_loop_counts l : forall c ps s c' ps' s' out,
  for_each l (insert_folders_body parse) (c, ps) s = Ok (c', ps') s' out ->
  classified c' = (length l + classified c)%nat /\ dtd c' = dtd c.
Proof.
  induction l as [|r l IH]; intros c ps s c' ps' s' out H.
  - cbv in H. by injection H as <- <- <- <-.
  - cbn [for_each] in H.
    apply bind_Ok_inv in H as ([c1 ps1] & s1 & o1 & o2 & Hb & Hl & _).
    apply insert_folders_body_counts in Hb as [Hb1 Hb2].
    apply IH in Hl as [Hl1 Hl2]. cbn [length]. split; [lia|congruence].
Qed.

Lemma insert_files_body_counts c r s c' s' out :
  insert_files_body parse c r s = Ok c' s' out ->
  classified c' = S (classified c) /\ dtd c' = dtd c.
Proof.
  unfold insert_files_body. destruct (file_of parse r) as [f|]; [|done].
  intros H.
  apply bind_Ok_inv in H as (ef & s1 & o1 & o2 & _ & H & _).
  apply bind_Ok_inv in H as (c1 & s2 & o2' & o3 & Hc & H & _).
  apply bind_Ok_inv in H as ([] & s3 & o3' & o4 & _ & H & _).
  cbv [ret] in H. injection H as <- _ _.
  destruct ef as [ef|].
  - apply bind_Ok_inv in Hc as ([] & s4 & ? & ? & _ & Hc & _).
    apply bind_Ok_inv in Hc as ([] & s5 & ? & ? & _ & Hc & _).
    cbv [ret] in Hc. injection Hc as <- _ _.
    destruct (File_eq _ _); unfold classified; cbn; lia.
  - apply bind_Ok_inv in Hc as ([] & s4 & ? & ? & _ & Hc & _).
    cbv [ret] in Hc. injection Hc as <- _ _. unfold classified; cbn; lia.
Qed.

Lemma files_loop_counts l : forall c s c' s' out,
  for_each l (insert_files_body parse) c s = Ok c' s' out ->
  classified c' = (length l + classified c)%nat /\ dtd c' = dtd c.
Proof.
  induction l as [|r l IH]; intros c s c' s' out H.
  - cbv in H. by injection H as <- <- <-.
  - cbn [for_each] in H.
    apply bind_Ok_inv in H as (c1 & s1 & o1 & o2 & Hb & Hl & _).
    apply insert_files_body_counts in Hb as [Hb1 Hb2].
    apply IH in Hl as [Hl1 Hl2]. cbn [length]. split; [lia|congruence].
Qed.

(** X1: when [insert_folders] or [insert_files] returns, every listed
    record has been counted exactly once as inserted, duplicate or
    updated, and a partial call counts no deletion. *)
Theorem records_counted_once l partial s c s' out :
  (insert_folders parse l partial s = Ok c s' out ->
   classified c = length l /\ (partial = true -> dtd c = 0%nat)) /\
  (insert_files parse l partial s = Ok c s' out ->
   classified c = length l /\ (partial = true -> dtd c = 0%nat)).
Proof.
  split.
  - unfold insert_folders. intros H.
    apply bind_Ok_inv in H as ([c1 ps] & s1 & o1 & o2 & Hloop & H & _).
    apply folders_loop_counts in Hloop as [Hc1 Hd1].
    apply bind_Ok_inv in H as (c2 & s2 & o2' & o3 & Hprune & H & _).
    assert (c = c2) as ->.
    { apply bind_Ok_inv in H as ([] & ? & ? & ? & _ & H & _).
      apply bind_Ok_inv in H as ([] & ? & ? & ? & _ & H & _).
      apply bind_Ok_inv in H as ([] & ? & ? & ? & _ & H & _).
      cbv [ret] in H. by injection H as <- _ _. }
    destruct partial; cbn [negb] in Hprune.
    + cbv [ret] in Hprune. injection Hprune as <- _ _.
      unfold classified in *. cbn in *. split; [lia|]. intros _. lia.
    + unfold prune_folders in Hprune.
      apply bind_Ok_inv in Hprune as (rows & sq & oq & op & _ & Hp & _).
      rewrite prune_folders_loop in Hp. injection Hp as <- _ _.
      unfold classified, add_dtd in *. cbn in *. split; [lia|done].
  - unfold insert_files. intros H.
    apply bind_Ok_inv in H as (c1 & s1 & o1 & o2 & Hloop & H & _).
    unfold no_autoflush in Hloop.
    destruct (for_each l _ zero _) as [c0 s0 o0|] eqn:Hl; [|done].
    injection Hloop as <- _ _.
    apply files_loop_counts in Hl as [Hc1 Hd1].
    apply bind_Ok_inv in H as (c2 & s2 & o2' & o3 & Hprune & H & _).
    assert (c = c2) as ->.
    { apply bind_Ok_inv in H as ([] & ? & ? & ? & _ & H & _).
      apply bind_Ok_inv in H as ([] & ? & ? & ? & _ & H & _).
      cbv [ret] in H. by injection H as <- _ _. }
    destruct partial; cbn [negb] in Hprune.
    + cbv [ret] in Hprune. injection Hprune as <- _ _.
      unfold classified in *. cbn in *. split; [lia|]. intros _. lia.
    + unfold prune_files in Hprune.
      apply bind_Ok_inv in Hprune as (rows & sq & oq & op & _ & Hp & _).
      rewrite prune_files_loop in Hp. injection Hp as <- _ _.
      unfold classified, add_dtd in *. cbn in *. split; [lia|done].
Qed.

Lemma after_folder_flush_ok r s :
  flush_ok (after_folder parse r s)
  = bool_decide (id r ∉ fi_id <$> t_files (flushed s)).
Proof.
  unfold flush_ok, after_folder.
  cbn [view new_folders new_files deleted_folders deleted_files].
  rewrite filter_not_in_nil. cbn [ids_folders ids_files fmap list_fmap app
    fo_id folder_of ids_free]. rewrite andb_true_r.
  apply bool_decide_ext. rewrite not_elem_of_app.
  split; [tauto|]. intros Hfiles. split; [|done].
  unfold ids_folders. rewrite list_elem_of_fmap. intros (x & Hx & Hin).
  apply list_elem_of_filter in Hin as [Hdel Hin].
  destruct (head _) as [ef|] eqn:Hh.
  - apply head_Some_elem_of, list_elem_of_filter in Hh as [Hid _].
    apply Hdel. rewrite Hid, Hx. by apply list_elem_of_singleton.
  - apply head_None in Hh.
    by apply (filter_nil_not_elem_of _ _ x Hh).
Qed.

Lemma folders_loop_total l : forall c ps s,
  autoflush s = true -> inactive s = false -> flush_ok s = true ->
  (forall i, i ∈ id <$> l -> i ∉ fi_id <$> t_files (flushed s)) ->
  exists c' ps' s',
    for_each l (insert_folders_body parse) (c, ps) s = Ok (c', ps') s' [] /\
    autoflush s' = true /\ inactive s' = false /\ flush_ok s' = true /\
    durable s' = durable s /\
    t_folders (flushed s') = upsert_all parse (t_folders (flushed s)) l /\
    t_files (flushed s') = t_files (flushed s).
Proof.
  induction l as [|r l IH]; intros c ps s Ha Hi Hok Hdisj.
  - by exists c, ps, s.
  - cbn [for_each]. rewrite bind_run, insert_folders_body_run, Hok by done.
    destruct (IH (count_folder parse r s c) (ps ++ [(id r, parents r)])
                 (after_folder parse r s))
      as (c' & ps' & s' & Hrun & Ha' & Hi' & Hok' & Hd' & Hf' & Hfi');
      try done.
    + rewrite after_folder_flush_ok. apply bool_decide_eq_true_2.
      apply Hdisj. rewrite fmap_cons. left.
    + rewrite after_folder_files. intros i Hin. apply Hdisj.
      rewrite fmap_cons. by right.
    + exists c', ps', s'. rewrite Hrun. repeat split; try done.
      * by rewrite Hf', after_folder_folders.
      * by rewrite Hfi', after_folder_files.
Qed.

Lemma upsert_all_keeps l : forall rows x,
  x ∈ rows -> fo_id x ∉ id <$> l -> x ∈ upsert_all parse rows l.
Proof.
  unfold upsert_all.
  induction l as [|r l IH]; intros rows x Hx Hn; [done|].
  cbn [foldl]. rewrite fmap_cons, not_elem_of_cons in Hn.
  destruct Hn as [Hr Hn]. apply IH; [|done].
  unfold upsert_folder. apply elem_of_app. left.
  by apply list_elem_of_filter.
Qed.

Lemma upsert_folder_lookup f rows :
  filter (fun x => fo_id x = fo_id f) (upsert_folder f rows) = [f].
Proof.
  unfold upsert_folder. rewrite filter_app, list_filter_filter.
  rewrite filter_none by (intros x _ [? ?]; done).
  cbn [app]. by rewrite filter_cons_True.
Qed.

Lemma upsert_folder_other i f rows :
  fo_id f ≠ i ->
  filter (fun x => fo_id x = i) (upsert_folder f rows)
  = filter (fun x => fo_id x = i) rows.
Proof.
  intros Hne. unfold upsert_folder. rewrite filter_app, list_filter_filter.
  rewrite (filter_cons_False _ f) by done. rewrite filter_nil, app_nil_r.
  apply list_filter_iff. intros x. split; [tauto|]. intros Hx.
  split; [done|]. congruence.
Qed.

Lemma upsert_all_other l : forall rows i,
  i ∉ id <$> l ->
  filter (fun x => fo_id x = i) (upsert_all parse rows l)
  = filter (fun x => fo_id x = i) rows.
Proof.
  unfold upsert_all.
  induction l as [|r l IH]; intros rows i Hn; [done|].
  cbn [foldl]. rewrite fmap_cons, not_elem_of_cons in Hn.
  destruct Hn as [Hr Hn]. rewrite IH by done.
  apply upsert_folder_other. cbn. congruence.
Qed.

Lemma upsert_all_last l1 r l2 rows :
  id r ∉ id <$> l2 ->
  filter (fun x => fo_id x = id r) (upsert_all parse rows (l1 ++ r :: l2))
  = [folder_of parse r].
Proof.
  intros Hn. unfold upsert_all. rewrite foldl_app. cbn [foldl].
  fold (upsert_all parse
          (upsert_folder (folder_of parse r)
             (foldl (fun rows r => upsert_folder (folder_of parse r) rows)
                    rows l1)) l2).
  rewrite upsert_all_other by done.
  apply (upsert_folder_lookup (folder_of parse r)).
Qed.

Lemma insert_folders_partial_run l s :
  at_rest s ->
  (forall i, i ∈ id <$> l -> i ∉ fi_id <$> t_files (durable s)) ->
  exists c s' out,
    insert_folders parse l true s = Ok c s' out /\ at_rest s' /\
    t_folders (durable s') = upsert_all parse (t_folders (durable s)) l /\
    t_files (durable s') = t_files (durable s).
Proof.
  intros Hrest Hdisj.
  pose proof (at_rest_flushed s Hrest) as Hfl.
  pose proof (at_rest_flush_ok s Hrest) as Hok.
  destruct (folders_loop_total l zero [] s)
    as (c1 & ps & s1 & Hrun & Ha1 & Hi1 & Hok1 & Hd1 & Hf1 & Hfi1);
    [apply Hrest|apply Hrest|done|by rewrite Hfl|].
  rewrite Hfl in Hf1, Hfi1.
  unfold insert_folders. rewrite bind_run, Hrun. cbv beta iota. cbn [negb].
  rewrite bind_run. change (ret c1 s1) with (Ok c1 s1 (@nil string)).
  cbv beta iota.
  rewrite bind_run, commit_folders_run, Hok1 by done. cbv beta iota.
  rewrite bind_run.
  match goal with |- context [report_folders ?c ?st] =>
    destruct (report_folders_run c st) as [orep ->] end.
  cbv beta iota. rewrite bind_run.
  match goal with |- context [link_folders ?ps ?st] =>
    destruct (link_folders_run ps st) as [g ->] end.
  cbv beta iota. cbv [ret].
  eexists _, _, _. split; [reflexivity|].
  split; [apply at_rest_map_parentage; by unfold at_rest|].
  cbn [durable map_parentage committed_session t_folders t_files].
  by rewrite Hf1, Hfi1.
Qed.


(** X4: [insert_folders] only guards its commit: when the first folder of
    the batch carries the id of a stored file and another query follows (a
    further folder, or the pruning query of a full run), the
    [IntegrityError] of the flush before that query leaves the function,
    nothing is printed, the committed tables are as before and the session
    is left inactive. *)
Theorem folder_flush_error_escapes r l partial s :
  at_rest s ->
  id r ∈ fi_id <$> t_files (durable s) ->
  l ≠ [] \/ partial = false ->
  exists s',
    insert_folders parse (r :: l) partial s = Raise IntegrityError s' [] /\
    inactive s' = true /\ durable s' = durable s.
Proof.
  intros Hrest Hin Hcase.
  pose proof (at_rest_flushed s Hrest) as Hfl.
  pose proof (at_rest_flush_ok s Hrest) as Hok.
  assert (flush_ok (after_folder parse r s) = false) as Hbad.
  { rewrite after_folder_flush_ok, Hfl. apply bool_decide_eq_false_2. tauto. }
  unfold insert_folders. rewrite bind_run. cbn [for_each].
  rewrite bind_run, insert_folders_body_run, Hok
    by (try apply Hrest). cbv beta iota.
  destruct l as [|r2 l].
  - destruct Hcase as [?| ->]; [done|].
    change (for_each [] (insert_folders_body parse)
              (count_folder parse r s zero, [] ++ [(id r, parents r)])
              (after_folder parse r s))
      with (Ok (count_folder parse r s zero, [] ++ [(id r, parents r)])
              (after_folder parse r s) (@nil string)).
    cbv beta iota. cbn [negb]. unfold prune_folders.
    rewrite !bind_run, query_folders_run, Hbad by done.
    eexists. split; [reflexivity|]. done.
  - cbn [for_each]. rewrite bind_run, insert_folders_body_run, Hbad by done.
    eexists. split; [reflexivity|]. done.
Qed.

Lemma insert_files_partial_run l fs s :
  at_rest s -> rows_of parse l fs ->
  exists s' out,
    insert_files parse l true s =
    (if files_fit (durable s) l
     then Ok (foldl (count_file parse (t_files (durable s))) zero l) s' out
     else Raise IntegrityError s' out) /\
    (files_fit (durable s) l = true ->
     t_files (durable s') = files_after (durable s) l fs /\
     t_folders (durable s') = t_folders (durable s) /\ at_rest s').
Proof.
  intros (Hv & Hnf & Hni & Hdf & Hdi & Ha & Hi) Hfs.
  destruct s as [D V nf nfi df dfi af ina].
  cbn in Hv, Hnf, Hni, Hdf, Hdi, Ha, Hi.
  subst. cbn [durable].
  unfold insert_files. rewrite bind_run. unfold no_autoflush.
  destruct (files_loop_run parse l fs Hfs zero
              (set_autoflush false (mkSession D D [] [] [] [] true false)))
    as (nf & o1 & -> & Hnf); [done|done|].
  cbv beta iota. cbn [negb].
  rewrite bind_run.
  match goal with |- context [ret ?c ?st] =>
    change (ret c st) with (Ok c st (@nil string)) end.
  cbv beta iota.
  rewrite bind_run, commit_files_run by done.
  match goal with |- context [flush_ok ?st] =>
    assert (flush_ok st = files_fit D l) as -> end.
  { unfold flush_ok, files_fit. cbn. rewrite filter_not_in_nil.
    unfold ids_files at 2. rewrite Hnf. by rewrite (rows_of_ids parse l fs). }
  destruct (files_fit D l); [|eexists _, _; split; [reflexivity|done]].
  cbv beta iota. rewrite bind_run.
  match goal with |- context [report_files ?c ?st] =>
    destruct (report_files_run c st) as [orep ->] end.
  cbv beta iota. cbv [ret].
  eexists _, _. split; [reflexivity|].
  intros _. cbn. rewrite !app_nil_r, !filter_not_in_nil, Hnf.
  split; [|done]. unfold files_after. done.
Qed.

Lemma files_after_lookup T l fs r f :
  rows_of parse l fs -> NoDup (id <$> l) -> r ∈ l ->
  file_of parse r = Some f ->
  filter (fun x => fi_id x = id r) (files_after T l fs) = [f].
Proof.
  intros Hfs Hnd Hr Hf. unfold files_after.
  rewrite filter_app, list_filter_filter, filter_none.
  - cbn [app]. destruct (rows_of_elem parse l fs r Hfs Hr) as (f' & Hf' & Hin).
    assert (f' = f) as -> by congruence.
    rewrite <- (file_of_id parse r f Hf).
    apply (filter_key_NoDup fi_id fs f); [|done].
    by rewrite (rows_of_ids parse l fs).
  - intros x Hx [Hid Hn]. apply Hn. apply found_ids_spec. split.
    + rewrite Hid. by apply list_elem_of_fmap_2.
    + by apply list_elem_of_fmap_2.
Qed.

Lemma partial_file_insert_rows l s c s' out :
  at_rest s ->
  insert_files parse l true s = Ok c s' out ->
  exists fs, rows_of parse l fs /\
             t_files (durable s') = files_after (durable s) l fs.
Proof.
  intros Hrest H.
  assert (exists fs, rows_of parse l fs) as [fs Hfs].
  { unfold insert_files in H.
    apply bind_Ok_inv in H as (c1 & s1 & o1 & o2 & Hloop & _).
    unfold no_autoflush in Hloop.
    destruct (for_each l _ zero _) as [c0 s0 o0|] eqn:Hl; [|done].
    apply files_loop_rows in Hl; [done|done|apply Hrest]. }
  destruct (insert_files_partial_run l fs s Hrest Hfs)
    as (s2 & o2 & Hrun & Hfacts).
  rewrite H in Hrun.
  destruct (files_fit (durable s) l) eqn:Hfit; [|done].
  injection Hrun as -> -> ->.
  destruct Hfacts as (Hfi & _); [done|]. by exists fs.
Qed.


(** X7: a file dictionary without [contentProperties] (or [name]) makes
    [insert_files] raise [KeyError] before anything is committed: the
    tables are untouched, [no_autoflush] has restored the flag, and the
    rows of the files listed before it stay pending in the session. *)
Theorem file_without_properties pre r post fs partial s :
  inactive s = false -> rows_of parse pre fs -> file_of parse r = None ->
  exists s' out,
    insert_files parse (pre ++ r :: post) partial s = Raise KeyError s' out /\
    durable s' = durable s /\ view s' = view s /\
    autoflush s' = autoflush s /\
    fst <$> new_files s' = (fst <$> new_files s) ++ fs.
Proof.
  intros Hi Hfs Hr. unfold insert_files. rewrite bind_run.
  unfold no_autoflush. rewrite for_each_app, bind_run.
  destruct (files_loop_run parse pre fs Hfs zero (set_autoflush false s))
    as (nf & o1 & -> & Hnf); [done|done|].
  cbv beta iota. cbn [for_each]. rewrite bind_run.
  unfold insert_files_body at 1. rewrite Hr.
  cbv [raise]. cbv beta iota.
  eexists _, _. split; [reflexivity|]. cbn.
  rewrite fmap_app, Hnf. done.
Qed.

Lemma link_parent_body_out f p s s' out :
  autoflush s = false -> inactive s = false ->
  link_parent_body f tt p s = Ok tt s' out ->
  view s' = view s /\ autoflush s' = false /\ inactive s' = false /\
  (p ∉ fo_id <$> t_folders (view s) ->
   out = ["Parent folder of [" +:+ fi_name f +:+ "] not found."]).
Proof.
  intros Ha Hi. unfold link_parent_body.
  rewrite bind_run, query_folder_first_quiet by done. cbv beta iota.
  destruct (head _) as [pf|] eqn:Hh.
  - rewrite bind_run.
    assert (in_children f p s
            = Ok (existsb
                    (fun c => bool_decide ((p, fi_id c) ∈ t_parentage (view s))
                              && File_eq f c) (t_files (view s))) s [])
      as ->.
    { cbv [in_children before_query mbind M_bind bind get ret raise].
      by rewrite Hi, Ha. }
    cbv beta iota.
    assert (p ∈ fo_id <$> t_folders (view s)) as Hin.
    { apply head_Some_elem_of, list_elem_of_filter in Hh as [<- Hh].
      by apply list_elem_of_fmap_2. }
    destruct (existsb _ _); cbn [negb].
    + intros [= <- <-]. done.
    + rewrite bind_run, query_folder_first_quiet by done. cbv beta iota.
      unfold append_parent. intros [= <- <-]. done.
  - intros [= <- <-]. done.
Qed.

Lemma link_parents_out f ps : forall s s' out,
  autoflush s = false -> inactive s = false ->
  for_each ps (link_parent_body f) tt s = Ok tt s' out ->
  view s' = view s /\ autoflush s' = false /\ inactive s' = false /\
  (forall p, p ∈ ps -> p ∉ fo_id <$> t_folders (view s) ->
     ("Parent folder of [" +:+ fi_name f +:+ "] not found.") ∈ out).
Proof.
  induction ps as [|p ps IH]; intros s s' out Ha Hi H.
  - cbv in H. injection H as <- <-. repeat split; try done.
    intros p Hp. by apply elem_of_nil in Hp.
  - cbn [for_each] in H.
    apply bind_Ok_inv in H as ([] & s1 & o1 & o2 & Hb & Hl & ->).
    apply link_parent_body_out in Hb as (Hv1 & Ha1 & Hi1 & Hmsg); [|done..].
    apply IH in Hl as (Hv2 & Ha2 & Hi2 & Hmsgs); [|done..].
    split; [congruence|]. split; [done|]. split; [done|].
    intros q Hq Hn. apply elem_of_cons in Hq as [->|Hq].
    + rewrite (Hmsg Hn). apply elem_of_app. left. left.
    + apply elem_of_app. right. apply (Hmsgs q); [done|]. by rewrite Hv1.
Qed.

Lemma insert_files_body_out c r s c' s' out :
  autoflush s = false -> inactive s = false ->
  insert_files_body parse c r s = Ok c' s' out ->
  view s' = view s /\ autoflush s' = false /\ inactive s' = false /\
  (forall f p, file_of parse r = Some f -> p ∈ parents r ->
     p ∉ fo_id <$> t_folders (view s) ->
     ("Parent folder of [" +:+ fi_name f +:+ "] not found.") ∈ out).
Proof.
  intros Ha Hi. unfold insert_files_body.
  destruct (file_of parse r) as [f|]; [|done].
  rewrite bind_run.
  assert (query_file_first (id r) s
          = Ok (found_file (t_files (view s)) r) s []) as ->.
  { cbv [query_file_first before_query mbind M_bind bind get ret raise].
    by rewrite Hi, Ha. }
  cbv beta iota. intros H0.
  match type of H0 with match ?m with _ => _ end = _ =>
    destruct m as [b sb ob|] eqn:H; [|done] end.
  injection H0 as <- <- <-.
  apply bind_Ok_inv in H as (c1 & s1 & o1 & o2 & Hc & H & ->).
  apply bind_Ok_inv in H as ([] & s2 & o2' & o3 & Hl & H & ->).
  cbv [ret] in H. injection H as <- <- <-.
  assert (view s1 = view s /\ autoflush s1 = false /\ inactive s1 = false)
    as (Hv1 & Ha1 & Hi1).
  { destruct (found_file _ r) as [ef|].
    - cbv [session_delete_file session_add_file mbind M_bind bind ret] in Hc.
      by injection Hc as <- <- <-.
    - cbv [session_add_file mbind M_bind bind ret] in Hc.
      by injection Hc as <- <- <-. }
  apply link_parents_out in Hl as (Hv2 & Ha2 & Hi2 & Hmsgs); [|done..].
  split; [congruence|]. split; [done|]. split; [done|].
  intros f' p [= <-] Hp Hn. cbn [app]. rewrite !elem_of_app. right. left.
  apply (Hmsgs p); [done|]. by rewrite Hv1.
Qed.

Lemma files_loop_out l : forall c s c' s' out,
  autoflush s = false -> inactive s = false ->
  for_each l (insert_files_body parse) c s = Ok c' s' out ->
  forall r f p, r ∈ l -> file_of parse r = Some f -> p ∈ parents r ->
    p ∉ fo_id <$> t_folders (view s) ->
    ("Parent folder of [" +:+ fi_name f +:+ "] not found.") ∈ out.
Proof.
  induction l as [|r0 l IH]; intros c s c' s' out Ha Hi H r f p Hr Hf Hp Hn.
  - by apply elem_of_nil in Hr.
  - cbn [for_each] in H.
    apply bind_Ok_inv in H as (c1 & s1 & o1 & o2 & Hb & Hl & ->).
    apply insert_files_body_out in Hb as (Hv1 & Ha1 & Hi1 & Hmsg); [|done..].
    apply elem_of_app. apply elem_of_cons in Hr as [->|Hr].
    + left. by eapply Hmsg.
    + right. eapply (IH _ _ _ _ _ Ha1 Hi1 Hl r f p); try done.
      by rewrite Hv1.
Qed.

(** X8: when [insert_files] returns, for every listed file with a parent
    id that is no stored folder the parent-not-found line of the file has
    been printed, and the file is stored all the same. *)
Theorem orphan_files_reported l partial s c s' out :
  at_rest s ->
  insert_files parse l partial s = Ok c s' out ->
  forall r f p,
    r ∈ l -> file_of parse r = Some f -> p ∈ parents r ->
    p ∉ fo_id <$> t_folders (durable s) ->
    ("Parent folder of [" +:+ fi_name f +:+ "] not found.") ∈ out /\
    f ∈ t_files (durable s').
Proof.
  intros Hrest H r f p Hr Hf Hp Hn. split.
  - unfold insert_files in H.
    apply bind_Ok_inv in H as (c1 & s1 & o1 & o2 & Hloop & _ & ->).
    unfold no_autoflush in Hloop.
    destruct (for_each l _ zero _) as [c0 s0 o0|] eqn:Hl; [|done].
    injection Hloop as <- <- <-. apply elem_of_app. left.
    assert (inactive (set_autoflush false s) = false) as Hi0 by apply Hrest.
    assert (autoflush (set_autoflush false s) = false) as Ha0 by done.
    apply (files_loop_out l _ _ _ _ _ Ha0 Hi0 Hl r f p); try done.
    cbn. destruct Hrest as (-> & _). done.
  - destruct partial.
    + apply partial_file_insert_rows in H as (fs & Hfs & ->); [|done].
      destruct (rows_of_elem parse l fs r Hfs Hr) as (f' & Hf' & Hin).
      unfold files_after. apply elem_of_app. right. congruence.
    + apply insert_files_full in H as (fs & Hfs & Hfi & _); [|done].
      destruct (rows_of_elem parse l fs r Hfs Hr) as (f' & Hf' & Hin).
      rewrite Hfi. congruence.
Qed.



(** X6: on a session left inactive by a failed flush, [insert_folders]
    raises [InvalidRequestError] for every batch and leaves the session as
    it is, and so does [insert_files] for every batch of well-formed file
    dictionaries: neither function rolls the session back. *)
Theorem inactive_session_refuses s :
  inactive s = true ->
  (forall l partial,
     insert_folders parse l partial s = Raise InvalidRequestError s []) /\
  (forall l partial,
     (forall r, r ∈ l -> file_of parse r ≠ None) ->
     exists s',
       insert_files parse l partial s = Raise InvalidRequestError s' [] /\
       durable s' = durable s /\ inactive s' = true).
Proof.
  intros Hi.
  assert (forall A (k : unit -> M A),
            (before_query ≫= k) s = Raise InvalidRequestError s []) as Hq.
  { intros A k. rewrite bind_run.
    cbv [before_query mbind M_bind bind get raise]. by rewrite Hi. }
  assert (session_commit s = Raise InvalidRequestError s []) as Hcommit.
  { cbv [session_commit session_flush mbind M_bind bind get put].
    by rewrite Hi. }
  split.
  - intros l partial. unfold insert_folders. rewrite bind_run.
    destruct l as [|r l].
    + change (for_each [] (insert_folders_body parse) (zero, []) s)
        with (Ok (zero, @nil (string * list string)) s (@nil string)).
      cbv beta iota. rewrite bind_run. destruct partial; cbn [negb].
      * change (ret zero s) with (Ok zero s (@nil string)). cbv beta iota.
        rewrite bind_run. unfold commit_folders, try_except.
        rewrite Hcommit. by rewrite bool_decide_eq_false_2.
      * unfold prune_folders, query_folders. rewrite bind_run.
        change (before_query ;; s0 ← get; ret (t_folders (view s0)))
          with (before_query ≫= fun _ => s0 ← get; ret (t_folders (view s0))).
        by rewrite Hq.
    + cbn [for_each]. rewrite bind_run. unfold insert_folders_body.
      rewrite bind_run. unfold query_folder_first.
      change (before_query ;; s0 ← get;
              ret (head (filter (fun r0 => fo_id r0 = id r)
                           (t_folders (view s0)))))
        with (before_query ≫= fun _ => s0 ← get;
              ret (head (filter (fun r0 => fo_id r0 = id r)
                           (t_folders (view s0))))).
      by rewrite Hq.
  - intros l partial Hall. unfold insert_files. rewrite bind_run.
    unfold no_autoflush.
    assert (inactive (set_autoflush false s) = true) as Hi0 by done.
    destruct l as [|r l].
    + change (for_each [] (insert_files_body parse) zero
                (set_autoflush false s))
        with (Ok zero (set_autoflush false s) (@nil string)).
      cbv beta iota.
      assert (set_autoflush (autoflush s) (set_autoflush false s) = s) as ->
        by (by destruct s).
      rewrite bind_run. destruct partial; cbn [negb].
      * change (ret zero s) with (Ok zero s (@nil string)). cbv beta iota.
        rewrite bind_run. unfold commit_files, try_except.
        rewrite Hcommit. rewrite bool_decide_eq_false_2 by done.
        by exists s.
      * unfold prune_files, query_files. rewrite bind_run.
        change (before_query ;; s0 ← get; ret (t_files (view s0)))
          with (before_query ≫= fun _ => s0 ← get; ret (t_files (view s0))).
        rewrite Hq. by exists s.
    + cbn [for_each]. rewrite bind_run. unfold insert_files_body.
      destruct (file_of parse r) as [f|] eqn:Hf.
      2:{ exfalso. apply (Hall r); [left|done]. }
      rewrite bind_run.
      cbv [query_file_first before_query mbind M_bind bind get raise].
      cbn [inactive set_autoflush]. rewrite Hi.
      eexists. split; [reflexivity|]. done.
Qed.

Lemma link_parents_lines f ps : forall s s' out,
  autoflush s = false -> inactive s = false ->
  for_each ps (link_parent_body f) tt s = Ok tt s' out ->
  autoflush s' = false /\ inactive s' = false /\ Forall parent_line out.
Proof.
  induction ps as [|p ps IH]; intros s s' out Ha Hi H.
  - cbv in H. injection H as <- <-. by repeat split.
  - cbn [for_each] in H.
    apply bind_Ok_inv in H as ([] & s1 & o1 & o2 & Hb & Hl & ->).
    assert (autoflush s1 = false /\ inactive s1 = false /\
            Forall parent_line o1) as (Ha1 & Hi1 & Ho1).
    { destruct (decide (p ∈ fo_id <$> t_folders (view s))) as [Hin|Hn].
      - revert Hb. unfold link_parent_body.
        rewrite bind_run, query_folder_first_quiet by done. cbv beta iota.
        destruct (head _) as [pf|] eqn:Hh.
        + rewrite bind_run.
          assert (in_children f p s
                  = Ok (existsb
                          (fun c =>
                             bool_decide ((p, fi_id c) ∈ t_parentage (view s))
                             && File_eq f c) (t_files (view s))) s [])
            as ->.
          { cbv [in_children before_query mbind M_bind bind get ret raise].
            by rewrite Hi, Ha. }
          cbv beta iota. destruct (existsb _ _); cbn [negb].
          * intros [= <- <-]. by repeat split.
          * rewrite bind_run, query_folder_first_quiet by done.
            cbv beta iota. unfold append_parent. intros [= <- <-].
            by repeat split.
        + intros [= <- <-]. repeat split; try done.
          constructor; [by eexists|constructor].
      - apply link_parent_body_out in Hb as (_ & ? & ? & Hmsg); [|done..].
        rewrite (Hmsg Hn). repeat split; try done.
        constructor; [by eexists|constructor]. }
    apply IH in Hl as (Ha2 & Hi2 & Ho2); [|done..].
    repeat split; try done. by apply Forall_app.
Qed.

Lemma files_loop_lines l : forall c s c' s' out,
  autoflush s = false -> inactive s = false ->
  for_each l (insert_files_body parse) c s = Ok c' s' out ->
  Forall parent_line out.
Proof.
  induction l as [|r l IH]; intros c s c' s' out Ha Hi H.
  - cbv in H. injection H as <- <- <-. constructor.
  - cbn [for_each] in H.
    apply bind_Ok_inv in H as (c1 & s1 & o1 & o2 & Hb & Hl & ->).
    pose proof Hb as Hb'.
    apply insert_files_body_out in Hb' as (_ & Ha1 & Hi1 & _); [|done..].
    apply Forall_app. split; [|by eapply IH].
    revert Hb. unfold insert_files_body.
    destruct (file_of parse r) as [f|]; [|done].
    rewrite bind_run.
    assert (query_file_first (id r) s
            = Ok (found_file (t_files (view s)) r) s []) as ->.
    { cbv [query_file_first before_query mbind M_bind bind get ret raise].
      by rewrite Hi, Ha. }
    cbv beta iota. intros H0.
    match type of H0 with match ?m with _ => _ end = _ =>
      destruct m as [b sb ob|] eqn:H; [|done] end.
    injection H0 as <- <- <-.
    apply bind_Ok_inv in H as (c2 & s2 & o2' & o3 & Hc & H & ->).
    apply bind_Ok_inv in H as ([] & s3 & o3' & o4 & Hl' & H & ->).
    cbv [ret] in H. injection H as <- <- <-.
    assert (o2' = [] /\ autoflush s2 = false /\ inactive s2 = false)
      as (-> & Ha2 & Hi2).
    { destruct (found_file _ r) as [ef|].
      - cbv [session_delete_file session_add_file mbind M_bind bind ret] in Hc.
        by injection Hc as <- <- <-.
      - cbv [session_add_file mbind M_bind bind ret] in Hc.
        by injection Hc as <- <- <-. }
    apply link_parents_lines in Hl' as (_ & _ & Hlines); [|done..].
    cbn [app]. by rewrite app_nil_r.
Qed.


End PartialSync.

Lemma records_counted_once_witness :
  exists c s' out,
    insert_folders sample_parse [docs; old_folder; docs_trashed] true
      fresh_session = Ok c s' out /\
    classified c = 3%nat.
Proof.
  destruct (insert_folders sample_parse [docs; old_folder; docs_trashed] true
              fresh_session) as [c s' out|e s' out] eqn:Hrun;
    [|vm_compute in Hrun; discriminate].
  exists c, s', out. split; [reflexivity|].
  exact (proj1 (proj1 (records_counted_once sample_parse _ _ _ _ _ _) Hrun)).
Defined.


Lemma folder_flush_error_escapes_witness :
  at_rest stocked_session /\
  exists s',
    insert_folders sample_parse [clash; docs] true stocked_session
    = Raise IntegrityError s' [] /\ inactive s' = true.
Proof.
  assert (at_rest stocked_session) as Hrest by (by repeat split).
  split; [exact Hrest|].
  destruct (folder_flush_error_escapes sample_parse clash [docs] true
              stocked_session Hrest) as (s' & Hrun & Hin & _).
  - left.
  - by left.
  - exists s'. split; [exact Hrun|exact Hin].
Defined.


Lemma file_without_properties_witness :
  file_of sample_parse docs = None /\
  exists s' out,
    insert_files sample_parse [a_txt; docs] true stocked_session_no_file
    = Raise KeyError s' out /\
    durable s' = durable stocked_session_no_file.
Proof.
  assert (file_of sample_parse docs = None) as Hnone by reflexivity.
  split; [exact Hnone|].
  destruct (file_without_properties sample_parse [a_txt] docs []
              [mkFile "X1" "a.txt" 20150103 20150104 "abc" 10 "AVAILABLE"]
              true stocked_session_no_file)
    as (s' & out & Hrun & Hd & _).
  - reflexivity.
  - by repeat constructor.
  - exact Hnone.
  - exists s', out. split; [exact Hrun|exact Hd].
Defined.

Lemma orphan_files_reported_witness :
  at_rest fresh_session /\
  exists c s' out,
    insert_files sample_parse [a_txt] true fresh_session = Ok c s' out /\
    ("Parent folder of [a.txt] not found." ∈ out).
Proof.
  assert (at_rest fresh_session) as Hrest by (by repeat split).
  split; [exact Hrest|].
  destruct (insert_files sample_parse [a_txt] true fresh_session)
    as [c s' out|e s' out] eqn:Hrun; [|vm_compute in Hrun; discriminate].
  exists c, s', out. split; [reflexivity|].
  apply (orphan_files_reported sample_parse _ _ _ _ _ _ Hrest Hrun a_txt
           (mkFile "X1" "a.txt" 20150103 20150104 "abc" 10 "AVAILABLE")
           "F1").
  - left.
  - reflexivity.
  - left.
  - apply not_elem_of_nil.
Defined.



Lemma inactive_session_refuses_witness :
  inactive (failed_session stocked_session) = true /\
  insert_folders sample_parse [docs] true (failed_session stocked_session)
  = Raise InvalidRequestError (failed_session stocked_session) [].
Proof.
  assert (inactive (failed_session stocked_session) = true) as Hi
    by reflexivity.
  split; [exact Hi|].
  exact (proj1 (inactive_session_refuses sample_parse _ Hi) [docs] true).
Defined.


End SyncFacts.

(** * Facts about the command line actions *)
Module CliFacts.
Import Sync SyncFacts Cli.

Lemma split_path_concat p : (Fuse.split_path p).1 +:+ (Fuse.split_path p).2 = p.
Proof.
  induction p as [|c rest IH]; [done|]. cbn [Fuse.split_path].
  destruct (Fuse.split_path rest) as [h t]. cbn [fst snd] in *.
  destruct h as [|c' h'].
  - change (t = rest) in IH. subst. by case_bool_decide.
  - cbn [fst snd]. rewrite <- IH. reflexivity.
Qed.

Lemma split_path_slash p :
  Fuse.split_path (p +:+ "/") = (p +:+ "/", EmptyString).
Proof.
  induction p as [|c rest IH]; [done|].
  change (String c rest +:+ "/") with (String c (rest +:+ "/")).
  cbn [Fuse.split_path]. rewrite IH. by destruct rest.
Qed.

Lemma rstrip_slash_slash p :
  Fuse.rstrip_slash (p +:+ "/") = Fuse.rstrip_slash p.
Proof.
  induction p as [|c rest IH]; [done|].
  change (String c rest +:+ "/") with (String c (rest +:+ "/")).
  cbn [Fuse.rstrip_slash]. by rewrite IH.
Qed.

Lemma rstrip_slash_basename p :
  Fuse.basename p ≠ EmptyString -> Fuse.rstrip_slash p = p /\ p ≠ EmptyString.
Proof.
  unfold Fuse.basename.
  induction p as [|c rest IH]; [done|]. intros Hb. split; [|done].
  pose proof (split_path_concat rest) as Hcat.
  cbn [Fuse.split_path] in Hb.
  destruct (Fuse.split_path rest) as [h t]. cbn [fst snd] in *.
  cbn [Fuse.rstrip_slash].
  destruct rest as [|c2 rest2].
  - cbn. destruct h; [|done]. change (t = EmptyString) in Hcat. subst t.
    case_bool_decide; [done|]. done.
  - assert (t ≠ EmptyString) as Ht.
    { destruct h as [|c' h']; [|done].
      change (t = String c2 rest2) in Hcat. by subst t. }
    destruct (IH Ht) as [-> _]. done.
Qed.

Lemma os_path_split_slash p :
  Fuse.basename p ≠ EmptyString ->
  os_path_split (p +:+ "/") = (p, EmptyString).
Proof.
  intros Hb. destruct (rstrip_slash_basename p Hb) as [Hr Hne].
  unfold os_path_split, Fuse.dirname, Fuse.basename.
  rewrite split_path_slash. cbn [fst snd].
  rewrite rstrip_slash_slash, Hr. by destruct p.
Qed.

Section WithCollaborators.

Variable parse : string -> datetime.
Variable resolve_path : string -> option string.
Variable create_folder : string -> string -> Fuse.RequestError + Node.

(** X10: [sync_node_list] prints the failure line and leaves the session
    alone when one of the four listings fails; when all are fetched and the
    call returns from a session at rest, the stored folder ids are exactly
    the ids of the active and trashed folder listings, and likewise for
    files. *)
Theorem sync_node_list_outcome metadata s :
  (get_folder_list metadata = None \/ get_trashed_folders metadata = None \/
   get_file_list metadata = None \/ get_trashed_files metadata = None ->
   sync_node_list parse metadata s = Ok tt s ["Sync failed."]) /\
  (forall folders trashed_folders files trashed_files s' out,
     metadata = mkListings (Some folders) (Some trashed_folders)
                           (Some files) (Some trashed_files) ->
     at_rest s ->
     sync_node_list parse metadata s = Ok tt s' out ->
     at_rest s' /\
     (forall X, X ∈ fo_id <$> t_folders (durable s')
                <-> X ∈ id <$> (folders ++ trashed_folders)) /\
     (forall X, X ∈ fi_id <$> t_files (durable s')
                <-> X ∈ id <$> (files ++ trashed_files))).
Proof.
  split.
  - unfold sync_node_list. intros Hnone.
    destruct (get_folder_list metadata), (get_trashed_folders metadata),
      (get_file_list metadata), (get_trashed_files metadata);
      try done; destruct Hnone as [?|[?|[?|?]]]; done.
  - intros fl tf fi tfi s' out -> Hrest H. unfold sync_node_list in H.
    cbn [get_folder_list get_trashed_folders get_file_list get_trashed_files]
      in H.
    apply bind_Ok_inv in H as (cf & s1 & o1 & o2 & Hfo & H & ->).
    apply bind_Ok_inv in H as (ci & s2 & o2' & o3 & Hfi & H & ->).
    cbv [ret] in H. injection H as <- <-.
    apply insert_folders_full in Hfo as (Hfo & _ & Hrest1); [|apply Hrest..].
    apply insert_files_full in Hfi
      as (fs & Hfs & Hfi & Hfo2 & Hrest2 & _ & _); [|done].
    split; [done|]. rewrite Hfo2, Hfo, Hfi, (rows_of_ids parse _ fs Hfs).
    split; [|done]. intros X. rewrite list_elem_of_fmap. split.
    + intros (x & -> & Hx). by apply list_elem_of_filter in Hx as [? _].
    + intros HX.
      assert (X ∈ fo_id <$> upsert_all parse (t_folders (flushed s)) (fl ++ tf))
        as Hin by (apply upsert_all_ids; by right).
      apply list_elem_of_fmap in Hin as (x & -> & Hin).
      exists x. split; [done|]. by apply list_elem_of_filter.
Qed.

(** X11: [create_action] treats a trailing slash as optional: for a path
    with a non-empty last component, the path followed by a slash gives the
    same run; when the parent path does not resolve it prints a message and
    exits with code 2, and when the request fails it prints one line and
    leaves the session as it is. *)
Theorem create_action_trailing_slash new_folder s :
  Fuse.basename new_folder ≠ EmptyString ->
  create_action parse resolve_path create_folder (new_folder +:+ "/") s
  = create_action parse resolve_path create_folder new_folder s /\
  (resolve_path (Fuse.dirname new_folder) = None ->
   create_action parse resolve_path create_folder new_folder s
   = Ok (Some INVALID_ARG_RETVAL) s ["Invalid parent path."]) /\
  (forall p_path e,
     resolve_path (Fuse.dirname new_folder) = Some p_path ->
     p_path ≠ EmptyString ->
     create_folder (Fuse.basename new_folder) p_path = inl e ->
     exists line,
       create_action parse resolve_path create_folder new_folder s
       = Ok None s [line]).
Proof.
  intros Hb.
  split; [|split].
  - unfold create_action. rewrite os_path_split_slash by done.
    unfold os_path_split. by destruct (Fuse.basename new_folder).
  - intros Hp. unfold create_action, os_path_split.
    destruct (Fuse.basename new_folder); [done|]. by rewrite Hp.
  - intros p_path e Hp Hne He. unfold create_action, os_path_split.
    destruct (Fuse.basename new_folder) as [|c b] eqn:Hbn; [done|].
    rewrite Hp. destruct p_path; [done|]. rewrite He.
    case_bool_decide; eexists; reflexivity.
Qed.

End WithCollaborators.

Lemma sync_node_list_outcome_witness :
  sync_node_list sample_parse
    (mkListings (Some [docs]) (Some []) None (Some [])) stocked_session
  = Ok tt stocked_session ["Sync failed."].
Proof.
  apply (proj1 (sync_node_list_outcome sample_parse _ stocked_session)).
  right. right. by left.
Defined.

Lemma create_action_trailing_slash_witness :
  Fuse.basename "/my/dir" ≠ EmptyString /\
  create_action sample_parse
    (fun p => if bool_decide (p = "/my") then Some "F1" else None)
    (fun name_ parent => inr (mkNode "F9" (Some name_) "2015-02-01"
                                "2015-02-01" "AVAILABLE" [parent] "FOLDER"
                                None))
    "/my/dir/" stocked_session
  = create_action sample_parse
      (fun p => if bool_decide (p = "/my") then Some "F1" else None)
      (fun name_ parent => inr (mkNode "F9" (Some name_) "2015-02-01"
                                  "2015-02-01" "AVAILABLE" [parent] "FOLDER"
                                  None))
      "/my/dir" stocked_session.
Proof.
  assert (Fuse.basename "/my/dir" ≠ EmptyString) as Hb by done.
  split; [exact Hb|].
  exact (proj1 (create_action_trailing_slash sample_parse _ _ "/my/dir"
                  stocked_session Hb)).
Defined.

End CliFacts.

(** * Facts about the FUSE layer *)
Module FuseFacts.
Import Fuse.

(** ** WriteStream *)

Lemma WriteStream_write_offset data f :
  match WriteStream_write data f with
  | (inr _, f') => offset f' = offset f + len data
  | (inl e, f') =>
      f' = f /\ (e = FuseOSError EREMOTEIO \/ e = FuseOSError ETIMEDOUT)
  end.
Proof.
  unfold WriteStream_write. destruct (error f); [by auto|].
  case_bool_decide; cbn; auto.
Qed.

Lemma uploader_on_offset step f : offset (uploader_on step f) = offset f.
Proof.
  destruct step; cbn; [|done..]. unfold WriteStream_read.
  destruct (error f); [done|].
  destruct (closed f && bool_decide (q f = [])); [done|].
  by destruct (q f).
Qed.

Lemma stream_run_offset evs : forall f,
  offset (stream_run evs f).2 = offset f + buffered (stream_run evs f).1.
Proof.
  induction evs as [|ev evs IH]; intros f; cbn [stream_run].
  - cbn. lia.
  - destruct ev as [data|step]; cbn [stream_step].
    + pose proof (WriteStream_write_offset data f) as Hw.
      destruct (WriteStream_write data f) as [[e|[]] f1].
      * destruct Hw as [-> _]. specialize (IH f).
        destruct (stream_run evs f) as [ress f2]. cbn in *. lia.
      * specialize (IH f1).
        destruct (stream_run evs f1) as [ress f2]. cbn in *. lia.
    + specialize (IH (uploader_on step f)).
      rewrite uploader_on_offset in IH.
      destruct (stream_run evs (uploader_on step f)) as [ress f2].
      cbn in *. lia.
Qed.

(** C8: after any sequence of writes and uploader steps on a new stream,
    the offset of the stream is the number of bytes of the writes that
    returned; a write that returns advances the offset by the length of
    its data, a write that raises (error flag or full queue) leaves the
    stream as it was. *)
Theorem offset_counts_buffered_bytes :
  (forall evs,
     offset (stream_run evs WriteStream_init).2
     = buffered (stream_run evs WriteStream_init).1) /\
  (forall data f f',
     WriteStream_write data f = (inr tt, f') ->
     offset f' = offset f + len data) /\
  (forall data f e f',
     WriteStream_write data f = (inl e, f') ->
     offset f' = offset f /\
     (e = FuseOSError EREMOTEIO \/ e = FuseOSError ETIMEDOUT)).
Proof.
  split; [|split].
  - intros evs. by rewrite stream_run_offset.
  - intros data f f' Hw. pose proof (WriteStream_write_offset data f) as H.
    by rewrite Hw in H.
  - intros data f e f' Hw. pose proof (WriteStream_write_offset data f) as H.
    rewrite Hw in H. destruct H as [-> ?]. done.
Qed.

(** ** WriteProxy *)

Lemma write_wrong_offset wp node_id fh offset_ data :
  offset_ ≠ expected_offset wp fh ->
  exists wp',
    WriteProxy_write node_id fh offset_ data wp
    = (inl (FuseOSError ESPIPE), wp') /\ errored wp' fh.
Proof.
  intros Hne. unfold WriteProxy_write, expected_offset in *.
  rewrite bool_decide_eq_false_2 by done.
  eexists. split; [done|]. unfold errored. cbn.
  by rewrite lookup_insert_eq.
Qed.

Lemma write_errored wp node_id fh offset_ data :
  errored wp fh ->
  failed (Some (WriteProxy_write node_id fh offset_ data wp).1) /\
  errored (WriteProxy_write node_id fh offset_ data wp).2 fh.
Proof.
  unfold errored, failed. intros He.
  destruct (files wp !! fh) as [f|] eqn:Hf; [|done].
  cbn in He. injection He as He.
  unfold WriteProxy_write. rewrite Hf.
  change (default WriteStream_init (Some f)) with f.
  case_bool_decide.
  - unfold WriteStream_write. rewrite He. cbn.
    rewrite lookup_insert_eq. cbn. rewrite He. eauto.
  - cbn. rewrite lookup_insert_eq. eauto.
Qed.

Lemma wp_step_errored ev wp fh :
  errored wp fh -> ev ≠ wp_release fh ->
  errored (wp_step ev wp).2 fh /\
  (forall node_id offset_ data,
     ev = wp_write node_id fh offset_ data -> failed (wp_step ev wp).1).
Proof.
  intros He Hev. destruct ev as [node_id fh' offset_ data|fh'|step fh'].
  - cbn [wp_step].
    destruct (WriteProxy_write node_id fh' offset_ data wp) as [res wp'] eqn:Hw.
    cbn. destruct (decide (fh' = fh)) as [->|Hfh].
    + pose proof (write_errored wp node_id fh offset_ data He) as [Hf He'].
      rewrite Hw in Hf, He'. split; [done|]. intros; done.
    + split; [|intros ? ? ? [=]; congruence].
      unfold WriteProxy_write in Hw. unfold errored in *.
      repeat case_match; simplify_eq; cbn;
        by rewrite lookup_insert_ne.
  - assert (fh' ≠ fh) as Hfh by congruence.
    split; [|intros; done].
    cbn [wp_step]. unfold WriteProxy_release, errored in *.
    repeat case_match; simplify_eq; cbn;
      rewrite ?lookup_insert_ne, ?lookup_delete_ne; done.
  - split; [|intros; done]. cbn [wp_step snd]. unfold uploader, errored in *.
    destruct (files wp !! fh') as [f'|] eqn:Hf'; [|done]. cbn.
    destruct (decide (fh' = fh)) as [->|Hfh].
    + rewrite lookup_insert_eq. rewrite Hf' in He. cbn in *.
      injection He as He. f_equal.
      destruct step; cbn; [|done..]. unfold WriteStream_read. by rewrite He.
    + by rewrite lookup_insert_ne.
Qed.

Lemma wp_run_errored evs : forall wp fh,
  errored wp fh -> wp_release fh ∉ evs ->
  errored (wp_run evs wp).2 fh /\
  (forall node_id offset_ data res,
     (wp_write node_id fh offset_ data, res) ∈ (wp_run evs wp).1 ->
     failed res).
Proof.
  induction evs as [|ev evs IH]; intros wp fh He Hrel; cbn [wp_run].
  - split; [done|]. intros ? ? ? ? Hin. by apply elem_of_nil in Hin.
  - apply not_elem_of_cons in Hrel as [Hev Hrel].
    destruct (wp_step_errored ev wp fh He) as [He1 Hres]; [congruence|].
    destruct (wp_step ev wp) as [res wp1]. cbn in He1, Hres.
    destruct (IH wp1 fh He1 Hrel) as [He2 Hress].
    destruct (wp_run evs wp1) as [ress wp2]. cbn in *.
    split; [done|]. intros node_id offset_ data res' Hin.
    apply elem_of_cons in Hin as [[= <- <-]|Hin]; [by eapply Hres|].
    by eapply Hress.
Qed.

Lemma uploader_on_benign step f :
  step ≠ uploader_failed ->
  error (uploader_on step f) = error f /\
  (length (q (uploader_on step f)) <= length (q f))%nat.
Proof.
  intros Hs. destruct step; [|done|by cbn].
  cbn. unfold WriteStream_read.
  destruct (error f) eqn:He; [cbn; by rewrite He|].
  destruct (closed f && bool_decide (q f = [])); [cbn; by rewrite He|].
  destruct (q f) eqn:Hq; cbn; [by rewrite He, Hq|]. split; [done|lia].
Qed.

Lemma benign_steps ups : forall wp fh f,
  Forall benign ups -> files wp !! fh = Some f ->
  exists f',
    files (wp_run ups wp).2 !! fh = Some f' /\
    error f' = error f /\ offset f' = offset f /\
    (length (q f') <= length (q f))%nat.
Proof.
  induction ups as [|ev ups IH]; intros wp fh f Hb Hf; cbn [wp_run].
  - exists f. cbn. by repeat split.
  - apply Forall_cons in Hb as [Hev Hb].
    destruct ev as [| |step fh']; [done..|]. cbn [wp_step].
    assert (step ≠ uploader_failed) as Hs by (by destruct step).
    assert (exists f1, files (uploader step fh' wp) !! fh = Some f1 /\
              error f1 = error f /\ offset f1 = offset f /\
              (length (q f1) <= length (q f))%nat) as (f1 & Hf1 & He & Ho & Hq).
    { unfold uploader. destruct (files wp !! fh') as [g|] eqn:Hg.
      - cbn. destruct (decide (fh' = fh)) as [->|Hne].
        + rewrite lookup_insert_eq. rewrite Hf in Hg. injection Hg as <-.
          eexists. split; [done|].
          rewrite uploader_on_offset.
          by destruct (uploader_on_benign step f Hs).
        + rewrite lookup_insert_ne by done. exists f. by repeat split.
      - exists f. by repeat split. }
    destruct (IH _ fh f1 Hb Hf1) as (f' & Hf' & He' & Ho' & Hq').
    destruct (wp_run ups (uploader step fh' wp)) as [ress wp2]. cbn in *.
    exists f'. repeat split; [done|congruence|congruence|lia].
Qed.

Lemma first_write node_id fh first :
  WriteProxy_write node_id fh 0 first WriteProxy_init
  = (inr tt,
     mkWriteProxy
       (<[fh := mkWriteStream [first] (len first) false false false]> ∅)
       [(fh, node_id)]).
Proof.
  unfold WriteProxy_write, WriteProxy_init. cbn [files threads].
  rewrite lookup_empty. reflexivity.
Qed.

(** C4: a write whose offset is not the one the stream expects raises
    ESPIPE and sets the error flag of the stream; while the handle is not
    released, the flag stays and every write on the handle raises; a first
    write at offset 4096 raises ESPIPE; a first write at offset 0 and a
    write at the length of its data both return, whatever the uploader
    reads in between. *)
Theorem write_sequencing :
  (forall wp node_id fh offset_ data,
     offset_ ≠ expected_offset wp fh ->
     exists wp',
       WriteProxy_write node_id fh offset_ data wp
       = (inl (FuseOSError ESPIPE), wp') /\ errored wp' fh) /\
  (forall wp fh evs,
     errored wp fh -> wp_release fh ∉ evs ->
     errored (wp_run evs wp).2 fh /\
     forall node_id offset_ data res,
       (wp_write node_id fh offset_ data, res) ∈ (wp_run evs wp).1 ->
       failed res) /\
  (forall node_id fh data,
     exists wp',
       WriteProxy_write node_id fh 4096 data WriteProxy_init
       = (inl (FuseOSError ESPIPE), wp')) /\
  (forall node_id node_id' fh first second ups,
     Forall benign ups ->
     exists wp1 wp2,
       WriteProxy_write node_id fh 0 first WriteProxy_init = (inr tt, wp1) /\
       WriteProxy_write node_id' fh (len first) second (wp_run ups wp1).2
       = (inr tt, wp2)).
Proof.
  split; [|split; [|split]].
  - apply write_wrong_offset.
  - intros wp fh evs. apply wp_run_errored.
  - intros node_id fh data.
    destruct (write_wrong_offset WriteProxy_init node_id fh 4096 data)
      as (wp' & Hw & _); [done|]. eauto.
  - intros node_id node_id' fh first second ups Hb.
    rewrite first_write.
    match goal with |- context [(inr tt, ?wp1)] =>
      destruct (benign_steps ups wp1 fh
                  (mkWriteStream [first] (len first) false false false) Hb)
        as (f' & Hf' & He & Ho & Hq) end.
    { cbn [files]. by rewrite lookup_insert_eq. }
    eexists _, _. split; [reflexivity|].
    unfold WriteProxy_write at 1. rewrite Hf'.
    change (default WriteStream_init (Some f')) with f'.
    rewrite bool_decide_eq_true_2 by done.
    unfold WriteStream_write. rewrite He. cbn [error].
    rewrite bool_decide_eq_true_2; [reflexivity|].
    cbn in Hq. unfold WRITE_BUFFER_SZ. cbn. lia.
Qed.

Lemma write_sequencing_witness :
  4096 ≠ expected_offset WriteProxy_init 3 /\
  errored (WriteProxy_write "X1" 3 4096 [Byte.x00] WriteProxy_init).2 3 /\
  (WriteProxy_write "X1" 3 0 [Byte.x00] WriteProxy_init).1 = inr tt.
Proof.
  assert (4096 ≠ expected_offset WriteProxy_init 3) as Hne by done.
  destruct write_sequencing as (Hwrong & _ & _ & Hseq).
  split; [exact Hne|]. split.
  - destruct (Hwrong WriteProxy_init "X1" 3 4096 [Byte.x00] Hne)
      as (wp' & Hw & He).
    rewrite Hw. exact He.
  - destruct (Hseq "X1" "" 3 [Byte.x00] [] []) as (wp1 & wp2 & Hw & _).
    + constructor.
    + rewrite Hw. reflexivity.
Defined.

(** ** ReadProxy *)

Lemma StreamChunk_get_sid length c :
  c_sid (StreamChunk_get length c).2 = c_sid c.
Proof.
  unfold StreamChunk_get. destruct (take _ _); [done|].
  by destruct (_ && _).
Qed.

Lemma search_chunks_length n offset_ length_ : forall q,
  (length (search_chunks n offset_ length_ q).2 <= length q)%nat.
Proof.
  induction n as [|i IH]; intros q; cbn [search_chunks]; [done|].
  destruct (q !! i) as [c|] eqn:Hc; [|done].
  destruct (has_byte_range c offset_ length_); [|apply IH].
  destruct (StreamChunk_get length_ c) as [[e|b] c'].
  - etrans; [apply IH|]. rewrite length_delete by eauto. lia.
  - cbn. by rewrite length_insert.
Qed.

Lemma search_chunks_order n offset_ length_ : forall q,
  (c_sid <$> (search_chunks n offset_ length_ q).2) `sublist_of` (c_sid <$> q).
Proof.
  induction n as [|i IH]; intros q; cbn [search_chunks]; [done|].
  destruct (q !! i) as [c|] eqn:Hc; [|done].
  destruct (has_byte_range c offset_ length_); [|apply IH].
  pose proof (StreamChunk_get_sid length_ c) as Hsid.
  destruct (StreamChunk_get length_ c) as [[e|b] c'].
  - etrans; [apply IH|]. apply fmap_sublist, sublist_delete.
  - cbn in *. rewrite list_fmap_insert, Hsid.
    rewrite list_insert_id; [done|]. by rewrite list_lookup_fmap, Hc.
Qed.

Lemma search_chunks_miss n offset_ length_ q :
  Forall (fun c => has_byte_range c offset_ length_ = false) q ->
  search_chunks n offset_ length_ q = (None, q).
Proof.
  intros Hq. induction n as [|i IH]; cbn [search_chunks]; [done|].
  destruct (q !! i) as [c|] eqn:Hc; [|done].
  rewrite (proj1 (Forall_lookup _ _) Hq i c Hc). apply IH.
Qed.

Lemma deque_append_length c q :
  (length q <= MAX_CHUNKS_PER_FILE)%nat ->
  (length (deque_append c q) <= MAX_CHUNKS_PER_FILE)%nat.
Proof.
  intros Hq. unfold deque_append. case_bool_decide.
  - rewrite length_app. cbn. lia.
  - rewrite length_app, length_drop. cbn. unfold MAX_CHUNKS_PER_FILE in *. lia.
Qed.

Section WithCollaborators.

Context `{Constants} {Client : Type} `{!ACDClient Client}.

Lemma ReadFile_get_bounded id_ offset_ length_ total f (net : Net Client) :
  (length (chunks f) <= MAX_CHUNKS_PER_FILE)%nat ->
  (length (chunks (ReadFile_get id_ offset_ length_ total f net).1.2)
   <= MAX_CHUNKS_PER_FILE)%nat.
Proof.
  intros Hf. unfold ReadFile_get.
  pose proof (search_chunks_length (length (chunks f)) offset_ length_
                (chunks f)) as Hs.
  destruct (search_chunks _ _ _ _) as [[b|] q0]; cbn in Hs.
  - cbn. lia.
  - destruct (response_chunk _ _ _ _) as [[e|r] cl]; [cbn; lia|].
    destruct (StreamChunk_get _ _) as [res c']. cbn.
    apply deque_append_length. lia.
Qed.

Lemma ReadFile_get_closes_nothing id_ offset_ length_ total f
    (net : Net Client) :
  closed_streams (ReadFile_get id_ offset_ length_ total f net).2
  = closed_streams net.
Proof.
  unfold ReadFile_get.
  destruct (search_chunks _ _ _ _) as [[b|] q0]; [done|].
  destruct (response_chunk _ _ _ _) as [[e|r] cl]; [done|].
  by destruct (StreamChunk_get _ _).
Qed.

Lemma rp_step_bounded ev (st : gmap string ReadFile * Net Client) :
  bounded st.1 -> bounded (rp_step ev st).1.
Proof.
  intros Hb. destruct st as [rp net]. destruct ev as [id_ o l t|id_].
  - cbn [rp_step fst snd]. unfold ReadProxy_get.
    pose proof (ReadFile_get_bounded id_ o l t
                  (default (mkReadFile []) (rp !! id_)) net) as Hg.
    destruct (ReadFile_get _ _ _ _ _ _) as [[res f'] net']. cbn in *.
    intros i f Hi. destruct (decide (id_ = i)) as [->|Hne].
    + rewrite lookup_insert_eq in Hi. injection Hi as <-. apply Hg.
      destruct (rp !! i) as [f0|] eqn:Hf0; cbn; [by eapply Hb|].
      unfold MAX_CHUNKS_PER_FILE. lia.
    + rewrite lookup_insert_ne in Hi by done. by eapply Hb.
  - cbn [rp_step fst snd]. unfold ReadProxy_release.
    destruct (rp !! id_) as [f0|] eqn:Hf0; [|done]. cbn.
    intros i f Hi. destruct (decide (id_ = i)) as [->|Hne].
    + rewrite lookup_insert_eq in Hi. injection Hi as <-. cbn.
      unfold MAX_CHUNKS_PER_FILE. lia.
    + rewrite lookup_insert_ne in Hi by done. by eapply Hb.
Qed.

Lemma rp_run_bounded evs : forall (st : gmap string ReadFile * Net Client),
  bounded st.1 -> bounded (rp_run evs st).1.
Proof.
  unfold rp_run. induction evs as [|ev evs IH]; intros st Hb; [done|].
  cbn [foldl]. apply IH. by apply rp_step_bounded.
Qed.


End WithCollaborators.



(** ** ACDFuse *)

Section Dispatcher.

Context `{Constants} {Client Cache : Type}
        `{!ACDClient Client} `{!NodeCache Cache}.

Implicit Types st : @FS Client Cache.

(** C10: for a name outside the recognised attributes [getxattr] raises
    ENODATA at once, whatever the path and the cache: the state is
    untouched and the trace is empty, so the path is not resolved. *)
Theorem getxattr_unknown_name st path name position :
  name ∉ XATTRS_vars -> name ∉ FXATTRS_vars ->
  getxattr path name position st = (inl (FuseOSError ENODATA), st, []).
Proof.
  intros H1 H2. unfold getxattr.
  by rewrite !bool_decide_eq_true_2 by done.
Qed.

(** C7: when the path resolves to a node with a size, [read] returns the
    empty byte string without calling the read proxy if the size is zero
    or equal to the offset (the state is untouched: no stream is opened),
    and otherwise returns what [ReadProxy.get] returns. *)
Theorem read_short_circuit st path length_ offset_ fh_ n size :
  resolve path (Some false) (cache st) = Some n ->
  n_size n = Some size ->
  (size = 0 \/ size = offset_ ->
   read path length_ offset_ fh_ st
   = (inr [], st, [EvResolve path (Some false)])) /\
  (size ≠ 0 -> size ≠ offset_ ->
   read path length_ offset_ fh_ st
   = let '(res, rp', net') :=
       ReadProxy_get (n_id n) offset_ length_ size (rp st) (net st) in
     (res, mkFS (cache st) net' rp' (wp st) (fh st),
      [EvResolve path (Some false)])).
Proof.
  intros Hn Hs. unfold read.
  cbv [mbind F_bind bind cache_resolve attribute ret]. rewrite Hn, Hs.
  split.
  - intros [->| ->].
    + by rewrite bool_decide_eq_true_2.
    + rewrite (bool_decide_eq_true_2 (offset_ = offset_)) by done.
      by rewrite orb_true_r.
  - intros H0 Ho. rewrite !bool_decide_eq_false_2 by done. cbn [orb].
    unfold rp_get.
    by destruct (ReadProxy_get _ _ _ _ _ _) as [[res rp'] net'].
Qed.

(** *** File handles *)

#[local] Abbreviation steady := (steady (Client := Client) (Cache := Cache)).
#[local] Abbreviation handing := (handing (Client := Client) (Cache := Cache)).

Lemma steady_ret {A} (a : A) : steady (mret a).
Proof. done. Qed.

Lemma steady_raise {A} e : steady (raise (A := A) e).
Proof. done. Qed.

Lemma steady_bind {A B} (m : F A) (k : A -> F B) :
  steady m -> (forall a, steady (k a)) -> steady (m ≫= k).
Proof.
  intros Hm Hk st. cbv [mbind F_bind bind]. specialize (Hm st).
  destruct (m st) as [[[e|a] st1] tr1]; [done|].
  specialize (Hk a st1). destruct (k a st1) as [[r st2] tr2].
  cbn in *. congruence.
Qed.

Lemma handing_bind {A} (m : F A) (k : A -> F Z) :
  steady m -> (forall a, handing (k a)) -> handing (m ≫= k).
Proof.
  intros Hm Hk st. cbv [mbind F_bind bind]. specialize (Hm st).
  destruct (m st) as [[[e|a] st1] tr1]; [done|].
  specialize (Hk a st1). destruct (k a st1) as [[[e|h] st2] tr2];
    cbn in *; [congruence|]. destruct Hk. split; congruence.
Qed.

Lemma steady_resolve path trash : steady (cache_resolve path trash).
Proof. done. Qed.

Lemma steady_request_and_insert op : steady (request_and_insert op).
Proof.
  intros st. unfold request_and_insert.
  cbv [mbind F_bind bind client_request].
  destruct (request op (client (net st))) as [[e|r] cl]; done.
Qed.

Lemma steady_attribute {A} node (field : CNode -> option A) :
  steady (attribute node field).
Proof.
  unfold attribute. destruct node as [n|]; [|done]. by destruct (field n).
Qed.

Lemma steady_trash path : steady (_trash path).
Proof.
  apply steady_bind; [done|]. intros [n|]; [|done].
  apply steady_request_and_insert.
Qed.

Lemma steady_getxattr path name position : steady (getxattr path name position).
Proof.
  unfold getxattr. destruct (_ && _); [done|].
  apply steady_bind; [done|]. intros node.
  repeat case_bool_decide;
    try (apply steady_bind; [apply steady_attribute|done]); done.
Qed.

Lemma steady_read path length_ offset_ fh_ :
  steady (read path length_ offset_ fh_).
Proof.
  apply steady_bind; [done|]. intros [n|]; [|done].
  apply steady_bind; [apply steady_attribute|]. intros size.
  destruct (_ || _); [done|]. intros st. unfold rp_get.
  by destruct (ReadProxy_get _ _ _ _ _ _) as [[res rp'] net'].
Qed.

Lemma steady_rename old new : steady (rename old new).
Proof.
  unfold rename. case_bool_decide; [done|].
  apply steady_bind; [done|]. intros [node|]; [|done].
  apply steady_bind; [done|]. intros existing.
  apply steady_bind.
  { destruct existing as [existing|]; [|done].
    destruct (is_file existing); [apply steady_trash|done]. }
  intros _. apply steady_bind.
  { case_bool_decide; [apply steady_request_and_insert|done]. }
  intros _. case_bool_decide; [|done].
  apply steady_bind; [done|]. intros [ndir|]; [|done].
  apply steady_request_and_insert.
Qed.

Lemma steady_write path data offset_ fh_ : steady (write path data offset_ fh_).
Proof.
  apply steady_bind.
  { case_bool_decide; [|done].
    apply steady_bind; [done|]. intros n. apply steady_attribute. }
  intros node_id. apply steady_bind; [|done].
  intros st. unfold wp_write_.
  by destruct (WriteProxy_write _ _ _ _ _) as [res wp'].
Qed.

Lemma handing_next_handle : handing next_handle.
Proof. intros st. by cbn. Qed.

Lemma handing_open path flags : handing (open path flags).
Proof.
  unfold open. case_bool_decide; [by intros st|apply handing_next_handle].
Qed.

Lemma handing_create path mode : handing (create path mode).
Proof.
  apply handing_bind; [done|]. intros [p|]; [|by intros st].
  apply handing_bind; [apply steady_request_and_insert|].
  intros _. apply handing_next_handle.
Qed.

Lemma perform_handle c st :
  let '(res, st', _) := perform c st in
  match handles [(c, res)] with
  | [] => fh st' = fh st
  | h :: _ => handles [(c, res)] = [h] /\ h = fh st + 1 /\ fh st' = h
  end.
Proof.
  destruct c; cbn [perform]; cbv [mbind F_bind bind ret rmdir unlink].
  - pose proof (steady_getxattr path name position st) as Hs.
    by destruct (getxattr _ _ _ st) as [[[e|b] st'] tr].
  - pose proof (steady_read path length offset_ fh_ st) as Hs.
    by destruct (read _ _ _ _ st) as [[[e|b] st'] tr].
  - pose proof (steady_trash path st) as Hs.
    by destruct (_trash _ st) as [[[e|[]] st'] tr].
  - pose proof (steady_trash path st) as Hs.
    by destruct (_trash _ st) as [[[e|[]] st'] tr].
  - pose proof (handing_create path mode st) as Hh.
    destruct (create path mode st) as [[[e|h] st'] tr]; cbn in *; [done|].
    by destruct Hh.
  - pose proof (steady_rename old new st) as Hs.
    by destruct (rename _ _ st) as [[[e|[]] st'] tr].
  - pose proof (handing_open path flags st) as Hh.
    destruct (open path flags st) as [[[e|h] st'] tr]; cbn in *; [done|].
    by destruct Hh.
  - pose proof (steady_write path data offset_ fh_ st) as Hs.
    by destruct (write _ _ _ _ st) as [[[e|n] st'] tr].
Qed.

Lemma perform_all_handles cs : forall st,
  let hs := handles (perform_all cs st).1 in
  StronglySorted Z.lt hs /\
  Forall (fun h => fh st < h <= fh (perform_all cs st).2) hs /\
  fh st <= fh (perform_all cs st).2.
Proof.
  induction cs as [|c cs IH]; intros st; cbn [perform_all].
  - cbn. split; [constructor|]. split; [constructor|lia].
  - pose proof (perform_handle c st) as Hc.
    destruct (perform c st) as [[res st1] tr].
    specialize (IH st1). destruct (perform_all cs st1) as [ress st2].
    cbn [fst snd] in *. destruct IH as (Hsorted & Hall & Hle).
    assert (handles ((c, res) :: ress) = handles [(c, res)] ++ handles ress)
      as -> by (destruct c, res as [|[]]; reflexivity).
    destruct (handles [(c, res)]) as [|h hs'].
    + cbn. rewrite <- Hc. done.
    + destruct Hc as ([= ->] & -> & Hfh). cbn.
      split; [|split; [|lia]].
      * constructor; [done|]. eapply Forall_impl; [exact Hall|].
        cbn. intros; lia.
      * constructor; [lia|]. eapply Forall_impl; [exact Hall|].
        cbn. intros; lia.
Qed.


(** *** rename *)

Local Ltac rename_cases :=
  repeat (first [case_bool_decide | case_match]; simplify_eq; cbn);
  (split; [done|]); (split; [done|]);
  first [ by (eexists; split; [|intros _; reflexivity];
              apply prefix_app_r || done)
        | by (exists EmptyString; split; [|done]; eexists; reflexivity) ].


End Dispatcher.

(** ** Write streams: data, end of file, back-pressure *)

Lemma WriteStream_read_queue f :
  concat (q f)
  = match (WriteStream_read f).1 with Some (inr b) => b | _ => [] end
    ++ concat (q (WriteStream_read f).2).
Proof.
  unfold WriteStream_read. destruct (error f); [done|].
  destruct (q f) as [|b l] eqn:Hl.
  - rewrite bool_decide_eq_true_2 by done.
    destruct (closed f); cbn; by rewrite Hl.
  - rewrite bool_decide_eq_false_2 by done. rewrite andb_false_r.
    cbn [fst snd q concat]. by rewrite app_nil_r.
Qed.

Lemma stream_step_queue ev f :
  concat (q f) ++ written [(ev, (stream_step ev f).1)]
  = match ev, (WriteStream_read f).1 with
    | st_uploader uploader_read, Some (inr b) => b
    | _, _ => []
    end ++ concat (q (stream_step ev f).2).
Proof.
  destruct ev as [data|step]; cbn [stream_step].
  - unfold WriteStream_write. destruct (error f); [cbn; by rewrite app_nil_r|].
    case_bool_decide; cbn; [|by rewrite app_nil_r].
    by rewrite concat_app.
  - cbn [fst snd written]. rewrite app_nil_r.
    destruct step; cbn [uploader_on]; [apply WriteStream_read_queue|done..].
Qed.

Lemma written_cons r rs : written (r :: rs) = written [r] ++ written rs.
Proof.
  destruct r as [[data|step] [[e|[]]|]]; cbn; by rewrite ?app_nil_r.
Qed.

(** X12: nothing is lost, duplicated or reordered between
    [WriteStream.write] and [WriteStream.read]: after any sequence of
    writes and uploader steps, the bytes queued at the start followed by
    the data of the writes that returned are the bytes handed to the
    uploader followed by the bytes still queued. *)
Theorem stream_round_trip evs : forall f,
  concat (q f) ++ written (stream_run evs f).1
  = uploaded evs f ++ concat (q (stream_run evs f).2).
Proof.
  induction evs as [|ev evs IH]; intros f.
  - cbn. by rewrite app_nil_r.
  - cbn [stream_run uploaded]. specialize (IH (stream_step ev f).2).
    pose proof (stream_step_queue ev f) as Hs.
    destruct (stream_step ev f) as [res f1]. cbn [fst snd] in *.
    destruct (stream_run evs f1) as [ress f2]. cbn [fst snd] in *.
    rewrite written_cons, app_assoc, Hs, <- !app_assoc. by rewrite IH.
Qed.


(** X13: [WriteStream.close] sets the closed flag, and a closed stream
    never blocks its reader; after a close on a healthy stream with room in
    the queue, the next read returns all pending data and the read after it
    returns the empty byte string, the end of file. *)
Theorem close_signals_eof :
  (forall f, closed (WriteStream_close f).2 = true) /\
  (forall f, closed f = true ->
     (WriteStream_read f).1 ≠ None /\ closed (WriteStream_read f).2 = true) /\
  (forall f,
     error f = false -> (length (q f) < WRITE_BUFFER_SZ)%nat ->
     let f1 := (WriteStream_close f).2 in
     let f2 := (WriteStream_read f1).2 in
     (WriteStream_read f1).1 = Some (inr (concat (q f))) /\
     WriteStream_read f2 = (Some (inr []), f2)).
Proof.
  split; [|split].
  - intros f. unfold WriteStream_close. case_bool_decide; [|done].
    destruct (error f); [done|]. by destruct (done f).
  - intros f Hc. unfold WriteStream_read. rewrite Hc.
    destruct (error f); [done|]. cbn [andb].
    case_bool_decide; [done|]. by destruct (q f).
  - intros f He Hq. unfold WriteStream_close.
    rewrite bool_decide_eq_true_2 by done. rewrite He.
    assert (forall b, (WriteStream_read
              {| q := q f ++ [[]]; offset := offset f; error := false;
                 closed := true; done := b |})
            = (Some (inr (concat (q f))),
               {| q := []; offset := offset f; error := false;
                  closed := true; done := b |})) as Hr.
    { intros b. unfold WriteStream_read. cbn [error closed q andb].
      rewrite bool_decide_eq_false_2 by (by destruct (q f)).
      destruct (q f ++ [[]]) as [|x l] eqn:Hl; [by destruct (q f)|].
      rewrite <- Hl, concat_app. cbn. by rewrite app_nil_r. }
    destruct (done f); cbn [snd]; rewrite Hr; cbn [fst snd];
      (split; [done|]); reflexivity.
Qed.

Lemma WriteStream_write_length data f :
  (length (q f) <= WRITE_BUFFER_SZ)%nat ->
  (length (q (WriteStream_write data f).2) <= WRITE_BUFFER_SZ)%nat.
Proof.
  intros Hq. unfold WriteStream_write. destruct (error f); [done|].
  case_bool_decide; [|done]. cbn. rewrite length_app. cbn.
  change WRITE_BUFFER_SZ with 32%nat in *. lia.
Qed.

Lemma stream_run_length evs : forall f,
  (length (q f) <= WRITE_BUFFER_SZ)%nat ->
  (length (q (stream_run evs f).2) <= WRITE_BUFFER_SZ)%nat.
Proof.
  induction evs as [|ev evs IH]; intros f Hq; [done|].
  cbn [stream_run].
  assert (length (q (stream_step ev f).2) <= WRITE_BUFFER_SZ)%nat as H1.
  { destruct ev as [data|step]; cbn [stream_step].
    - pose proof (WriteStream_write_length data f Hq).
      by destruct (WriteStream_write data f).
    - cbn [snd]. destruct step; cbn; [|done..].
      unfold WriteStream_read. destruct (error f); [done|].
      destruct (_ && _); [done|].
      destruct (q f) eqn:Hl; cbn; [by rewrite Hl|lia]. }
  specialize (IH _ H1). destruct (stream_step ev f) as [res f1].
  cbn [snd] in IH. by destruct (stream_run evs f1).
Qed.

(** X14: a stream never queues more than [WRITE_BUFFER_SZ] blocks; a write
    that times out found the queue full, leaves the stream as it was
    without setting the error flag, and returns once the uploader has
    read. *)
Theorem queue_bounded_timeout_retry :
  (forall evs,
     (length (q (stream_run evs WriteStream_init).2) <= WRITE_BUFFER_SZ)%nat) /\
  (forall data f f',
     WriteStream_write data f = (inl (FuseOSError ETIMEDOUT), f') ->
     f' = f /\ error f = false /\ (WRITE_BUFFER_SZ <= length (q f))%nat /\
     exists f'',
       WriteStream_write data (uploader_on uploader_read f) = (inr tt, f'') /\
       offset f'' = offset f + len data).
Proof.
  split.
  - intros evs. apply stream_run_length. cbn. lia.
  - intros data f f'. unfold WriteStream_write at 1.
    destruct (error f) eqn:He; [done|]. case_bool_decide as Hq; [done|].
    intros [= <-]. split; [done|]. split; [done|]. split; [lia|].
    cbn [uploader_on]. unfold WriteStream_read. rewrite He.
    rewrite bool_decide_eq_false_2, andb_false_r.
    2:{ intros Hn. rewrite Hn in Hq. change WRITE_BUFFER_SZ with 32%nat in Hq.
        cbn in Hq. lia. }
    destruct (q f) as [|b l] eqn:Hl.
    { change WRITE_BUFFER_SZ with 32%nat in Hq. cbn in Hq. lia. }
    cbn [snd]. unfold WriteStream_write. cbn [error q].
    rewrite bool_decide_eq_true_2
      by (change WRITE_BUFFER_SZ with 32%nat; cbn; lia).
    eexists. split; [reflexivity|]. done.
Qed.

(** X16: a [WriteProxy.release] that returns or raises deletes the stream
    of the handle and no other, and starts or forgets no uploader; it
    raises only EREMOTEIO, for a stream with the error flag; afterwards a
    write at offset 0 on the handle returns. *)
Theorem release_forgets_handle wp fh res wp' :
  WriteProxy_release fh wp = (Some res, wp') ->
  files wp' !! fh = None /\
  (forall fh', fh' ≠ fh -> files wp' !! fh' = files wp !! fh') /\
  threads wp' = threads wp /\
  (res = inr tt \/ (res = inl (FuseOSError EREMOTEIO) /\ errored wp fh)) /\
  forall node_id data,
    exists wp'', WriteProxy_write node_id fh 0 data wp' = (inr tt, wp'').
Proof.
  unfold WriteProxy_release. intros Hr.
  assert (files wp' !! fh = None /\
          (forall fh', fh' ≠ fh -> files wp' !! fh' = files wp !! fh') /\
          threads wp' = threads wp /\
          (res = inr tt \/
           (res = inl (FuseOSError EREMOTEIO) /\ errored wp fh)))
    as (Hnone & Hother & Hthr & Hres).
  { destruct (files wp !! fh) as [f|] eqn:Hf.
    - destruct (WriteStream_close f) as [[r|] f1] eqn:Hc; [|done].
      injection Hr as <- <-. cbn [files threads].
      rewrite lookup_delete_eq. split; [done|]. split.
      { intros fh' Hne. by rewrite lookup_delete_ne. }
      split; [done|]. unfold WriteStream_close in Hc. unfold errored.
      rewrite Hf. cbn. case_bool_decide; [|done].
      destruct (error f); [injection Hc as <- _; by right|].
      destruct (done f); [injection Hc as <- _; by left|done].
    - injection Hr as <- <-. split; [done|]. split; [done|]. split; [done|].
      by left. }
  repeat split; try done.
  intros node_id data. unfold WriteProxy_write. rewrite Hnone.
  cbn [default]. unfold WriteStream_write, WriteStream_init. cbn.
  eexists. reflexivity.
Qed.

(** X17: the uploader threads started over any sequence of calls are, in
    order, one per write at offset 0 that returned, with the node id the
    write was given. *)
Theorem uploader_per_first_write evs : forall wp,
  threads (wp_run evs wp).2 = threads wp ++ started (wp_run evs wp).1.
Proof.
  induction evs as [|ev evs IH]; intros wp; cbn [wp_run].
  - cbn. by rewrite app_nil_r.
  - assert (threads (wp_step ev wp).2
            = threads wp ++ started [(ev, (wp_step ev wp).1)]) as Hs.
    { destruct ev as [node_id fh offset_ data|fh|step fh]; cbn [wp_step].
      - unfold WriteProxy_write. case_bool_decide; [|cbn; by rewrite app_nil_r].
        destruct (WriteStream_write _ _) as [[e|[]] f'];
          cbn; [by rewrite app_nil_r|].
        case_bool_decide; cbn; by rewrite ?app_nil_r.
      - unfold WriteProxy_release. destruct (files wp !! fh) as [f|].
        + destruct (WriteStream_close f) as [[r|] f1];
            cbn; rewrite ?app_nil_r; try done; by destruct r as [|[]].
        + cbn. by rewrite app_nil_r.
      - cbn. rewrite app_nil_r. unfold uploader.
        by destruct (files wp !! fh). }
    specialize (IH (wp_step ev wp).2).
    destruct (wp_step ev wp) as [res wp1]. cbn [fst snd] in *.
    destruct (wp_run evs wp1) as [ress wp2]. cbn [fst snd] in *.
    rewrite IH, Hs, <- app_assoc. f_equal.
    destruct ev as [node_id fh offset_ data|fh|step fh], res as [[e|[]]|];
      cbn; by rewrite ?app_nil_r, <- ?app_assoc.
Qed.

Lemma WriteStream_read_drains f :
  error f = false ->
  error (WriteStream_read f).2 = false /\ q (WriteStream_read f).2 = [].
Proof.
  intros He. unfold WriteStream_read. rewrite He.
  destruct (q f) as [|b l] eqn:Hq.
  - rewrite bool_decide_eq_true_2 by done.
    destruct (closed f); cbn; by rewrite ?He, ?Hq.
  - rewrite bool_decide_eq_false_2 by done. rewrite andb_false_r. cbn.
    by rewrite ?He.
Qed.

(** X15: [WriteProxy.flush] waits exactly when the handle has a healthy
    stream with queued blocks, raises EREMOTEIO on a stream with the error
    flag, and never waits right after the uploader has read. *)
Theorem flush_waits_for_queue wp fh :
  (WriteProxy_flush fh wp = None <->
   exists f, files wp !! fh = Some f /\ error f = false /\ q f ≠ []) /\
  (errored wp fh ->
   WriteProxy_flush fh wp = Some (inl (FuseOSError EREMOTEIO))) /\
  WriteProxy_flush fh (uploader uploader_read fh wp) ≠ None.
Proof.
  unfold WriteProxy_flush, WriteStream_flush, errored, uploader.
  destruct (files wp !! fh) as [f|] eqn:Hf.
  - split; [|split].
    + destruct (error f) eqn:He.
      { split; [done|]. intros (g & [= <-] & Hg & _). congruence. }
      case_bool_decide as Hq.
      { split; [done|]. intros (g & [= <-] & _ & Hg). done. }
      split; [|done]. intros _. by exists f.
    + cbn. intros [= ->]. done.
    + cbn [files]. rewrite lookup_insert_eq. cbn [uploader_on].
      destruct (error f) eqn:He.
      * unfold WriteStream_read. rewrite He. cbn. by rewrite He.
      * destruct (WriteStream_read_drains f He) as [-> ->]. done.
  - split; [|split]; [|done|by rewrite Hf].
    split; [done|]. by intros (g & ? & _).
Qed.

(** X28: once the upload of a handle has failed, the handle is in error: every
    later [WriteProxy.write] on it raises, [WriteProxy.flush] raises
    EREMOTEIO, and [WriteProxy.release] raises EREMOTEIO (when the queue has
    room for the end marker) and still forgets the handle. *)
Theorem upload_failure_reported wp fh f :
  files wp !! fh = Some f ->
  let wp1 := uploader uploader_failed fh wp in
  errored wp1 fh /\
  (forall node_id offset_ data,
     failed (Some (WriteProxy_write node_id fh offset_ data wp1).1)) /\
  WriteProxy_flush fh wp1 = Some (inl (FuseOSError EREMOTEIO)) /\
  ((length (q f) < WRITE_BUFFER_SZ)%nat ->
   exists wp2,
     WriteProxy_release fh wp1 = (Some (inl (FuseOSError EREMOTEIO)), wp2) /\
     files wp2 !! fh = None).
Proof.
  intros Hf. cbn zeta.
  assert (files (uploader uploader_failed fh wp) !! fh = Some (set_error f))
    as Hf1.
  { unfold uploader. rewrite Hf. cbn [files uploader_on].
    by rewrite lookup_insert_eq. }
  assert (errored (uploader uploader_failed fh wp) fh) as He.
  { unfold errored. by rewrite Hf1. }
  split; [done|]. split; [|split].
  - intros node_id offset_ data. by apply write_errored.
  - unfold WriteProxy_flush. by rewrite Hf1.
  - intros Hq. unfold WriteProxy_release. rewrite Hf1.
    unfold WriteStream_close. cbn [set_error q error].
    rewrite bool_decide_eq_true_2 by done. eexists. split; [reflexivity|].
    cbn [files]. by rewrite lookup_delete_eq.
Qed.

(** ** Read streams *)

Lemma deque_append_snoc c q :
  exists l, deque_append c q = l ++ [c] /\ l `sublist_of` q.
Proof.
  unfold deque_append. case_bool_decide.
  - by exists q.
  - exists (drop 1 q). split; [done|]. apply sublist_drop.
Qed.

Lemma take_length_Z {A} (n : Z) (l : list A) :
  0 <= n <= Z.of_nat (length l) ->
  Z.of_nat (length (take (Z.to_nat n) l)) = n.
Proof. intros Hn. rewrite length_take. lia. Qed.

Lemma StreamChunk_get_whole n c :
  0 < n -> n <= len (c_body c) ->
  StreamChunk_get n c
  = (inr (take (Z.to_nat n) (c_body c)),
     {| c_offset := c_offset c + n;
        c_body := drop (Z.to_nat n) (c_body c);
        c_sid := c_sid c; c_end := c_end c |}).
Proof.
  intros Hn Hle. unfold StreamChunk_get, len in *.
  pose proof (take_length_Z n (c_body c)) as Hlen.
  destruct (take (Z.to_nat n) (c_body c)) as [|b l] eqn:Ht.
  { cbn in Hlen. lia. }
  unfold len. rewrite Hlen by lia.
  rewrite bool_decide_eq_false_2 by lia. done.
Qed.

Section ReadStreams.

Context `{Constants} {Client : Type} `{!ACDClient Client}.

(** X18: sequential reads share a stream: a read that no held chunk
    serves opens one stream and returns the first bytes of the response;
    the read that continues where it ended is served from the same chunk,
    with the next bytes of the response and without a request. *)
Theorem sequential_reads_share_stream
    id_ offset_ length1 length2 total f (net : Net Client) r cl :
  Forall (fun c => has_byte_range c offset_ length1 = false) (chunks f) ->
  response_chunk id_ offset_ CHUNK_SZ (client net) = (inr r, cl) ->
  len (content r) = content_length r ->
  0 < length1 -> 0 < length2 -> length1 + length2 <= content_length r ->
  exists f1 f2 net1,
    ReadFile_get id_ offset_ length1 total f net
    = (inr (take (Z.to_nat length1) (content r)), f1, net1) /\
    opened net1 = S (opened net) /\
    ReadFile_get id_ (offset_ + length1) length2 total f1 net1
    = (inr (take (Z.to_nat length2) (drop (Z.to_nat length1) (content r))),
       f2, net1).
Proof.
  intros Hmiss Hr Hlen H1 H2 Hsum.
  unfold ReadFile_get at 1. rewrite search_chunks_miss, Hr by done.
  rewrite StreamChunk_get_whole by (cbn [c_body]; lia).
  cbn [c_offset c_body c_sid c_end].
  destruct (deque_append_snoc
              {| c_offset := offset_ + length1;
                 c_body := drop (Z.to_nat length1) (content r);
                 c_sid := opened net;
                 c_end := offset_ + content_length r - 1 |} (chunks f))
    as (l & Hl & _).
  rewrite Hl.
  eexists _, _, _. split; [reflexivity|]. split; [done|].
  unfold ReadFile_get. cbn [chunks].
  rewrite length_app, Nat.add_1_r. cbn [search_chunks].
  rewrite lookup_app_r, Nat.sub_diag by lia. cbn [lookup list_lookup].
  unfold has_byte_range at 1. cbn [c_offset c_end].
  rewrite !bool_decide_eq_true_2 by lia. cbn [andb].
  rewrite StreamChunk_get_whole.
  - cbn [c_body]. reflexivity.
  - done.
  - cbn [c_body]. unfold len in *. rewrite length_drop. lia.
Qed.

Lemma ReadFile_get_held id_ offset_ length_ total f (net : Net Client) :
  let '(_, f', net') := ReadFile_get id_ offset_ length_ total f net in
  closed_streams net' = closed_streams net /\
  ((opened net' = opened net /\ held f' `sublist_of` held f) \/
   (opened net' = S (opened net) /\
    held f' `sublist_of` held f ++ [opened net])).
Proof.
  unfold ReadFile_get, held.
  pose proof (search_chunks_order (length (chunks f)) offset_ length_
                (chunks f)) as Hs.
  destruct (search_chunks _ _ _ _) as [[b|] q0]; cbn [snd] in Hs.
  - split; [done|]. by left.
  - destruct (response_chunk _ _ _ _) as [[e|r] cl].
    + split; [done|]. by left.
    + pose proof (StreamChunk_get_sid length_
                    (mkChunk offset_ (content r) (opened net)
                             (offset_ + content_length r - 1))) as Hsid.
      destruct (StreamChunk_get _ _) as [res c']. cbn in Hsid.
      split; [done|]. right. split; [done|]. cbn [chunks opened].
      destruct (deque_append_snoc c' q0) as (l & -> & Hl).
      rewrite fmap_app. cbn. rewrite Hsid.
      apply sublist_app; [|done]. etrans; [|exact Hs].
      by apply fmap_sublist.
Qed.

Lemma rp_step_consistent ev (st : gmap string ReadFile * Net Client) :
  streams_consistent st -> streams_consistent (rp_step ev st).
Proof.
  destruct st as [rp net]. intros (Hnd & Hop & Hheld & Hone).
  cbn [fst snd] in *.
  destruct ev as [id_ o l t|id_]; cbn [rp_step fst snd].
  - unfold ReadProxy_get.
    pose proof (ReadFile_get_held id_ o l t
                  (default (mkReadFile []) (rp !! id_)) net) as Hg.
    destruct (ReadFile_get _ _ _ _ _ _) as [[res f'] net'].
    destruct Hg as [Hcl Hg].
    assert (opened net <= opened net')%nat as Hmono
      by (destruct Hg as [[-> _]|[-> _]]; lia).
    assert (NoDup (held (default (mkReadFile []) (rp !! id_))) /\
            forall x, x ∈ held (default (mkReadFile []) (rp !! id_)) ->
                      (x < opened net)%nat /\ (x ∉ closed_streams net) /\
                      rp !! id_ ≠ None) as [Hnd0 Hin0].
    { destruct (rp !! id_) as [f0|] eqn:Hf0; cbn [default].
      - destruct (Hheld id_ f0 Hf0) as [? Hx]. split; [done|].
        intros x Hin. destruct (Hx x Hin). done.
      - split; [constructor|]. intros x Hin. by apply elem_of_nil in Hin. }
    assert (NoDup (held f') /\
            forall x, x ∈ held f' ->
              (x ∈ held (default (mkReadFile []) (rp !! id_)) \/
               (x = opened net /\ opened net' = S (opened net))))
      as [Hnd' Hin'].
    { destruct Hg as [[_ Hsub]|[Hop' Hsub]].
      - split; [by eapply sublist_NoDup|].
        intros x Hx. left. by eapply elem_of_sublist.
      - split.
        + eapply sublist_NoDup; [|exact Hsub]. apply NoDup_app.
          split; [done|]. split; [|apply NoDup_singleton].
          intros x Hx Hx'. apply list_elem_of_singleton in Hx' as ->.
          destruct (Hin0 _ Hx). lia.
        + intros x Hx. eapply elem_of_sublist in Hx; [|exact Hsub].
          apply elem_of_app in Hx as [Hx|Hx]; [by left|].
          apply list_elem_of_singleton in Hx as ->. by right. }
    unfold streams_consistent. cbn [fst snd]. rewrite Hcl.
    split; [done|]. split; [intros x Hx; specialize (Hop x Hx); lia|].
    split.
    + intros i f Hi. destruct (decide (id_ = i)) as [->|Hne].
      * rewrite lookup_insert_eq in Hi. injection Hi as <-.
        split; [done|]. intros x Hx.
        destruct (Hin' x Hx) as [Hx0|[-> Hs]].
        -- destruct (Hin0 x Hx0) as (? & ? & _). split; [lia|done].
        -- split; [lia|]. intros Hc. specialize (Hop _ Hc). lia.
      * rewrite lookup_insert_ne in Hi by done.
        destruct (Hheld i f Hi) as [? Hx]. split; [done|].
        intros x Hin. destruct (Hx x Hin). split; [lia|done].
    + intros id1 id2 f1 f2 x Hf1 Hf2 Hx1 Hx2.
      destruct (decide (id1 = id2)) as [|Hne]; [done|]. exfalso.
      assert (forall i f, i ≠ id_ -> rp !! i = Some f -> x ∈ held f ->
                x ∈ held f' -> False) as Hclash.
      { intros i f Hi Hf Hxf Hxf'.
        destruct (Hin' x Hxf') as [Hx0|[-> Hs]].
        - destruct (Hin0 x Hx0) as (_ & _ & Hsome).
          destruct (rp !! id_) as [f0|] eqn:Hf0; [|done].
          apply Hi. by eapply (Hone i id_ f f0 x).
        - destruct (Hheld i f Hf) as [_ Hlt].
          destruct (Hlt _ Hxf). lia. }
      destruct (decide (id1 = id_)) as [->|Hn1];
        destruct (decide (id2 = id_)) as [->|Hn2]; try done.
      * rewrite lookup_insert_eq in Hf1. injection Hf1 as <-.
        rewrite lookup_insert_ne in Hf2 by done.
        by eapply (Hclash id2 f2).
      * rewrite lookup_insert_eq in Hf2. injection Hf2 as <-.
        rewrite lookup_insert_ne in Hf1 by done.
        by eapply (Hclash id1 f1).
      * rewrite lookup_insert_ne in Hf1, Hf2 by done.
        apply Hne. by eapply (Hone id1 id2 f1 f2 x).
  - unfold ReadProxy_release.
    destruct (rp !! id_) as [f0|] eqn:Hf0; [|done].
    cbn [ReadFile_clear fst snd]. unfold streams_consistent.
    cbn [fst snd closed_streams opened].
    destruct (Hheld id_ f0 Hf0) as [Hnd0 Hin0].
    split; [|split; [|split]].
    + apply NoDup_app. split; [done|]. split; [|done].
      intros x Hx Hx'. by destruct (Hin0 x Hx').
    + intros x Hx. apply elem_of_app in Hx as [Hx|Hx]; [by apply Hop|].
      by destruct (Hin0 x Hx).
    + intros i f Hi. destruct (decide (id_ = i)) as [->|Hne].
      * rewrite lookup_insert_eq in Hi. injection Hi as <-.
        split; [constructor|]. intros x Hx. by apply elem_of_nil in Hx.
      * rewrite lookup_insert_ne in Hi by done.
        destruct (Hheld i f Hi) as [? Hx]. split; [done|].
        intros x Hin. destruct (Hx x Hin). split; [done|].
        rewrite not_elem_of_app. split; [done|]. intros Hin0'.
        apply Hne. by eapply (Hone id_ i f0 f x).
    + intros id1 id2 f1 f2 x Hf1 Hf2 Hx1 Hx2.
      destruct (decide (id1 = id_)) as [->|Hn1].
      { rewrite lookup_insert_eq in Hf1. injection Hf1 as <-.
        by apply elem_of_nil in Hx1. }
      destruct (decide (id2 = id_)) as [->|Hn2].
      { rewrite lookup_insert_eq in Hf2. injection Hf2 as <-.
        by apply elem_of_nil in Hx2. }
      rewrite lookup_insert_ne in Hf1, Hf2 by done.
      by eapply (Hone id1 id2 f1 f2 x).
Qed.

Lemma rp_run_consistent evs : forall (st : gmap string ReadFile * Net Client),
  streams_consistent st -> streams_consistent (rp_run evs st).
Proof.
  unfold rp_run. induction evs as [|ev evs IH]; intros st Hst; [done|].
  cbn [foldl]. apply IH. by apply rp_step_consistent.
Qed.

(** X19: over any sequence of reads and releases no stream is closed
    twice, every closed stream is one the proxy opened, and no chunk held
    for reading is a closed stream. *)
Theorem streams_closed_once evs (client_ : Client) :
  let st := rp_run evs (ReadProxy_init client_) in
  NoDup (closed_streams st.2) /\
  (forall x, x ∈ closed_streams st.2 -> (x < opened st.2)%nat) /\
  (forall id_ f c,
     st.1 !! id_ = Some f -> c ∈ chunks f ->
     (c_sid c ∉ closed_streams st.2) /\ (c_sid c < opened st.2)%nat).
Proof.
  destruct (rp_run_consistent evs (ReadProxy_init client_))
    as (Hnd & Hop & Hheld & _).
  { unfold streams_consistent, ReadProxy_init. cbn.
    split; [constructor|]. split; [intros x Hx; by apply elem_of_nil in Hx|].
    split; [intros i f Hi; by rewrite lookup_empty in Hi|].
    intros i1 i2 f1 f2 x Hi. by rewrite lookup_empty in Hi. }
  cbn zeta. split; [done|]. split; [done|].
  intros id_ f c Hf Hc. destruct (Hheld id_ f Hf) as [_ Hx].
  destruct (Hx (c_sid c)) as [? ?]; [|done].
  unfold held. by apply list_elem_of_fmap_2.
Qed.

End ReadStreams.

(** ** The operations and the cache *)

Lemma paired_app tr1 tr2 : paired tr1 -> paired tr2 -> paired (tr1 ++ tr2).
Proof. induction 1; intros; cbn; [done|constructor; auto..]. Qed.

Lemma inserted_app tr1 tr2 :
  inserted (tr1 ++ tr2) = inserted tr1 ++ inserted tr2.
Proof.
  induction tr1 as [|ev tr1 IH]; [done|]. destruct ev; cbn; by rewrite IH.
Qed.

Lemma convert_errno `{Constants} e :
  exists no, convert e = FuseOSError no /\
             no ∈ [ECOMM; EEXIST; EFAULT; EREMOTEIO].
Proof.
  unfold convert. repeat case_bool_decide; eexists; (split; [done|]);
    set_solver.
Qed.

Section Operations.

Context `{Constants} {Client Cache : Type}
        `{!ACDClient Client} `{!NodeCache Cache} `{!NodeListing Cache}.

Implicit Types st : @FS Client Cache.

#[local] Abbreviation coherent :=
  (coherent (Client := Client) (Cache := Cache)).

Lemma coherent_ret {A} (a : A) : coherent (mret a).
Proof. intros st. split; [constructor|done]. Qed.

Lemma coherent_raise {A} e : coherent (raise (A := A) e).
Proof. intros st. split; [constructor|done]. Qed.

Lemma coherent_bind {A B} (m : F A) (k : A -> F B) :
  coherent m -> (forall a, coherent (k a)) -> coherent (m ≫= k).
Proof.
  intros Hm Hk st. cbv [mbind F_bind bind]. specialize (Hm st).
  destruct (m st) as [[[e|a] st1] tr1]; [done|].
  specialize (Hk a st1). destruct (k a st1) as [[r st2] tr2].
  cbn [fst snd] in *. destruct Hm as [Hp1 Hc1], Hk as [Hp2 Hc2].
  split; [by apply paired_app|].
  by rewrite inserted_app, foldl_app, <- Hc1.
Qed.

Lemma coherent_resolve path trash : coherent (cache_resolve path trash).
Proof. intros st. split; [by repeat constructor|done]. Qed.

Lemma coherent_attribute {A} node (field : CNode -> option A) :
  coherent (attribute node field).
Proof.
  unfold attribute. destruct node as [n|]; [|apply coherent_raise].
  destruct (field n); [apply coherent_ret|apply coherent_raise].
Qed.

Lemma request_and_insert_run op st :
  request_and_insert op st
  = match request op (client (net st)) with
    | (inl e, cl) =>
        (inl (convert e),
         mkFS (cache st) (mkNet cl (opened (net st)) (closed_streams (net st)))
              (rp st) (wp st) (fh st),
         [EvRequest op (inl e)])
    | (inr r, cl) =>
        (inr tt,
         mkFS (insert_node r (cache st))
              (mkNet cl (opened (net st)) (closed_streams (net st)))
              (rp st) (wp st) (fh st),
         [EvRequest op (inr r); EvInsertNode r])
    end.
Proof.
  unfold request_and_insert.
  cbv [mbind F_bind bind client_request cache_insert_node raise].
  by destruct (request op (client (net st))) as [[e|r] cl].
Qed.

Lemma coherent_request_and_insert op : coherent (request_and_insert op).
Proof.
  intros st. rewrite request_and_insert_run.
  destruct (request op (client (net st))) as [[e|r] cl]; cbn.
  - split; [by repeat constructor|done].
  - split; [by repeat constructor|done].
Qed.

Lemma coherent_trash path : coherent (_trash path).
Proof.
  apply coherent_bind; [apply coherent_resolve|].
  intros [n|]; [apply coherent_request_and_insert|apply coherent_raise].
Qed.

Lemma coherent_getxattr path name position :
  coherent (getxattr path name position).
Proof.
  unfold getxattr. destruct (_ && _); [apply coherent_raise|].
  apply coherent_bind; [apply coherent_resolve|]. intros node.
  repeat case_bool_decide;
    try (apply coherent_bind;
         [apply coherent_attribute|intros; apply coherent_ret]);
    apply coherent_raise.
Qed.

Lemma coherent_read path length_ offset_ fh_ :
  coherent (read path length_ offset_ fh_).
Proof.
  apply coherent_bind; [apply coherent_resolve|].
  intros [n|]; [|apply coherent_raise].
  apply coherent_bind; [apply coherent_attribute|]. intros size.
  destruct (_ || _); [apply coherent_ret|]. intros st. unfold rp_get.
  destruct (ReadProxy_get _ _ _ _ _ _) as [[res rp'] net']. cbn.
  split; [constructor|done].
Qed.

Lemma coherent_next_handle : coherent next_handle.
Proof. intros st. split; [constructor|done]. Qed.

Lemma coherent_create path mode : coherent (create path mode).
Proof.
  apply coherent_bind; [apply coherent_resolve|].
  intros [p|]; [|apply coherent_raise].
  apply coherent_bind; [apply coherent_request_and_insert|].
  intros _. apply coherent_next_handle.
Qed.

Lemma coherent_rename old new : coherent (rename old new).
Proof.
  unfold rename. case_bool_decide; [apply coherent_ret|].
  apply coherent_bind; [apply coherent_resolve|].
  intros [node|]; [|apply coherent_raise].
  apply coherent_bind; [apply coherent_resolve|]. intros existing.
  apply coherent_bind.
  { destruct existing as [existing|]; [|apply coherent_ret].
    destruct (is_file existing); [apply coherent_trash|apply coherent_raise]. }
  intros _. apply coherent_bind.
  { case_bool_decide; [apply coherent_request_and_insert|apply coherent_ret]. }
  intros _. case_bool_decide; [|apply coherent_ret].
  apply coherent_bind; [apply coherent_resolve|].
  intros [ndir|]; [apply coherent_request_and_insert|apply coherent_raise].
Qed.

Lemma coherent_open path flags : coherent (open path flags).
Proof.
  unfold open. case_bool_decide; [apply coherent_raise|].
  apply coherent_next_handle.
Qed.

Lemma coherent_write path data offset_ fh_ :
  coherent (write path data offset_ fh_).
Proof.
  apply coherent_bind.
  { case_bool_decide; [|apply coherent_ret].
    apply coherent_bind; [apply coherent_resolve|].
    intros n. apply coherent_attribute. }
  intros node_id. apply coherent_bind; [|intros; apply coherent_ret].
  intros st. unfold wp_write_.
  destruct (WriteProxy_write _ _ _ _ _) as [res wp']. cbn.
  split; [constructor|done].
Qed.

Lemma coherent_perform c : coherent (perform c).
Proof.
  destruct c; cbn [perform];
    (apply coherent_bind; [|intros; apply coherent_ret]).
  - apply coherent_getxattr.
  - apply coherent_read.
  - apply coherent_trash.
  - apply coherent_trash.
  - apply coherent_create.
  - apply coherent_rename.
  - apply coherent_open.
  - apply coherent_write.
Qed.

Lemma coherent_readdir path fh_ : coherent (readdir path fh_).
Proof.
  apply coherent_bind; [apply coherent_resolve|].
  intros [n|]; [|apply coherent_raise].
  destruct (negb _); [apply coherent_raise|].
  intros st. split; [constructor|done].
Qed.

Lemma coherent_listxattr path : coherent (listxattr path).
Proof.
  apply coherent_bind; [apply coherent_resolve|].
  intros [n|]; [|apply coherent_raise].
  destruct (is_file n); [apply coherent_ret|].
  destruct (is_folder n); apply coherent_ret.
Qed.

Lemma coherent_mkdir path mode : coherent (mkdir path mode).
Proof.
  apply coherent_bind; [apply coherent_resolve|].
  intros [p|]; [apply coherent_request_and_insert|apply coherent_raise].
Qed.

Lemma coherent_truncate path length_ fh_ : coherent (truncate path length_ fh_).
Proof.
  apply coherent_bind; [apply coherent_resolve|]. intros n.
  case_bool_decide.
  { apply coherent_bind; [apply coherent_attribute|].
    intros i. apply coherent_request_and_insert. }
  case_bool_decide; [|apply coherent_ret].
  apply coherent_bind; [apply coherent_attribute|]. intros size.
  case_bool_decide; [apply coherent_raise|apply coherent_ret].
Qed.

(** X20: every operation changes the node cache only by inserting the
    metadata a request has just returned: its trace is [paired], and the
    cache after it is the cache before it with the inserted nodes added in
    order; [release] and [flush] at most look the path up and leave the
    cache alone. *)
Theorem cache_follows_requests :
  (forall c, coherent (perform c)) /\
  (forall path fh_, coherent (readdir path fh_)) /\
  (forall path, coherent (listxattr path)) /\
  (forall path mode, coherent (mkdir path mode)) /\
  (forall path length_ fh_, coherent (truncate path length_ fh_)) /\
  (forall path fh_ st,
     lookups_only (release path fh_ st).2 /\
     cache (release path fh_ st).1.2 = cache st) /\
  (forall path fh_ st,
     lookups_only (flush path fh_ st).2 /\ (flush path fh_ st).1.2 = st).
Proof.
  split; [apply coherent_perform|]. split; [apply coherent_readdir|].
  split; [apply coherent_listxattr|]. split; [apply coherent_mkdir|].
  split; [apply coherent_truncate|].
  split; [|intros; split; [constructor|done]].
  intros path fh_ st. unfold release.
  destruct (resolve path (Some false) (cache st)) as [node|].
  - destruct (ReadProxy_release _ _ _) as [rp' net'].
    destruct (WriteProxy_release _ _) as [res wp']. cbn.
    split; [by repeat constructor|done].
  - cbn. split; [by repeat constructor|done].
Qed.

(** X21: [mkdir] and [create] raise ENOTDIR without any request when the
    parent directory does not resolve; otherwise they make exactly one
    request, for the base name under the id of the parent; when it returns
    the node is inserted into the cache ([create] then hands out the next
    handle), and when it fails the cache and the handle counter are as
    before and the error is one of ECOMM, EEXIST, EFAULT, EREMOTEIO. *)
Theorem creation_requests st path mode :
  (resolve (dirname path) None (cache st) = None ->
   mkdir path mode st
   = (inl (FuseOSError ENOTDIR), st, [EvResolve (dirname path) None])) /\
  (resolve (dirname path) (Some false) (cache st) = None ->
   create path mode st
   = (inl (FuseOSError ENOTDIR), st,
      [EvResolve (dirname path) (Some false)])) /\
  (forall p,
     resolve (dirname path) None (cache st) = Some p ->
     let '(res, st', tr) := mkdir path mode st in
     requests tr = [create_folder (basename path) (n_id p)] /\
     fh st' = fh st /\
     match res with
     | inr _ =>
         exists r, inserted tr = [r] /\ cache st' = insert_node r (cache st)
     | inl e =>
         cache st' = cache st /\
         exists no, e = FuseOSError no /\
                    no ∈ [ECOMM; EEXIST; EFAULT; EREMOTEIO]
     end) /\
  (forall p,
     resolve (dirname path) (Some false) (cache st) = Some p ->
     let '(res, st', tr) := create path mode st in
     requests tr = [create_file (basename path) (n_id p)] /\
     match res with
     | inr h =>
         h = fh st + 1 /\ fh st' = h /\
         exists r, inserted tr = [r] /\ cache st' = insert_node r (cache st)
     | inl e =>
         fh st' = fh st /\ cache st' = cache st /\
         exists no, e = FuseOSError no /\
                    no ∈ [ECOMM; EEXIST; EFAULT; EREMOTEIO]
     end).
Proof.
  split; [|split; [|split]].
  - intros Hp. unfold mkdir. cbv [mbind F_bind bind cache_resolve].
    by rewrite Hp.
  - intros Hp. unfold create. cbv [mbind F_bind bind cache_resolve].
    by rewrite Hp.
  - intros p Hp. unfold mkdir. cbv [mbind F_bind bind cache_resolve].
    rewrite Hp, request_and_insert_run.
    destruct (request _ _) as [[e|r] cl]; cbn.
    + split; [done|]. split; [done|]. split; [done|]. apply convert_errno.
    + split; [done|]. split; [done|]. by exists r.
  - intros p Hp. unfold create. cbv [mbind F_bind bind cache_resolve].
    rewrite Hp, request_and_insert_run.
    destruct (request _ _) as [[e|r] cl]; cbn.
    + split; [done|]. split; [done|]. split; [done|]. apply convert_errno.
    + split; [done|]. split; [done|]. split; [done|]. by exists r.
Qed.

(** X22: for a path that does not resolve, [read], [unlink], [rmdir] and
    [readdir] raise ENOENT; [listxattr], [getxattr] of a known name,
    [truncate] to a length of at least 0 and [write] at offset 0 raise
    [AttributeError]; [truncate] to a negative length and [release]
    return; none of them changes the state. *)
Theorem unresolved_paths st path :
  (forall trash, resolve path trash (cache st) = None) ->
  (forall length_ offset_ fh_,
     read path length_ offset_ fh_ st
     = (inl (FuseOSError ENOENT), st, [EvResolve path (Some false)])) /\
  unlink path st
  = (inl (FuseOSError ENOENT), st, [EvResolve path (Some false)]) /\
  rmdir path st
  = (inl (FuseOSError ENOENT), st, [EvResolve path (Some false)]) /\
  (forall fh_,
     readdir path fh_ st
     = (inl (FuseOSError ENOENT), st, [EvResolve path None])) /\
  listxattr path st = (inl AttributeError, st, [EvResolve path None]) /\
  (forall name position,
     name ∈ FXATTRS_vars ->
     getxattr path name position st
     = (inl AttributeError, st, [EvResolve path None])) /\
  (forall length_ fh_,
     0 <= length_ ->
     truncate path length_ fh_ st
     = (inl AttributeError, st, [EvResolve path None])) /\
  (forall length_ fh_,
     length_ < 0 ->
     truncate path length_ fh_ st = (inr tt, st, [EvResolve path None])) /\
  (forall data fh_,
     write path data 0 fh_ st
     = (inl AttributeError, st, [EvResolve path (Some false)])) /\
  (forall fh_,
     release path fh_ st
     = (Some (inr tt), st, [EvResolve path (Some false)])).
Proof.
  intros Hno.
  assert (forall trash,
            cache_resolve path trash st
            = (inr None, st, [EvResolve path trash]))
    as Hres by (intros trash; unfold cache_resolve; by rewrite Hno).
  split; [|split; [|split; [|split; [|split; [|split; [|split; [|split;
    [|split]]]]]]]].
  - intros. unfold read. cbv [mbind F_bind bind]. by rewrite Hres.
  - unfold unlink, _trash. cbv [mbind F_bind bind]. by rewrite Hres.
  - unfold rmdir, _trash. cbv [mbind F_bind bind]. by rewrite Hres.
  - intros. unfold readdir. cbv [mbind F_bind bind]. by rewrite Hres.
  - unfold listxattr. cbv [mbind F_bind bind]. by rewrite Hres.
  - intros name position Hname. unfold getxattr.
    rewrite (bool_decide_eq_false_2 (_ ∉ FXATTRS_vars)) by tauto.
    rewrite andb_false_r. cbv [mbind F_bind bind]. rewrite Hres.
    unfold FXATTRS_vars in Hname.
    rewrite !elem_of_cons, elem_of_nil in Hname.
    repeat case_bool_decide; try done. exfalso. tauto.
  - intros length_ fh_ Hlen. unfold truncate. cbv [mbind F_bind bind].
    rewrite Hres. case_bool_decide; [done|].
    by rewrite bool_decide_eq_true_2 by lia.
  - intros length_ fh_ Hlen. unfold truncate. cbv [mbind F_bind bind].
    rewrite Hres. by rewrite !bool_decide_eq_false_2 by lia.
  - intros. unfold write. cbv [mbind F_bind bind].
    rewrite bool_decide_eq_true_2 by done. by rewrite Hres.
  - intros. unfold release. by rewrite Hno.
Qed.

(** X23: for a path that resolves (to a file with an md5, or to a
    folder) [listxattr] lists the file or the folder attributes without
    changing the state, [getxattr] of acd.id returns the node id, and
    [getxattr] returns a value for every listed name. *)
Theorem listed_attributes_are_readable st path node position :
  resolve path None (cache st) = Some node ->
  (is_file node = true -> is_Some (n_md5 node)) ->
  exists names,
    listxattr path st = (inr (Some names), st, [EvResolve path None]) /\
    names = (if is_file node then FXATTRS_vars else XATTRS_vars) /\
    getxattr path XATTRS_ID position st
    = (inr (utf8 (n_id node)), st, [EvResolve path None]) /\
    forall name,
      name ∈ names ->
      exists b,
        getxattr path name position st = (inr b, st, [EvResolve path None]).
Proof.
  intros Hn Hmd5.
  assert (forall name, name ∈ FXATTRS_vars ->
            getxattr path name position st
            = (if bool_decide (name = XATTRS_ID) then
                 (inr (utf8 (n_id node)), st, [EvResolve path None])
               else if bool_decide (name = XATTRS_DESCR) then
                 (inr (utf8 (match n_description node with
                             | Some (String c rest) => String c rest
                             | _ => EmptyString
                             end)), st, [EvResolve path None])
               else match n_md5 node with
                    | Some m => (inr (utf8 m), st, [EvResolve path None])
                    | None => (inl AttributeError, st, [EvResolve path None])
                    end)) as Hget.
  { intros name Hname. unfold getxattr.
    rewrite (bool_decide_eq_false_2 (_ ∉ FXATTRS_vars)) by tauto.
    rewrite andb_false_r.
    cbv [mbind F_bind bind cache_resolve attribute ret]. rewrite Hn.
    unfold FXATTRS_vars in Hname.
    rewrite !elem_of_cons, elem_of_nil in Hname.
    repeat case_bool_decide; try done; [by destruct (n_md5 node)|].
    exfalso. tauto. }
  exists (if is_file node then FXATTRS_vars else XATTRS_vars).
  split; [|split; [done|split]].
  - unfold listxattr. cbv [mbind F_bind bind cache_resolve]. rewrite Hn.
    unfold is_file, is_folder. destruct (n_kind node); done.
  - rewrite Hget by (unfold FXATTRS_vars; left). done.
  - intros name Hname.
    assert (name ∈ FXATTRS_vars /\
            (name = FXATTRS_MD5 -> is_file node = true)) as [Hin Hfile].
    { unfold FXATTRS_vars, XATTRS_vars in *.
      rewrite !elem_of_cons, elem_of_nil.
      destruct (is_file node);
        rewrite !elem_of_cons, elem_of_nil in Hname; [tauto|].
      split; [tauto|]. intros ->. by destruct Hname as [?|[?|?]]. }
    rewrite Hget by done.
    repeat case_bool_decide; [by eexists..|].
    destruct (n_md5 node) as [m|] eqn:Hm; [by eexists|].
    assert (name = FXATTRS_MD5) as Hname'.
    { unfold FXATTRS_vars in Hin. rewrite !elem_of_cons, elem_of_nil in Hin.
      tauto. }
    destruct (Hmd5 (Hfile Hname')) as [m Hm']. congruence.
Qed.

(** X24: [truncate] on a path that resolves: only length 0 makes a
    request, the clearing of the file; any other length leaves the state as
    it is, a positive length returns when it is the size of the node and
    raises ENOSYS otherwise, and a negative length returns. *)
Theorem truncate_pseudo st path length_ fh_ node :
  resolve path None (cache st) = Some node ->
  let '(res, st', tr) := truncate path length_ fh_ st in
  (length_ = 0 -> requests tr = [clear_file (n_id node)]) /\
  (length_ ≠ 0 -> st' = st /\ tr = [EvResolve path None]) /\
  (length_ < 0 -> res = inr tt) /\
  (forall size,
     0 < length_ -> n_size node = Some size ->
     if bool_decide (size = length_) then res = inr tt
     else res = inl (FuseOSError ENOSYS)).
Proof.
  intros Hn. unfold truncate.
  cbv [mbind F_bind bind cache_resolve attribute ret raise]. rewrite Hn.
  case_bool_decide as H0.
  - rewrite request_and_insert_run.
    destruct (request _ _) as [[e|r] cl]; cbn; repeat split; intros; lia.
  - case_bool_decide as Hpos.
    + destruct (n_size node) as [size|] eqn:Hs.
      * case_bool_decide as Hne; cbn; repeat split; intros; try lia;
          simplify_eq; by rewrite ?bool_decide_eq_true_2,
                                   ?bool_decide_eq_false_2 by done.
      * cbn. repeat split; intros; try lia; done.
    + cbn. repeat split; intros; try lia; done.
Qed.

(** X25: [release] of a path that resolves clears the chunks of the node,
    closes their streams, leaves the chunks of other nodes alone, and,
    unless the write stream makes it wait, deletes the stream of the handle
    and of no other handle. *)
Theorem release_frees_both_proxies st path fh_ node :
  resolve path (Some false) (cache st) = Some node ->
  let '(res, st', tr) := release path fh_ st in
  rp st' !! n_id node = (fun _ => mkReadFile []) <$> rp st !! n_id node /\
  closed_streams (net st')
  = closed_streams (net st)
    ++ held (default (mkReadFile []) (rp st !! n_id node)) /\
  (forall id_, id_ ≠ n_id node -> rp st' !! id_ = rp st !! id_) /\
  (res ≠ None -> files (wp st') !! fh_ = None) /\
  (forall fh', fh' ≠ fh_ -> files (wp st') !! fh' = files (wp st) !! fh').
Proof.
  intros Hn. unfold release. rewrite Hn.
  unfold ReadProxy_release, held.
  destruct (rp st !! n_id node) as [f|] eqn:Hf; cbn [ReadFile_clear default].
  - destruct (WriteProxy_release fh_ (wp st)) as [res wp'] eqn:Hw.
    cbn [rp net wp closed_streams chunks].
    rewrite lookup_insert_eq. split; [done|]. split; [done|].
    split; [intros i Hi; by rewrite lookup_insert_ne|].
    unfold WriteProxy_release in Hw.
    destruct (files (wp st) !! fh_) as [g|] eqn:Hg.
    + destruct (WriteStream_close g) as [[r|] g1]; injection Hw as <- <-;
        cbn [files].
      * split; [intros _; by rewrite lookup_delete_eq|].
        intros fh' Hne. by rewrite lookup_delete_ne.
      * split; [done|]. intros fh' Hne. by rewrite lookup_insert_ne.
    + injection Hw as <- <-. done.
  - destruct (WriteProxy_release fh_ (wp st)) as [res wp'] eqn:Hw.
    cbn [rp net wp closed_streams chunks]. rewrite Hf, app_nil_r.
    split; [done|]. split; [done|]. split; [done|].
    unfold WriteProxy_release in Hw.
    destruct (files (wp st) !! fh_) as [g|] eqn:Hg.
    + destruct (WriteStream_close g) as [[r|] g1]; injection Hw as <- <-;
        cbn [files].
      * split; [intros _; by rewrite lookup_delete_eq|].
        intros fh' Hne. by rewrite lookup_delete_ne.
      * split; [done|]. intros fh' Hne. by rewrite lookup_insert_ne.
    + injection Hw as <- <-. done.
Qed.

(** X26: [write] never changes the cache; when it returns, it returns the
    length of the data, the offset was the one the handle expected and the
    expected offset has advanced by that length; at an offset other than 0
    the path is not resolved and no uploader is started, at offset 0 an
    uploader is started for the node at the path; when it raises, the
    expected offset is unchanged. *)
Theorem write_advances_offset st path data offset_ fh_ :
  let '(res, st', tr) := write path data offset_ fh_ st in
  cache st' = cache st /\
  match res with
  | inr n =>
      n = len data /\
      expected_offset (wp st) fh_ = offset_ /\
      expected_offset (wp st') fh_ = offset_ + len data /\
      (offset_ ≠ 0 -> tr = [] /\ threads (wp st') = threads (wp st)) /\
      (offset_ = 0 ->
       exists node,
         resolve path (Some false) (cache st) = Some node /\
         threads (wp st') = threads (wp st) ++ [(fh_, n_id node)])
  | inl _ =>
      expected_offset (wp st') fh_ = expected_offset (wp st) fh_
  end.
Proof.
  unfold write, wp_write_, expected_offset.
  cbv [mbind F_bind bind cache_resolve attribute ret raise].
  assert (forall node_id,
    let '(res, wp') := WriteProxy_write node_id fh_ offset_ data (wp st) in
    match res with
    | inr _ =>
        offset (default WriteStream_init (files (wp st) !! fh_)) = offset_ /\
        offset (default WriteStream_init (files wp' !! fh_))
        = offset_ + len data /\
        threads wp' = (if bool_decide (offset_ = 0)
                       then threads (wp st) ++ [(fh_, node_id)]
                       else threads (wp st))
    | inl _ =>
        offset (default WriteStream_init (files wp' !! fh_))
        = offset (default WriteStream_init (files (wp st) !! fh_))
    end) as Hw.
  { intros node_id. unfold WriteProxy_write.
    case_bool_decide as Ho.
    - pose proof (WriteStream_write_offset data
                    (default WriteStream_init (files (wp st) !! fh_))) as Hs.
      destruct (WriteStream_write _ _) as [[e|[]] f'];
        cbn [files threads]; rewrite lookup_insert_eq; cbn [default].
      + cbn in Hs. unfold id. by destruct Hs as [-> _].
      + cbn in Hs. split; [done|]. split; [|done]. unfold id. lia.
    - cbn [files]. rewrite lookup_insert_eq. cbn [default]. unfold id.
      by destruct (files (wp st) !! fh_). }
  case_bool_decide as H0.
  - destruct (resolve path (Some false) (cache st)) as [node|] eqn:Hn;
      [|by cbn].
    cbn. specialize (Hw (n_id node)).
    destruct (WriteProxy_write _ _ _ _ _) as [[e|[]] wp']; cbn;
      (split; [done|]); [done|].
    destruct Hw as (? & ? & Hthr).
    repeat split; try done. intros _. by exists node.
  - cbn. specialize (Hw EmptyString).
    destruct (WriteProxy_write _ _ _ _ _) as [[e|[]] wp']; cbn;
      (split; [done|]); [done|].
    destruct Hw as (? & ? & Hthr).
    repeat split; try done.
Qed.

(** X29: [rename] onto an existing file with another base name: when the
    request that trashes the existing file succeeds and the rename request
    fails, [rename] raises the converted error after exactly these two
    requests and the cache holds the trashed node, so the target is already
    in the trash although the source keeps its name. *)
Theorem rename_not_atomic st old new node e r cl1 err cl2 :
  old ≠ new ->
  resolve old (Some false) (cache st) = Some node ->
  resolve new (Some false) (cache st) = Some e -> is_file e = true ->
  basename new ≠ basename old ->
  request (move_to_trash (n_id e)) (client (net st)) = (inr r, cl1) ->
  request (rename_node (n_id node) (basename new)) cl1 = (inl err, cl2) ->
  let '(res, st', tr) := rename old new st in
  res = inl (convert err) /\
  cache st' = insert_node r (cache st) /\
  requests tr
  = [move_to_trash (n_id e); rename_node (n_id node) (basename new)] /\
  inserted tr = [r].
Proof.
  intros Hne Ho Hn Hfile Hbn Htrash Hrename. unfold rename.
  rewrite bool_decide_eq_false_2 by done.
  cbv [mbind F_bind bind cache_resolve _trash _rename]. rewrite Ho, Hn, Hfile.
  rewrite Hn. rewrite request_and_insert_run. cbn [net client]. rewrite Htrash.
  rewrite (bool_decide_eq_true_2 (basename new ≠ basename old)) by done.
  rewrite request_and_insert_run. cbn [net client]. rewrite Hrename.
  cbn. done.
Qed.

End Operations.

#[local] Existing Instances sample_constants sample_client sample_cache.

Lemma offset_counts_buffered_bytes_witness :
  WriteStream_write [Byte.x00; Byte.x01] WriteStream_init
  = (inr tt, mkWriteStream [[Byte.x00; Byte.x01]] 2 false false false) /\
  offset (mkWriteStream [[Byte.x00; Byte.x01]] 2 false false false)
  = offset WriteStream_init + len [Byte.x00; Byte.x01].
Proof.
  assert (WriteStream_write [Byte.x00; Byte.x01] WriteStream_init
          = (inr tt, mkWriteStream [[Byte.x00; Byte.x01]] 2 false false false))
    as Hw by reflexivity.
  split; [exact Hw|].
  exact (proj1 (proj2 offset_counts_buffered_bytes) _ _ _ Hw).
Defined.

Lemma getxattr_unknown_name_witness :
  ("user.mime_type" ∉ XATTRS_vars) /\ ("user.mime_type" ∉ FXATTRS_vars) /\
  getxattr "/no/such/path" "user.mime_type" 0 sample_fs
  = (inl (FuseOSError ENODATA), sample_fs, []).
Proof.
  assert ("user.mime_type" ∉ XATTRS_vars) as H1.
  { apply (bool_decide_unpack _). vm_compute. exact I. }
  assert ("user.mime_type" ∉ FXATTRS_vars) as H2.
  { apply (bool_decide_unpack _). vm_compute. exact I. }
  split; [exact H1|]. split; [exact H2|].
  exact (getxattr_unknown_name sample_fs
           "/no/such/path" "user.mime_type" 0 H1 H2).
Defined.

Lemma read_short_circuit_witness :
  resolve "/docs/a.txt" (Some false) (cache sample_fs) = Some sample_file /\
  n_size sample_file = Some 10 /\
  read "/docs/a.txt" 4096 10 2 sample_fs
  = (inr [], sample_fs, [EvResolve "/docs/a.txt" (Some false)]).
Proof.
  assert (resolve "/docs/a.txt" (Some false) (cache sample_fs)
          = Some sample_file) as Hn by reflexivity.
  split; [exact Hn|]. split; [reflexivity|].
  apply (proj1 (read_short_circuit sample_fs
                  "/docs/a.txt" 4096 10 2 sample_file 10 Hn eq_refl)).
  by right.
Defined.


#[local] Existing Instance sample_listing.

Lemma close_signals_eof_witness :
  error (mkWriteStream [[Byte.x00]; [Byte.x01]] 2 false false false) = false /\
  (WriteStream_read
     (WriteStream_close
        (mkWriteStream [[Byte.x00]; [Byte.x01]] 2 false false false)).2).1
  = Some (inr [Byte.x00; Byte.x01]).
Proof.
  split; [reflexivity|].
  refine (proj1 (proj2 (proj2 close_signals_eof)
                   (mkWriteStream [[Byte.x00]; [Byte.x01]] 2 false false false)
                   eq_refl _)).
  apply (bool_decide_unpack _). vm_compute. exact I.
Defined.

Lemma queue_bounded_timeout_retry_witness :
  WriteStream_write [Byte.x00]
    (mkWriteStream (replicate 32 [Byte.x01]) 32 false false false)
  = (inl (FuseOSError ETIMEDOUT),
     mkWriteStream (replicate 32 [Byte.x01]) 32 false false false) /\
  exists f'',
    WriteStream_write [Byte.x00]
      (uploader_on uploader_read
         (mkWriteStream (replicate 32 [Byte.x01]) 32 false false false))
    = (inr tt, f'').
Proof.
  assert (WriteStream_write [Byte.x00]
            (mkWriteStream (replicate 32 [Byte.x01]) 32 false false false)
          = (inl (FuseOSError ETIMEDOUT),
             mkWriteStream (replicate 32 [Byte.x01]) 32 false false false))
    as Hw by reflexivity.
  split; [exact Hw|].
  destruct (proj2 queue_bounded_timeout_retry _ _ _ Hw)
    as (_ & _ & _ & f'' & Hretry & _).
  exists f''. exact Hretry.
Defined.

Lemma release_forgets_handle_witness :
  WriteProxy_release 3
    (mkWriteProxy {[ 3 := mkWriteStream [] 1 false false true ]} [(3, "X1")])
  = (Some (inr tt), mkWriteProxy ∅ [(3, "X1")]) /\
  expected_offset (mkWriteProxy ∅ [(3, "X1")]) 3 = 0.
Proof.
  assert (WriteProxy_release 3
            (mkWriteProxy {[ 3 := mkWriteStream [] 1 false false true ]}
                          [(3, "X1")])
          = (Some (inr tt), mkWriteProxy ∅ [(3, "X1")])) as Hr
    by (vm_compute; reflexivity).
  split; [exact Hr|].
  destruct (release_forgets_handle _ _ _ _ Hr) as (Hnone & _).
  unfold expected_offset. rewrite Hnone. reflexivity.
Defined.

Lemma flush_waits_for_queue_witness :
  errored (mkWriteProxy {[ 3 := mkWriteStream [] 0 true false false ]} []) 3 /\
  WriteProxy_flush 3
    (mkWriteProxy {[ 3 := mkWriteStream [] 0 true false false ]} [])
  = Some (inl (FuseOSError EREMOTEIO)).
Proof.
  assert (errored (mkWriteProxy
                     {[ 3 := mkWriteStream [] 0 true false false ]} []) 3)
    as He by (vm_compute; reflexivity).
  split; [exact He|].
  exact (proj1 (proj2 (flush_waits_for_queue _ 3)) He).
Defined.

Lemma upload_failure_reported_witness :
  files (mkWriteProxy {[ 3 := mkWriteStream [[Byte.x00]] 1 false false false ]}
                      [(3, "X1")]) !! 3
  = Some (mkWriteStream [[Byte.x00]] 1 false false false) /\
  WriteProxy_flush 3
    (uploader uploader_failed 3
       (mkWriteProxy {[ 3 := mkWriteStream [[Byte.x00]] 1 false false false ]}
                     [(3, "X1")]))
  = Some (inl (FuseOSError EREMOTEIO)).
Proof.
  assert (files (mkWriteProxy
                   {[ 3 := mkWriteStream [[Byte.x00]] 1 false false false ]}
                   [(3, "X1")]) !! 3
          = Some (mkWriteStream [[Byte.x00]] 1 false false false)) as Hf
    by (vm_compute; reflexivity).
  split; [exact Hf|].
  exact (proj1 (proj2 (proj2 (upload_failure_reported _ 3 _ Hf)))).
Defined.

Lemma sequential_reads_share_stream_witness :
  response_chunk "X1" 0 CHUNK_SZ tt
  = (inr (mkReply 8192 (replicate (Z.to_nat 8192) Byte.x00)), tt) /\
  exists f1 f2 net1,
    ReadFile_get "X1" 0 10 100000 (mkReadFile []) (mkNet tt 0 [])
    = (inr (replicate 10 Byte.x00), f1, net1) /\
    opened net1 = 1%nat /\
    ReadFile_get "X1" 10 20 100000 f1 net1
    = (inr (replicate 20 Byte.x00), f2, net1).
Proof.
  assert (response_chunk "X1" 0 CHUNK_SZ tt
          = (inr (mkReply 8192 (replicate (Z.to_nat 8192) Byte.x00)), tt)) as Hr
    by reflexivity.
  split; [exact Hr|].
  destruct (sequential_reads_share_stream "X1" 0 10 20 100000
              (mkReadFile []) (mkNet tt 0 [])
              (mkReply 8192 (replicate (Z.to_nat 8192) Byte.x00)) tt)
    as (f1 & f2 & net1 & H1 & Ho & H2).
  - constructor.
  - exact Hr.
  - vm_compute. reflexivity.
  - lia.
  - lia.
  - cbn. lia.
  - exists f1, f2, net1. split; [exact H1|]. split; [exact Ho|]. exact H2.
Defined.

Lemma streams_closed_once_witness :
  exists f c,
    (rp_run [ev_get "X1" 0 10 100000; ev_release "X2"] (ReadProxy_init tt)).1
      !! "X1" = Some f /\
    c ∈ chunks f /\
    c_sid c ∉ closed_streams
      (rp_run [ev_get "X1" 0 10 100000; ev_release "X2"] (ReadProxy_init tt)).2.
Proof.
  eexists _, _. split; [vm_compute; reflexivity|].
  split; [left|].
  eapply (proj2 (proj2 (streams_closed_once
                          [ev_get "X1" 0 10 100000; ev_release "X2"] tt))
            "X1").
  - vm_compute. reflexivity.
  - left.
Defined.

Lemma creation_requests_witness :
  resolve (dirname "/docs/new") None (cache sample_fs) = Some sample_folder /\
  requests (mkdir "/docs/new" 493 sample_fs).2 = [create_folder "new" "F1"].
Proof.
  assert (resolve (dirname "/docs/new") None (cache sample_fs)
          = Some sample_folder) as Hp by reflexivity.
  split; [exact Hp|].
  pose proof (proj1 (proj2 (proj2
                (creation_requests sample_fs "/docs/new" 493)))
                sample_folder Hp) as Hm.
  destruct (mkdir "/docs/new" 493 sample_fs) as [[res st'] tr].
  destruct Hm as [Hreq _]. exact Hreq.
Defined.

Lemma unresolved_paths_witness :
  (forall trash, resolve "/gone" trash (cache sample_fs) = None) /\
  read "/gone" 4096 0 2 sample_fs
  = (inl (FuseOSError ENOENT), sample_fs, [EvResolve "/gone" (Some false)]) /\
  listxattr "/gone" sample_fs
  = (inl AttributeError, sample_fs, [EvResolve "/gone" None]).
Proof.
  assert (forall trash, resolve "/gone" trash (cache sample_fs) = None) as Hno
    by (intros trash; reflexivity).
  split; [exact Hno|].
  destruct (unresolved_paths sample_fs "/gone" Hno)
    as (Hread & _ & _ & _ & Hlist & _).
  split; [apply Hread|exact Hlist].
Defined.

Lemma listed_attributes_are_readable_witness :
  resolve "/docs/a.txt" None (cache sample_fs) = Some sample_file /\
  exists names,
    listxattr "/docs/a.txt" sample_fs
    = (inr (Some names), sample_fs, [EvResolve "/docs/a.txt" None]) /\
    getxattr "/docs/a.txt" XATTRS_ID 0 sample_fs
    = (inr (utf8 "X1"), sample_fs, [EvResolve "/docs/a.txt" None]).
Proof.
  assert (resolve "/docs/a.txt" None (cache sample_fs) = Some sample_file)
    as Hn by reflexivity.
  split; [exact Hn|].
  destruct (listed_attributes_are_readable sample_fs "/docs/a.txt"
              sample_file 0 Hn) as (names & Hl & _ & Hid & _).
  - intros _. by eexists.
  - exists names. split; [exact Hl|exact Hid].
Defined.

Lemma truncate_pseudo_witness :
  resolve "/docs/a.txt" None (cache sample_fs) = Some sample_file /\
  (truncate "/docs/a.txt" 10 None sample_fs).1.1 = inr tt /\
  (truncate "/docs/a.txt" 11 None sample_fs).1.1 = inl (FuseOSError ENOSYS).
Proof.
  assert (resolve "/docs/a.txt" None (cache sample_fs) = Some sample_file)
    as Hn by reflexivity.
  split; [exact Hn|]. split.
  - pose proof (truncate_pseudo sample_fs "/docs/a.txt" 10 None sample_file Hn)
      as Ht.
    destruct (truncate "/docs/a.txt" 10 None sample_fs) as [[res st'] tr].
    destruct Ht as (_ & _ & _ & Hsize).
    exact (Hsize 10 eq_refl eq_refl).
  - pose proof (truncate_pseudo sample_fs "/docs/a.txt" 11 None sample_file Hn)
      as Ht.
    destruct (truncate "/docs/a.txt" 11 None sample_fs) as [[res st'] tr].
    destruct Ht as (_ & _ & _ & Hsize).
    exact (Hsize 10 eq_refl eq_refl).
Defined.

Lemma release_frees_both_proxies_witness :
  resolve "/docs/a.txt" (Some false) (cache sample_fs) = Some sample_file /\
  closed_streams (net (release "/docs/a.txt" 2 sample_fs).1.2) = [].
Proof.
  assert (resolve "/docs/a.txt" (Some false) (cache sample_fs)
          = Some sample_file) as Hn by reflexivity.
  split; [exact Hn|].
  pose proof (release_frees_both_proxies sample_fs "/docs/a.txt" 2
                sample_file Hn) as Hr.
  destruct (release "/docs/a.txt" 2 sample_fs) as [[res st'] tr].
  destruct Hr as (_ & Hcl & _). cbn [fst snd]. rewrite Hcl. reflexivity.
Defined.

Lemma write_advances_offset_witness :
  (write "/docs/a.txt" [Byte.x00; Byte.x01] 0 2 sample_fs).1.1 = inr 2 /\
  expected_offset
    (wp (write "/docs/a.txt" [Byte.x00; Byte.x01] 0 2 sample_fs).1.2) 2 = 2.
Proof.
  pose proof (write_advances_offset sample_fs "/docs/a.txt"
                [Byte.x00; Byte.x01] 0 2) as Hw.
  destruct (write "/docs/a.txt" [Byte.x00; Byte.x01] 0 2 sample_fs)
    as [[res st'] tr] eqn:Hrun.
  assert (res = inr 2) as -> by (vm_compute in Hrun; congruence).
  destruct Hw as (_ & _ & _ & Hoff & _).
  split; [reflexivity|exact Hoff].
Defined.

#[local] Existing Instance flaky_client.

Lemma rename_not_atomic_witness :
  resolve "/docs/b.txt" (Some false) (cache (FS_init crowded_tree 0%nat))
  = Some (mkCNode "X2" FileKind (Some 20) (Some "def") None) /\
  (rename "/docs/a.txt" "/docs/b.txt" (FS_init crowded_tree 0%nat)).1.1
  = inl (FuseOSError EREMOTEIO) /\
  requests (rename "/docs/a.txt" "/docs/b.txt" (FS_init crowded_tree 0%nat)).2
  = [move_to_trash "X2"; rename_node "X1" "b.txt"].
Proof.
  assert (resolve "/docs/b.txt" (Some false)
            (cache (FS_init crowded_tree 0%nat))
          = Some (mkCNode "X2" FileKind (Some 20) (Some "def") None)) as Hn
    by reflexivity.
  split; [exact Hn|].
  pose proof (rename_not_atomic (FS_init crowded_tree 0%nat)
                "/docs/a.txt" "/docs/b.txt" sample_file
                (mkCNode "X2" FileKind (Some 20) (Some "def") None)
                (sample_node "X2" "b.txt") 1%nat
                (mkRequestError 500 "Internal Server Error") 2%nat) as Hr.
  destruct (rename "/docs/a.txt" "/docs/b.txt" (FS_init crowded_tree 0%nat))
    as [[res st'] tr].
  specialize (Hr ltac:(done) eq_refl Hn eq_refl ltac:(done) eq_refl eq_refl).
  cbn [fst snd].
  destruct Hr as (Hres & _ & Htr & _).
  rewrite Hres, Htr. split; reflexivity.
Defined.

End FuseFacts.
